(** * Order checkout and completion of the pizza-ordering REST backend

    A shallow embedding of [helpers.js], [dataStore.js], the handler
    classes [Token], [Item], [Order] and [User], the router and the
    server, followed by the properties of the checkout / order-completion
    flow and then by those of the other handlers and of the server.

    Reading guide for the embedding.
    - A JavaScript string is a [string] of code units below 256; a timestamp
      (a value of [Date.now()]) is a [Z]; an amount of money or a quantity
      is a binary64 [float], with the arithmetic of the language.
    - A JSON document is a record whose fields are [option]s: [None] stands
      for [null] / [undefined] / a value of the wrong type, which is how
      every [typeof] guard of the source reads them.  The documents of the
      store are well-typed in this sense, and need not be valid: an id may
      have the wrong length, a price may be negative.
    - A JS object used as a dictionary whose keys are enumerated
      ([Object.keys]) is an association list in enumeration order, with
      distinct keys; the collections of the document store and the catalog
      hash-map, which are only looked up by key, are [gmap]s.
    - The handlers are written in continuation-passing style over
      asynchronous file operations.  They are embedded in direct style in a
      state monad over the [World]: every file operation is atomic and
      fails only for the state of its directory, and a fire-and-forget
      call ([token.extend()], [this.delete()]) takes effect at the place
      where it is issued.  A callback that is never invoked (or an
      uncaught exception, which ends the request without an answer) is
      the result [None].
    - What the process cannot decide is read off the world: the clock,
      the random candidates for identifiers, the answers of the payment
      gateway and of the mail transport. *)

From Stdlib Require Import Floats ZArith String Ascii List Bool Lia.
From stdpp Require Import gmap strings list fin_maps.

Local Open Scope string_scope.
Local Open Scope Z_scope.

(** ** Language primitives *)

Module Js.

(** [WhiteSpace] and [LineTerminator] code units below 256:
    TAB, LF, VT, FF, CR, SP and NBSP. *)
Definition isWhiteSpace (c : ascii) : bool :=
  let n := nat_of_ascii c in
  Nat.eqb n 9 || Nat.eqb n 10 || Nat.eqb n 11 || Nat.eqb n 12
  || Nat.eqb n 13 || Nat.eqb n 32 || Nat.eqb n 160.

Fixpoint trimStart (s : string) : string :=
  match s with
  | EmptyString => EmptyString
  | String c r => if isWhiteSpace c then trimStart r else s
  end.

Fixpoint trimEnd (s : string) : string :=
  match s with
  | EmptyString => EmptyString
  | String c r =>
      match trimEnd r with
      | EmptyString => if isWhiteSpace c then EmptyString else String c EmptyString
      | r' => String c r'
      end
  end.

(** [String.prototype.trim] *)
Definition trim (s : string) : string := trimEnd (trimStart s).

(** [s.substr(start)] for [0 <= start] *)
Fixpoint substr (start : nat) (s : string) : string :=
  match start, s with
  | O, _ => s
  | S n, String _ r => substr n r
  | S _, EmptyString => EmptyString
  end.

(** Truthiness of a number that cannot be [NaN]. *)
Definition truthyZ (z : Z) : bool := negb (z =? 0).

(** Truthiness of a binary64 number: neither zero nor [NaN]. *)
Definition truthyF (x : float) : bool :=
  negb (PrimFloat.eqb x 0%float) && negb (PrimFloat.is_nan x).

(** [s || dflt] on strings: the empty string is falsy. *)
Definition strOr (s : option string) (dflt : string) : string :=
  match s with
  | Some EmptyString | None => dflt
  | Some x => x
  end.

(** [s || null] on strings. *)
Definition strOrNull (s : option string) : option string :=
  match s with
  | Some EmptyString => None
  | _ => s
  end.

(** [z || null] on numbers. *)
Definition numOrNull (z : option Z) : option Z :=
  match z with
  | Some x => if truthyZ x then z else None
  | None => None
  end.

(** A value spliced into a template literal. *)
Definition template (s : option string) : string := default "null" s.

(** [ToNumber] of a stored number; an absent one is [NaN]. *)
Definition toNumber (x : option float) : float := default PrimFloat.nan x.

(** A dictionary whose keys are enumerated, in enumeration order; the
    keys of a dictionary are distinct. *)
Definition Obj (V : Type) := list (string * V).

Definition keys {V} (o : Obj V) : list string := o.*1.

(** [o[key]] on an own property *)
Fixpoint get {V} (key : string) (o : Obj V) : option V :=
  match o with
  | [] => None
  | (k, v) :: rest => if String.eqb k key then Some v else get key rest
  end.

(** [delete o[key]] *)
Definition remove {V} (key : string) (o : Obj V) : Obj V :=
  List.filter (λ entry, negb (String.eqb entry.1 key)) o.

Definition digit (c : ascii) : option N :=
  let n := N_of_ascii c in
  if (48 <=? n)%N && (n <=? 57)%N then Some (n - 48)%N else None.

Fixpoint numeral (acc : N) (s : string) : option N :=
  match s with
  | EmptyString => Some acc
  | String c rest =>
      match digit c with
      | Some d => numeral (10 * acc + d)%N rest
      | None => None
      end
  end.

(** The array index that a key spells: a decimal numeral without a
    leading zero, below [2^32 - 1].  Such keys are enumerated first, in
    ascending order; the others follow in the order of their creation. *)
Definition arrayIndex (key : string) : option N :=
  match key with
  | EmptyString => None
  | String c rest =>
      if Ascii.eqb c "0" && negb (String.eqb rest "") then None
      else match numeral 0 key with
           | Some n => if (n <? 2 ^ 32 - 1)%N then Some n else None
           | None => None
           end
  end.

Fixpoint update {V} (key : string) (v : V) (o : Obj V) : Obj V :=
  match o with
  | [] => []
  | (k, x) :: rest =>
      if String.eqb k key then (k, v) :: rest else (k, x) :: update key v rest
  end.

(** The place of a new array index [n] among the keys. *)
Fixpoint insertIndex {V} (n : N) (key : string) (v : V) (o : Obj V) : Obj V :=
  match o with
  | [] => [(key, v)]
  | (k, x) :: rest =>
      match arrayIndex k with
      | Some m => if (m <? n)%N then (k, x) :: insertIndex n key v rest else (key, v) :: o
      | None => (key, v) :: o
      end
  end.

(** [o[key] = v] for a number [v]: an own property keeps its place; a new
    one takes the place that the enumeration order gives it; on an object
    without an own [__proto__], assigning a number to that name does
    nothing. *)
Definition set {V} (key : string) (v : V) (o : Obj V) : Obj V :=
  if bool_decide (key ∈ keys o) then update key v o
  else if String.eqb key "__proto__" then o
  else match arrayIndex key with
       | Some n => insertIndex n key v o
       | None => (o ++ [(key, v)])%list
       end.

(** [String.prototype.toLowerCase] on a code unit below 256: the letters
    [A-Z], and [À-Þ] but for the multiplication sign. *)
Definition lower (c : ascii) : ascii :=
  let n := nat_of_ascii c in
  if Nat.leb 65 n && Nat.leb n 90
     || Nat.leb 192 n && Nat.leb n 222 && negb (Nat.eqb n 215)
  then ascii_of_nat (n + 32)%nat else c.

Fixpoint toLowerCase (s : string) : string :=
  match s with
  | EmptyString => EmptyString
  | String c rest => String (lower c) (toLowerCase rest)
  end.

End Js.

(** ** Regular expressions, matched through derivatives *)

Module RegExp.

Inductive t :=
| Never
| Empty
| Class (p : ascii → bool)
| Seq (r s : t)
| Or (r s : t)
| Many (r : t).

Fixpoint nullable (r : t) : bool :=
  match r with
  | Never => false
  | Empty => true
  | Class _ => false
  | Seq r s => nullable r && nullable s
  | Or r s => nullable r || nullable s
  | Many _ => true
  end.

Fixpoint deriv (c : ascii) (r : t) : t :=
  match r with
  | Never | Empty => Never
  | Class p => if p c then Empty else Never
  | Seq r s =>
      if nullable r then Or (Seq (deriv c r) s) (deriv c s)
      else Seq (deriv c r) s
  | Or r s => Or (deriv c r) (deriv c s)
  | Many r => Seq (deriv c r) (Many r)
  end.

(** [/^r$/.test(s)] *)
Fixpoint test (r : t) (s : string) : bool :=
  match s with
  | EmptyString => nullable r
  | String c s' => test (deriv c r) s'
  end.

Definition plus (r : t) : t := Seq r (Many r).

Definition between (lo hi : nat) (c : ascii) : bool :=
  let n := nat_of_ascii c in Nat.leb lo n && Nat.leb n hi.

Definition chr (x : ascii) : t := Class (Ascii.eqb x).

End RegExp.

(** ** The data model: stored documents, responses, the world *)

(** [{ email, id, expiration }] *)
Record TokenData := {
  tk_email : option string;
  tk_id : option string;
  tk_expiration : option Z
}.

(** [{ id, name, description, imageURL, unitPrice }] *)
Record ItemData := {
  it_id : option string;
  it_name : option string;
  it_description : option string;
  it_imageURL : option string;
  it_unitPrice : option float
}.

(** What the payment gateway answers, once parsed: the fields
    [object], [paid] and [status] that [complete] inspects. *)
Record Payment := {
  p_object : string;
  p_paid : bool;
  p_status : string
}.

(** [{ id, email, createdOn, completedOn, paymentInfo, total, items }] *)
Record OrderData := {
  od_id : option string;
  od_email : option string;
  od_createdOn : option Z;
  od_completedOn : option Z;
  od_paymentInfo : option Payment;
  od_total : option float;
  od_items : option (Js.Obj float)
}.

(** [{ email, password, firstName, lastName, streetAddress, cart, orders }] *)
Record UserData := {
  ud_email : option string;
  ud_password : option string;
  ud_firstName : option string;
  ud_lastName : option string;
  ud_streetAddress : option string;
  ud_cart : option (Js.Obj float);
  ud_orders : option (list (option string))
}.

(** The payload of [POST /v1/charges], before [querystring.stringify]. *)
Record ChargeRequest := {
  amount : float;
  currency : string;
  source : string
}.

(** The invoice handed to the mail transport: recipient, order and total
    (the HTML body is a rendering of these and of the catalog). *)
Record MailRequest := {
  mail_to : option string;
  mail_order : option string;
  mail_total : option float
}.

(** The two outcomes of [helpers.ajax]: [callback(null, result)] on a
    200 / 201 answer, [callback(err)] otherwise. *)
Inductive Ajax (A : Type) :=
| AjaxOk (result : A)
| AjaxErr.
Arguments AjaxOk {A} result.
Arguments AjaxErr {A}.

(** The second argument of a handler's callback. *)
Inductive Body :=
| Undefined
| ErrorMsg (msg : string)
| errorMsg (msg : string)
| UserJSON (u : UserData)
| OrderJSON (o : OrderData)
| AlreadyCompleted (completedOn : Z)
| Receipt (orderData : Body) (info : string)
| PaymentFailed (paymentDetails : Payment)
| AjaxError
| Text (s : string).

(** [callback(statusCode, payload)]; the status is [None] when the handler
    passes [null]. *)
Definition Response : Type := option Z * Body.

(** The second argument of a callback, for the handlers outside the
    checkout flow as well: the bodies above, a token, an item, a
    collection, or [true]. *)
Inductive Reply :=
| Plain (body : Body)
| TokenJSON (token : TokenData)
| ItemJSON (item : ItemData)
| ItemList (all : list ItemData)
| OrderList (all : list OrderData)
| Boolean (b : bool).

Definition Answer : Type := option Z * Reply.

(** [statusCode === 200] *)
Definition is200 (statusCode : option Z) : bool :=
  match statusCode with
  | Some n => n =? 200
  | None => false
  end.

Record World := {
  (** the four collections of the document store *)
  tokens : gmap string TokenData;
  users : gmap string UserData;
  items : gmap string ItemData;
  orders : gmap string OrderData;
  (** [const IDs = {}] of helpers.js *)
  IDs : gset string;
  (** the values that
      [Date.now().toString(36) + Math.random().toString(36).replace("0.", "")]
      will take, in order *)
  candidates : list string;
  (** [Date.now()]: the i-th reading, and the number of readings so far *)
  clock : nat → Z;
  ticks : nat;
  (** [helpers.hash] *)
  hmac : string → string;
  (** the payment gateway: its answer to the i-th request, and the
      requests made so far *)
  stripe : nat → ChargeRequest → Ajax Payment;
  charges : list ChargeRequest;
  (** the mail transport, likewise *)
  mailgun : nat → MailRequest → Ajax string;
  mails : list MailRequest
}.

Definition set_tokens (d : gmap string TokenData) (w : World) : World :=
  {| tokens := d; users := users w; items := items w; orders := orders w;
     IDs := IDs w; candidates := candidates w; clock := clock w; ticks := ticks w;
     hmac := hmac w; stripe := stripe w; charges := charges w;
     mailgun := mailgun w; mails := mails w |}.

Definition set_users (d : gmap string UserData) (w : World) : World :=
  {| tokens := tokens w; users := d; items := items w; orders := orders w;
     IDs := IDs w; candidates := candidates w; clock := clock w; ticks := ticks w;
     hmac := hmac w; stripe := stripe w; charges := charges w;
     mailgun := mailgun w; mails := mails w |}.

Definition set_orders (d : gmap string OrderData) (w : World) : World :=
  {| tokens := tokens w; users := users w; items := items w; orders := d;
     IDs := IDs w; candidates := candidates w; clock := clock w; ticks := ticks w;
     hmac := hmac w; stripe := stripe w; charges := charges w;
     mailgun := mailgun w; mails := mails w |}.

Definition set_registry (ids : gset string) (cands : list string) (w : World) : World :=
  {| tokens := tokens w; users := users w; items := items w; orders := orders w;
     IDs := ids; candidates := cands; clock := clock w; ticks := ticks w;
     hmac := hmac w; stripe := stripe w; charges := charges w;
     mailgun := mailgun w; mails := mails w |}.

Definition tick (w : World) : World :=
  {| tokens := tokens w; users := users w; items := items w; orders := orders w;
     IDs := IDs w; candidates := candidates w; clock := clock w; ticks := S (ticks w);
     hmac := hmac w; stripe := stripe w; charges := charges w;
     mailgun := mailgun w; mails := mails w |}.

Definition log_charge (r : ChargeRequest) (w : World) : World :=
  {| tokens := tokens w; users := users w; items := items w; orders := orders w;
     IDs := IDs w; candidates := candidates w; clock := clock w; ticks := ticks w;
     hmac := hmac w; stripe := stripe w; charges := charges w ++ [r];
     mailgun := mailgun w; mails := mails w |}.

Definition log_mail (r : MailRequest) (w : World) : World :=
  {| tokens := tokens w; users := users w; items := items w; orders := orders w;
     IDs := IDs w; candidates := candidates w; clock := clock w; ticks := ticks w;
     hmac := hmac w; stripe := stripe w; charges := charges w;
     mailgun := mailgun w; mails := mails w ++ [r] |}.

(** ** The monad of handlers

    A computation threads the world and either hands a value to its
    continuation or never does ([None]). *)

Definition M (A : Type) : Type := World → World * option A.

Definition ret {A} (a : A) : M A := λ w, (w, Some a).

Definition bind {A B} (m : M A) (k : A → M B) : M B :=
  λ w, match m w with
       | (w', Some a) => k a w'
       | (w', None) => (w', None)
       end.

(** The callback is never invoked. *)
Definition silent {A} : M A := λ w, (w, None).

Definition gets {A} (f : World → A) : M A := λ w, (w, Some (f w)).

(** Runs [m] for its effect on the world; nothing waits for its callback. *)
Definition forget {A} (m : M A) : M unit := λ w, ((m w).1, Some tt).

Declare Scope handler_scope.
Delimit Scope handler_scope with handler.
Notation "x <- m ;; k" := (bind m (λ x, k))
  (at level 100, m at next level, right associativity) : handler_scope.
Notation "m ;;; k" := (bind m (λ _, k))
  (at level 100, right associativity) : handler_scope.
Local Open Scope handler_scope.

(** A handler that answers with one of the bodies of the checkout flow. *)
Definition plain (m : M Response) : M Answer :=
  response <- m ;; ret (response.1, Plain response.2).

(** What the handlers read of [data.payload]. *)
Record Payload := {
  pl_id : option string;
  pl_email : option string;
  pl_password : option string;
  pl_tosAgreement : option bool;
  pl_firstName : option string;
  pl_lastName : option string;
  pl_streetAddress : option string;
  pl_cart : option (Js.Obj float);
  pl_orders : option (list (option string));
  pl_items : option (Js.Obj float);
  pl_completedOn : option Z;
  pl_paymentInfo : option Payment;
  pl_total : option float;
  pl_extend : option bool;
  pl_tokenId : option string;
  pl_itemId : option string;
  pl_quantity : option float;
  pl_stripeToken : option string
}.

(** The [data] that the server hands to a handler.  The payload is what
    [JSON.parse] made of the body: [None] is [null], on which every read
    of a field throws; a number, a string, a boolean or an array reads as
    an object without any of the fields above. *)
Record Data := {
  d_path : string;
  d_method : string;
  (** [data.headers.tokenid] *)
  d_tokenid : option string;
  (** [data.queryParams.id] and [data.queryParams.email] *)
  d_id : option string;
  d_email : option string;
  d_payload : option Payload
}.

(** [["post", "get", "put", "delete"].indexOf(method) > -1] *)
Definition acceptedMethods : list string := ["post"; "get"; "put"; "delete"].

(** [typeof data.method === "string" ? data.method.trim().toLowerCase() : ""] *)
Definition methodOf (data : Data) : string := Js.toLowerCase (Js.trim (d_method data)).

(** [callback(405)] *)
Definition methodNotAllowed : M Answer := ret (Some 405, Plain Undefined).

(** [Date.now()] *)
Definition Date_now : M Z := λ w, (tick w, Some (clock w (ticks w))).

(** ** helpers.js *)

Module helpers.

Definition word : RegExp.t :=
  RegExp.Class (λ c, RegExp.between 65 90 c || RegExp.between 97 122 c
                     || RegExp.between 48 57 c
                     || Ascii.eqb c "." || Ascii.eqb c "_")%char.

Definition letter : RegExp.t :=
  RegExp.Class (λ c, RegExp.between 65 90 c || RegExp.between 97 122 c).

(** [/^[A-Za-z0-9._]+\@[A-Za-z0-9._]+\.[A-Za-z]{2,3}$/i] *)
Definition EMAIL_REGEXP : RegExp.t :=
  RegExp.Seq (RegExp.plus word)
    (RegExp.Seq (RegExp.chr "@")
       (RegExp.Seq (RegExp.plus word)
          (RegExp.Seq (RegExp.chr ".")
             (RegExp.Seq letter
                (RegExp.Seq letter (RegExp.Or RegExp.Empty letter))))))%char.

Definition isValidEmail (value : option string) : bool :=
  match value with
  | Some s => RegExp.test EMAIL_REGEXP (Js.trim s)
  | None => false
  end.

Definition isValidPassword (value : option string) : bool :=
  match value with
  | Some s => Nat.leb 6 (String.length (Js.trim s))
  | None => false
  end.

Definition isValidOrderId (value : option string) : bool :=
  match value with
  | Some s => Nat.eqb (String.length (Js.trim s)) 20
  | None => false
  end.

Definition isValidItemId (value : option string) : bool :=
  match value with
  | Some s => Nat.eqb (String.length (Js.trim s)) 10
  | None => false
  end.

(** The [do ... while] loop of [createRandomString]: the first candidate
    that is not in the registry and has 21 characters, with the
    candidates left; [None] when the loop does not end within the
    candidates at hand. *)
Fixpoint draw (ids : gset string) (cands : list string) : option (string * list string) :=
  match cands with
  | [] => None
  | sId :: rest =>
      if bool_decide (sId ∈ ids) || negb (Nat.eqb (String.length sId) 21)
      then draw ids rest
      else Some (sId, rest)
  end.

Definition createRandomString (strLength : nat) : M string :=
  let strLength :=
    if Nat.ltb 0 strLength && Nat.leb strLength 21 then strLength else 21%nat in
  λ w, match draw (IDs w) (candidates w) with
       | Some (sId, rest) =>
           (set_registry ({[ sId ]} ∪ IDs w) rest w,
            Some (Js.substr (21 - strLength) sId))
       | None => (set_registry (IDs w) [] w, None)
       end.

(** [helpers.hash(str)]: the keyed digest of a non-empty string, and
    [None] for [false]. *)
Definition hash (str : option string) : M (option string) :=
  gets (λ w, match str with
             | Some s => if Nat.ltb 0 (String.length s) then Some (hmac w s) else None
             | None => None
             end).

End helpers.

(** ** dataStore.js

    A collection of the store is a finite map from file names to
    documents.  An operation fails exactly when the file system makes it
    fail for the state of the directory: [wx] on an existing file, [r+],
    [readFile] or [unlink] on a missing one.  The error handed to the
    callback is [Some message], and [None] when there is none. *)

Module dataStore.

(** A directory of the store: how to read it off the world and how to
    write it back. *)
Record Dir (A : Type) := {
  contents : World → gmap string A;
  replace : gmap string A → World → World
}.
Arguments contents {A} _ _.
Arguments replace {A} _ _ _.

Definition create {A} (dir : Dir A) (file : string) (data : A) : M (option string) :=
  λ w, match contents dir w !! file with
       | Some _ => (w, Some (Some "Could not create new file, it may already exist"))
       | None => (replace dir (<[file := data]> (contents dir w)) w, Some None)
       end.

(** [callback(err, data)]: the document, or [None] when [err] is set. *)
Definition read {A} (dir : Dir A) (file : string) : M (option A) :=
  λ w, (w, Some (contents dir w !! file)).

Definition update {A} (dir : Dir A) (file : string) (data : A) : M (option string) :=
  λ w, match contents dir w !! file with
       | Some _ => (replace dir (<[file := data]> (contents dir w)) w, Some None)
       | None => (w, Some (Some "Could not open file for updating, it may not exist yet"))
       end.

Definition delete {A} (dir : Dir A) (file : string) : M (option string) :=
  λ w, match contents dir w !! file with
       | Some _ => (replace dir (base.delete file (contents dir w)) w, Some None)
       | None => (w, Some (Some "ENOENT"))
       end.

(** The documents of the directory with their file names, [.json]
    removed. *)
Definition list {A} (dir : Dir A) : M (Datatypes.list (string * A)) :=
  λ w, (w, Some (map_to_list (contents dir w))).

End dataStore.

Definition tokensDir : dataStore.Dir TokenData :=
  {| dataStore.contents := tokens; dataStore.replace := set_tokens |}.
Definition usersDir : dataStore.Dir UserData :=
  {| dataStore.contents := users; dataStore.replace := set_users |}.
Definition ordersDir : dataStore.Dir OrderData :=
  {| dataStore.contents := orders; dataStore.replace := set_orders |}.
Definition itemsDir : dataStore.Dir ItemData :=
  {| dataStore.contents := items; dataStore.replace := λ _ w, w |}.

(** [a === b] on identifiers ([None] is [null]). *)
Definition strictEq (a b : option string) : bool := bool_decide (a = b).

(** ** handlers/Token.js *)

Module Token.

(** The private fields of an instance. *)
Record t := {
  _email : option string;
  _id : option string;
  _expiration : option Z
}.

Definition isValidTokenId (value : option string) : bool :=
  match value with
  | Some s => Nat.eqb (String.length (Js.trim s)) 20
  | None => false
  end.

Definition isValidUserId (value : option string) : bool := helpers.isValidEmail value.

Definition set_email (value : option string) (this : t) : t :=
  if isValidUserId value
  then {| _email := Js.trim <$> value; _id := _id this; _expiration := _expiration this |}
  else this.

Definition email (this : t) : option string := Js.strOrNull (_email this).

Definition set_id (value : option string) (this : t) : t :=
  if isValidTokenId value
  then {| _email := _email this; _id := Js.trim <$> value; _expiration := _expiration this |}
  else this.

Definition id (this : t) : option string := Js.strOrNull (_id this).

Definition set_expiration (value : option Z) (this : t) : t :=
  {| _email := _email this; _id := _id this; _expiration := value |}.

Definition expiration (this : t) : option Z := Js.numOrNull (_expiration this).

(** [new Token(params)] *)
Definition new (params : TokenData) : t :=
  set_expiration (tk_expiration params)
    (set_id (tk_id params)
       (set_email (tk_email params)
          {| _email := None; _id := None; _expiration := None |})).

Definition noParams : TokenData :=
  {| tk_email := None; tk_id := None; tk_expiration := None |}.

Definition toJSON (this : t) : TokenData :=
  {| tk_email := email this; tk_id := id this; tk_expiration := expiration this |}.

(** [x > Date.now()] for an expiration read through its getter: [null]
    counts as 0. *)
Definition later (x : option Z) (now : Z) : bool := default 0 x >? now.

(** [Token.delete({ queryParams: { id } }, callback)] *)
Definition delete (queryId : option string) : M Response :=
  match (if isValidTokenId queryId then Js.trim <$> queryId else None) with
  | Some id' =>
      tokenData <- dataStore.read tokensDir id' ;;
      let token := new (default noParams tokenData) in
      if bool_decide (is_Some tokenData) && strictEq (id token) (Some id') then
        err <- dataStore.delete tokensDir id' ;;
        match err with
        | None => ret (Some 200, Undefined)
        | Some _ => ret (Some 500, errorMsg "Could not delete the specified token")
        end
      else ret (Some 400, errorMsg "Could not find the specified token.")
  | None => ret (Some 400, errorMsg "Missing required field")
  end.

(** [Token.put({ payload: { id, extend } }, callback)] *)
Definition put (payloadId : option string) (extend : bool) : M Response :=
  match (if isValidTokenId payloadId then Js.trim <$> payloadId else None) with
  | Some id' =>
      if extend then
        tokenData <- dataStore.read tokensDir id' ;;
        match tokenData with
        | Some tokenData =>
            let token := new tokenData in
            if strictEq (id token) (Some id') then
              now <- Date_now ;;
              if later (expiration token) now then
                now' <- Date_now ;;
                let token := set_expiration (Some (now' + 1000 * 60 * 60)) token in
                err <- dataStore.update tokensDir id' (toJSON token) ;;
                match err with
                | None => ret (Some 200, Undefined)
                | Some _ => ret (Some 500, errorMsg "Could not update this token's expiration.")
                end
              else
                err <- dataStore.delete tokensDir id' ;;
                match err with
                | None => ret (Some 400, errorMsg "The token cannot be extended (it is expired and deleted).")
                | Some _ => ret (Some 500, errorMsg "The token cannot be extended (it is expired, but could not be deleted).")
                end
            else silent
        | None => ret (Some 404, errorMsg "A token with the given ID cannot be found")
        end
      else ret (Some 400, errorMsg "Missing required field(s) or field(s) are invalid.")
  | None => ret (Some 400, errorMsg "Missing required field(s) or field(s) are invalid.")
  end.

(** [token.delete()], nothing waiting for its callback *)
Definition delete_ (this : t) : M unit := forget (delete (id this)).

(** [token.extend()], nothing waiting for its callback *)
Definition extend (this : t) : M unit := forget (put (id this) true).

(** [token.isValid(callback)]: the boolean handed to the callback.  The
    token is removed from the store when the check fails on a document
    that was found. *)
Definition isValid (this : t) : M bool :=
  data <- dataStore.read tokensDir (Js.template (id this)) ;;
  match data with
  | Some data =>
      let this := {| _email := _email this; _id := _id this;
                     _expiration := tk_expiration data |} in
      if strictEq (tk_id data) (id this) then
        now <- Date_now ;;
        if later (expiration this) now then ret true
        else (delete_ this ;;; ret false)
      else (delete_ this ;;; ret false)
  | None => ret false
  end.

Definition isValidPassword (value : option string) : bool := helpers.isValidPassword value.

Definition createUniqueId : M string := helpers.createRandomString 20.

(** [Token.post(data, callback)], on [data.payload.email] and
    [data.payload.password] *)
Definition post (email password : option string) : M Answer :=
  let email' := if isValidUserId email then Js.trim <$> email else None in
  let password' := if isValidPassword password then Js.trim <$> password else None in
  match email', password' with
  | Some email', Some password' =>
      userData <- dataStore.read usersDir email' ;;
      match userData with
      | Some userData =>
          hashedPassword <- helpers.hash (Some password') ;;
          if bool_decide (is_Some hashedPassword)
             && strictEq hashedPassword (ud_password userData)
          then
            tokenId <- createUniqueId ;;
            now <- Date_now ;;
            let expiration := now + 1000 * 60 * 60 in
            let tokenObject :=
              toJSON (new {| tk_email := Some email'; tk_id := Some tokenId;
                             tk_expiration := Some expiration |}) in
            err <- dataStore.create tokensDir tokenId tokenObject ;;
            match err with
            | None => ret (Some 200, TokenJSON tokenObject)
            | Some _ => ret (Some 500, Plain (errorMsg "Could not create the new token"))
            end
          else ret (Some 400, Plain (errorMsg "Password did not match the specified user password"))
      | None => ret (Some 404, Plain (errorMsg "A token with the given ID cannot be found"))
      end
  | _, _ => ret (Some 400, Plain (errorMsg "Missing required field(s)."))
  end.

(** [Token.get(data, callback)], on [data.queryParams.id] *)
Definition get (queryId : option string) : M Answer :=
  match (if isValidTokenId queryId then Js.trim <$> queryId else None) with
  | Some id' =>
      tokenData <- dataStore.read tokensDir id' ;;
      match tokenData with
      | Some tokenData => ret (Some 200, TokenJSON (toJSON (new tokenData)))
      | None => ret (Some 404, Plain (errorMsg "A token with the given ID cannot be found"))
      end
  | None => ret (Some 400, Plain (errorMsg "Missing required field, or field invalid"))
  end.

(** [Token.httpRequestHandler(data, callback)] *)
Definition httpRequestHandler (data : Data) : M Answer :=
  let method := methodOf data in
  if String.eqb method "post" then
    match d_payload data with
    | Some p => post (pl_email p) (pl_password p)
    | None => silent
    end
  else if String.eqb method "get" then get (d_id data)
  else if String.eqb method "put" then
    match d_payload data with
    | Some p => plain (put (pl_id p) (bool_decide (pl_extend p = Some true)))
    | None => silent
    end
  else if String.eqb method "delete" then plain (delete (d_id data))
  else methodNotAllowed.

End Token.

(** ** handlers/Item.js *)

Module Item.

Record t := {
  _id : option string;
  _name : option string;
  _description : option string;
  _imageURL : option string;
  _unitPrice : option float
}.

Definition isValidId (value : option string) : bool := helpers.isValidItemId value.

Definition isValidPrice (value : option float) : bool :=
  match value with
  | Some x => PrimFloat.ltb 0 x
  | None => false
  end.

(** [typeof value === "string" ? value.trim() : ""] *)
Definition text (value : option string) : option string :=
  Some (match value with Some s => Js.trim s | None => "" end).

(** [new Item(params)]: the setters, run in the order of the constructor *)
Definition new (params : ItemData) : t :=
  {| _id := if isValidId (it_id params) then Js.trim <$> it_id params else None;
     _name := text (it_name params);
     _description := text (it_description params);
     _imageURL := text (it_imageURL params);
     _unitPrice :=
       if isValidPrice (it_unitPrice params) then it_unitPrice params else Some 0%float |}.

Definition id (this : t) : option string := Js.strOrNull (_id this).

(** [this._unitPrice || 0.0] *)
Definition unitPrice (this : t) : float :=
  match _unitPrice this with
  | Some x => if Js.truthyF x then x else 0%float
  | None => 0%float
  end.

Definition toJSON (this : t) : ItemData :=
  {| it_id := id this;
     it_name := _name this;
     it_description := _description this;
     it_imageURL := _imageURL this;
     it_unitPrice := Some (unitPrice this) |}.

(** [Item.list(callback)]: the array handed to the callback with status
    200.  Over an empty directory no read is issued, so the count that
    triggers the callback is never reached. *)
Definition list : M (Datatypes.list ItemData) :=
  data <- dataStore.list itemsDir ;;
  if Nat.eqb (length data) 0 then silent
  else ret ((λ file, toJSON (new file.2)) <$> data).

(** [Item.hashmap(callback)]: the hash-map handed to the callback with
    status 200, keyed by file name; silent over an empty directory, as
    [list] is. *)
Definition hashmap : M (gmap string ItemData) :=
  data <- dataStore.list itemsDir ;;
  if Nat.eqb (length data) 0 then silent
  else gets (λ w, (λ doc, toJSON (new doc)) <$> items w).

(** [Item.get(data, callback)], on [data.queryParams.id]: the item, or
    the whole catalog when the id is missing or malformed. *)
Definition get (queryId : option string) : M Answer :=
  match (if isValidId queryId then Js.trim <$> queryId else None) with
  | Some id' =>
      data <- dataStore.read itemsDir id' ;;
      match data with
      | Some data => ret (Some 200, ItemJSON (toJSON (new data)))
      | None => ret (Some 404, Plain (ErrorMsg "Cannot find an item with the given ID"))
      end
  | None =>
      all <- list ;;
      ret (Some 200, ItemList all)
  end.

(** [Item.httpRequestHandler(data, callback)]: [get] is the one accepted
    method. *)
Definition httpRequestHandler (data : Data) : M Answer :=
  if String.eqb (methodOf data) "get" then get (d_id data) else methodNotAllowed.

End Item.

(** ** handlers/Order.js *)

Module Order.

(** The private fields of an instance; [None] is [undefined]. *)
Record t := {
  _id : option string;
  _email : option string;
  _createdOn : option Z;
  _completedOn : option Z;
  _paymentInfo : option Payment;
  _total : option float;
  _items : option (Js.Obj float)
}.

Definition blank : t :=
  {| _id := None; _email := None; _createdOn := None; _completedOn := None;
     _paymentInfo := None; _total := None; _items := None |}.

Definition isValidEmail (value : option string) : bool := helpers.isValidEmail value.

Definition isValidOrderId (value : option string) : bool := helpers.isValidOrderId value.

Definition createUniqueId : M string := helpers.createRandomString 20.

(** *** Properties *)

Definition set_createdOn (value : option Z) (this : t) : t :=
  match value with
  | Some v =>
      {| _id := _id this; _email := _email this; _createdOn := Some v;
         _completedOn := _completedOn this; _paymentInfo := _paymentInfo this;
         _total := _total this; _items := _items this |}
  | None => this
  end.

Definition createdOn (this : t) : option Z := _createdOn this.

(** [typeof value === "number" && value >= this._createdOn] *)
Definition set_completedOn (value : option Z) (this : t) : t :=
  match value, _createdOn this with
  | Some v, Some c =>
      if c <=? v then
        {| _id := _id this; _email := _email this; _createdOn := _createdOn this;
           _completedOn := Some v; _paymentInfo := _paymentInfo this;
           _total := _total this; _items := _items this |}
      else this
  | _, _ => this
  end.

Definition completedOn (this : t) : option Z := _completedOn this.

Definition set_email (value : option string) (this : t) : t :=
  if isValidEmail value then
    {| _id := _id this; _email := Js.trim <$> value; _createdOn := _createdOn this;
       _completedOn := _completedOn this; _paymentInfo := _paymentInfo this;
       _total := _total this; _items := _items this |}
  else this.

Definition email (this : t) : option string := Js.strOrNull (_email this).

Definition set_id (value : option string) (this : t) : t :=
  if isValidOrderId value then
    {| _id := Js.trim <$> value; _email := _email this; _createdOn := _createdOn this;
       _completedOn := _completedOn this; _paymentInfo := _paymentInfo this;
       _total := _total this; _items := _items this |}
  else this.

Definition id (this : t) : option string := Js.strOrNull (_id this).

Definition set_paymentInfo (value : option Payment) (this : t) : t :=
  {| _id := _id this; _email := _email this; _createdOn := _createdOn this;
     _completedOn := _completedOn this; _paymentInfo := value;
     _total := _total this; _items := _items this |}.

Definition paymentInfo (this : t) : option Payment := _paymentInfo this.

(** [typeof value === "number" && value >= 0] *)
Definition set_total (value : option float) (this : t) : t :=
  match value with
  | Some v =>
      if PrimFloat.leb 0 v then
        {| _id := _id this; _email := _email this; _createdOn := _createdOn this;
           _completedOn := _completedOn this; _paymentInfo := _paymentInfo this;
           _total := Some v; _items := _items this |}
      else this
  | None => this
  end.

Definition total (this : t) : option float := _total this.

(** The [items] setter: the value is kept only when every one of its keys
    is a valid item id. *)
Definition set_items (value : option (Js.Obj float)) (this : t) : t :=
  match value with
  | Some v =>
      let valid := forallb (λ key, Item.isValidId (Some key)) (Js.keys v) in
      {| _id := _id this; _email := _email this; _createdOn := _createdOn this;
         _completedOn := _completedOn this; _paymentInfo := _paymentInfo this;
         _total := _total this;
         _items := if valid then Some v else _items this |}
  | None => this
  end.

Definition items (this : t) : option (Js.Obj float) := _items this.

(** [new Order(params)]: the setters, run in the order of the
    constructor.  [Date.now()] is read only when [params.createdOn] is
    not a number; items that are not an object count as [{}]. *)
Definition new (params : OrderData) : M t :=
  let this := set_id (od_id params) blank in
  let this := set_email (od_email params) this in
  now <- match od_createdOn params with
         | Some c => ret c
         | None => Date_now
         end ;;
  let this := set_createdOn (Some now) this in
  let this :=
    set_completedOn
      (match od_completedOn params, createdOn this with
       | Some c, Some c0 => if c0 <=? c then Some c else None
       | _, _ => None
       end) this in
  let this := set_paymentInfo (od_paymentInfo params) this in
  let this :=
    set_total
      (match od_total params with
       | Some x => if PrimFloat.leb 0 x then Some x else Some 0%float
       | None => Some 0%float
       end) this in
  let this := set_items (Some (default [] (od_items params))) this in
  ret this.

Definition toJSON (this : t) : OrderData :=
  {| od_id := id this;
     od_email := email this;
     od_createdOn := createdOn this;
     od_completedOn := completedOn this;
     od_paymentInfo := paymentInfo this;
     od_total := total this;
     od_items := Some (default [] (items this)) |}.

(** The keys of the cart that are ids of catalog items:
    [if (itemIDs.indexOf(cartItem) < 0) delete cartItems[cartItem]]. *)
Definition inCatalog (catalog : list ItemData) (cartItems : Js.Obj float) : Js.Obj float :=
  let itemIDs := it_id <$> catalog in
  List.filter (λ entry, bool_decide (Some entry.1 ∈ itemIDs)) cartItems.

(** *** [Order.post(data, callback)], on [data.payload] *)
Definition post (payload : OrderData) : M Response :=
  match (if isValidEmail (od_email payload) then Js.trim <$> od_email payload else None) with
  | Some email' =>
      catalog <- Item.list ;;
      let cartItems := inCatalog catalog (default [] (od_items payload)) in
      if Nat.ltb 0 (length (Js.keys cartItems)) then
        uid <- createUniqueId ;;
        order <- new {| od_id := Some uid; od_email := Some email';
                        od_createdOn := None; od_completedOn := None;
                        od_paymentInfo := None; od_total := None;
                        od_items := Some cartItems |} ;;
        let orderData := toJSON order in
        err <- dataStore.create ordersDir (Js.template (id order)) orderData ;;
        match err with
        | None => ret (Some 200, OrderJSON orderData)
        | Some _ => ret (Some 500, ErrorMsg "Could not create the new order")
        end
      else ret (Some 400, ErrorMsg "Cannot create order. User's cart is empty")
  | None => ret (Some 400, ErrorMsg "Missing required field")
  end.

(** *** [Order.put(data, callback)], on [data.payload] *)
Definition put (payload : OrderData) : M Response :=
  match od_id payload with
  | None => silent (* [data.payload.id.trim()] throws *)
  | Some pid =>
      match (if isValidOrderId (Some (Js.trim pid)) then Some (Js.trim pid) else None) with
      | Some id' =>
          let email' :=
            if isValidEmail (od_email payload) then Js.trim <$> od_email payload else None in
          let completedOn' := od_completedOn payload in
          let paymentInfo' := od_paymentInfo payload in
          let total' := od_total payload in
          catalog <- Item.list ;;
          let cartItems := inCatalog catalog (default [] (od_items payload)) in
          if bool_decide (is_Some email')
             || from_option Js.truthyZ false completedOn'
             || bool_decide (is_Some paymentInfo')
             || from_option (PrimFloat.ltb 0) false total'
             || Nat.ltb 0 (length (Js.keys cartItems))
          then
            orderData <- dataStore.read ordersDir id' ;;
            match orderData with
            | Some orderData =>
                let orderData :=
                  {| od_id := od_id orderData;
                     od_email := if email' is Some _ then email' else od_email orderData;
                     od_createdOn := od_createdOn orderData;
                     od_completedOn :=
                       if from_option Js.truthyZ false completedOn' then completedOn'
                       else od_completedOn orderData;
                     od_paymentInfo :=
                       if paymentInfo' is Some _ then paymentInfo' else od_paymentInfo orderData;
                     od_total :=
                       if from_option Js.truthyF false total' then total'
                       else od_total orderData;
                     od_items :=
                       if Nat.ltb 0 (length (Js.keys cartItems)) then Some cartItems
                       else od_items orderData |} in
                order <- new orderData ;;
                if strictEq (id order) (Some id') then
                  err <- dataStore.update ordersDir id' (toJSON order) ;;
                  match err with
                  | None => ret (Some 200, OrderJSON (toJSON order))
                  | Some _ => ret (Some 500, ErrorMsg "Could not update the specified order.")
                  end
                else ret (Some 400, ErrorMsg "Could not update the specified order")
            | None => ret (Some 400, ErrorMsg "Specified order does not exist.")
            end
          else ret (Some 400, ErrorMsg "Missing fields to update.")
      | None => ret (Some 400, ErrorMsg "Missing required field.")
      end
  end.

(** *** Completion *)

(** The guard of [complete]:
    [this.completedOn && this.createdOn <= this.completedOn];
    the completion time when it holds. *)
Definition alreadyCompleted (this : t) : option Z :=
  match completedOn this, createdOn this with
  | Some c, Some c0 => if Js.truthyZ c && (c0 <=? c) then Some c else None
  | _, _ => None
  end.

(** The [reduce] of [complete]: catalog price times quantity, summed over
    the keys of the order that the hash-map of the catalog holds. *)
Definition totalOf (catalog : gmap string ItemData) (orderItemsMap : Js.Obj float) : float :=
  fold_left
    (λ sum entry,
       match catalog !! entry.1 with
       | Some item => (sum + Js.toNumber (it_unitPrice item) * entry.2)%float
       | None => sum
       end)
    orderItemsMap 0%float.

(** [payment.object === "charge" && payment.paid && payment.status === "succeeded"] *)
Definition succeeded (payment : Payment) : bool :=
  String.eqb (p_object payment) "charge" && p_paid payment
  && String.eqb (p_status payment) "succeeded".

(** [order.makePayment(options, callback)]: the error or the answer of
    the gateway handed to the callback. *)
Definition makePayment (this : t) (stripeToken : option string) : M (Body + Payment) :=
  match total this with
  | Some price =>
      if PrimFloat.ltb 0 price then
        let request :=
          {| amount := (price * 100)%float; currency := "USD";
             source := Js.strOr stripeToken "tok_visa" |} in
        λ w, (log_charge request w,
              Some match stripe w (length (charges w)) request with
                   | AjaxOk paymentInfo => inr paymentInfo
                   | AjaxErr => inl AjaxError
                   end)
      else ret (inl (ErrorMsg "Invalid payment amount"))
  | None => ret (inl (ErrorMsg "Invalid payment amount"))
  end.

(** [order.sendInvoice(callback)]: what [helpers.ajax] hands to the
    callback.  Rendering a line for a key the catalog does not hold
    throws. *)
Definition sendInvoice (this : t) : M (Ajax string) :=
  catalog <- Item.hashmap ;;
  match items this with
  | Some orderItemsMap =>
      if forallb (λ itemId, bool_decide (is_Some (catalog !! itemId))) (Js.keys orderItemsMap)
      then
        let request :=
          {| mail_to := email this; mail_order := id this; mail_total := total this |} in
        λ w, (log_mail request w, Some (mailgun w (length (mails w)) request))
      else silent
  | None => silent
  end.

(** What [complete] does once the charge has succeeded and the instance
    is updated: persist, then mail, then call back. *)
Definition settle (this : t) : M Response :=
  stored <- put (toJSON this) ;;
  invoice <- sendInvoice this ;;
  match invoice with
  | AjaxErr =>
      ret (stored.1, Receipt stored.2 ("Receipt mailed to " ++ Js.template (email this)))
  | AjaxOk invoice => ret (None, Text invoice)
  end.

(** [order.complete(options, callback)]: the world and the instance
    afterwards, and the response handed to the callback. *)
Definition complete (this : t) (stripeToken : option string) (w : World)
  : World * t * option Response :=
  match alreadyCompleted this with
  | Some c => (w, this, Some (Some 200, AlreadyCompleted c))
  | None =>
      match Item.hashmap w with
      | (w, None) => (w, this, None)
      | (w, Some catalog) =>
          match items this with
          | None => (w, this, None) (* [Object.keys(undefined)] throws *)
          | Some orderItemsMap =>
              let total' := totalOf catalog orderItemsMap in
              if PrimFloat.ltb 0 total' then
                let this := set_total (Some total') this in
                match makePayment this stripeToken w with
                | (w, Some (inr payment)) =>
                    if succeeded payment then
                      let this := set_paymentInfo (Some payment) this in
                      let now := clock w (ticks w) in (* [Date.now()] *)
                      let this := set_completedOn (Some now) this in
                      let '(w, response) := settle this (tick w) in
                      (w, this, response)
                    else (w, this, Some (Some 400, PaymentFailed payment))
                | (w, Some (inl err)) => (w, this, Some (Some 400, err))
                | (w, None) => (w, this, None)
                end
              else (w, this, Some (Some 400, ErrorMsg "This order contains no items."))
          end
      end
  end.

(** The reads that [Order.list] issues, one for each file, each followed
    by [new Order(orderData).toJSON()]. *)
Fixpoint load (files : Datatypes.list (string * OrderData)) : M (Datatypes.list OrderData) :=
  match files with
  | [] => ret []
  | file :: rest =>
      order <- new file.2 ;;
      others <- load rest ;;
      ret (toJSON order :: others)
  end.

(** [Order.list(callback)]: the array handed to the callback with status
    200.  Over an empty directory no read is issued, so the count that
    triggers the callback is never reached. *)
Definition list : M (Datatypes.list OrderData) :=
  data <- dataStore.list ordersDir ;;
  if Nat.eqb (length data) 0 then silent
  else load data.

(** [Order.get(data, callback)], on [data.queryParams.id]: the order, or
    all the orders when the id is missing or malformed. *)
Definition get (queryId : option string) : M Answer :=
  match (if isValidOrderId queryId then Js.trim <$> queryId else None) with
  | Some id' =>
      data <- dataStore.read ordersDir id' ;;
      match data with
      | Some data =>
          order <- new data ;;
          ret (Some 200, Plain (OrderJSON (toJSON order)))
      | None => ret (Some 404, Plain (ErrorMsg "Cannot find an order with the given ID"))
      end
  | None =>
      all <- list ;;
      ret (Some 200, OrderList all)
  end.

(** [Order.delete(data, callback)], on [data.queryParams.id] *)
Definition delete (queryId : option string) : M Response :=
  match (if isValidOrderId queryId then Js.trim <$> queryId else None) with
  | Some id' =>
      orderData <- dataStore.read ordersDir id' ;;
      match orderData with
      | Some orderData =>
          order <- new orderData ;;
          if strictEq (id order) (Some id') then
            err <- dataStore.delete ordersDir id' ;;
            match err with
            | None => ret (Some 200, OrderJSON (toJSON order))
            | Some _ => ret (Some 400, ErrorMsg "Could not delete the specified order")
            end
          else ret (Some 400, ErrorMsg "Could not find the specified order.")
      | None => ret (Some 400, ErrorMsg "Could not find the specified order.")
      end
  | None => ret (Some 400, ErrorMsg "Missing required field")
  end.

(** The fields of [data.payload] that [Order.post] and [Order.put] read. *)
Definition payloadOf (p : Payload) : OrderData :=
  {| od_id := pl_id p; od_email := pl_email p; od_createdOn := None;
     od_completedOn := pl_completedOn p; od_paymentInfo := pl_paymentInfo p;
     od_total := pl_total p; od_items := pl_items p |}.

(** [Order.httpRequestHandler(data, callback)] *)
Definition httpRequestHandler (data : Data) : M Answer :=
  let method := methodOf data in
  if String.eqb method "post" then
    match d_payload data with
    | Some p => plain (post (payloadOf p))
    | None => silent
    end
  else if String.eqb method "get" then get (d_id data)
  else if String.eqb method "put" then
    match d_payload data with
    | Some p => plain (put (payloadOf p))
    | None => silent
    end
  else if String.eqb method "delete" then plain (delete (d_id data))
  else methodNotAllowed.

End Order.

(** ** handlers/User.js *)

(** What a [User] handler reads of its [data] argument. *)
Record Request := {
  (** [data.headers.tokenid] *)
  tokenid : option string;
  (** [data.queryParams.email] *)
  query_email : option string;
  (** [data.payload], the fields of a user *)
  payload : UserData;
  (** [data.payload.stripeToken] *)
  stripeToken : option string
}.

Module User.

Record t := {
  _email : option string;
  _password : option string;
  _firstName : option string;
  _lastName : option string;
  _streetAddress : option string;
  _cart : option (Js.Obj float);
  _orders : option (list (option string))
}.

Definition isValidEmail (value : option string) : bool := helpers.isValidEmail value.

Definition isValidPassword (value : option string) : bool := helpers.isValidPassword value.

(** [typeof value === "string" ? value.trim() : ""] *)
Definition text (value : option string) : option string :=
  Some (match value with Some s => Js.trim s | None => "" end).

(** [new User(params)]: the setters, run in the order of the constructor *)
Definition new (params : UserData) : t :=
  {| _email := if Token.isValidUserId (ud_email params) then Js.trim <$> ud_email params else None;
     _password :=
       if isValidPassword (ud_password params) then Js.trim <$> ud_password params else None;
     _firstName := text (ud_firstName params);
     _lastName := text (ud_lastName params);
     _streetAddress := text (ud_streetAddress params);
     _cart := Some (default [] (ud_cart params));
     _orders := Some (default [] (ud_orders params)) |}.

Definition email (this : t) : option string := Js.strOrNull (_email this).

Definition password (this : t) : option string := Js.strOrNull (_password this).

Definition cart (this : t) : Js.Obj float := default [] (_cart this).

Definition orders (this : t) : list (option string) := default [] (_orders this).

Definition toJSON (this : t) : UserData :=
  {| ud_email := email this;
     ud_password := password this;
     ud_firstName := _firstName this;
     ud_lastName := _lastName this;
     ud_streetAddress := _streetAddress this;
     ud_cart := Some (cart this);
     ud_orders := Some (orders this) |}.

(** [delete userData.password] *)
Definition withoutPassword (userData : UserData) : UserData :=
  {| ud_email := ud_email userData;
     ud_password := None;
     ud_firstName := ud_firstName userData;
     ud_lastName := ud_lastName userData;
     ud_streetAddress := ud_streetAddress userData;
     ud_cart := ud_cart userData;
     ud_orders := ud_orders userData |}.

Definition tokenError : Response :=
  (Some 403, ErrorMsg "Missing required token in header, or token is invalid.").

(** *** [User.get(data, callback)] *)
Definition get (data : Request) : M Response :=
  match (if isValidEmail (query_email data) then Js.trim <$> query_email data else None) with
  | Some email' =>
      match (if Token.isValidTokenId (tokenid data) then Js.trim <$> tokenid data else None) with
      | Some tokenId =>
          let token :=
            Token.new {| tk_email := Some email'; tk_id := Some tokenId;
                         tk_expiration := None |} in
          tokenIsValid <- Token.isValid token ;;
          if tokenIsValid then
            doc <- dataStore.read usersDir email' ;;
            Token.extend token ;;;
            match doc with
            | Some doc => ret (Some 200, UserJSON (withoutPassword (toJSON (new doc))))
            | None => ret (Some 404, Undefined)
            end
          else ret tokenError
      | None => ret tokenError
      end
  | None => ret (Some 400, ErrorMsg "Missing required field")
  end.

(** [typeof value === "string" && value.trim().length ? value.trim() : false] *)
Definition filled (value : option string) : option string :=
  match value with
  | Some s => if Nat.ltb 0 (String.length (Js.trim s)) then Some (Js.trim s) else None
  | None => None
  end.

(** *** [User.put(data, callback)] *)
Definition put (data : Request) : M Response :=
  let p := payload data in
  let email' := if isValidEmail (ud_email p) then Js.trim <$> ud_email p else None in
  let password' := if isValidPassword (ud_password p) then Js.trim <$> ud_password p else None in
  let firstName := filled (ud_firstName p) in
  let lastName := filled (ud_lastName p) in
  let streetAddress := filled (ud_streetAddress p) in
  let cart' := ud_cart p in
  let orders' := ud_orders p in
  match email' with
  | Some email' =>
      if bool_decide (is_Some firstName) || bool_decide (is_Some lastName)
         || bool_decide (is_Some (Js.strOrNull password'))
         || bool_decide (is_Some streetAddress)
         || bool_decide (is_Some cart') || bool_decide (is_Some orders')
      then
        if Token.isValidTokenId (tokenid data) then
          let token :=
            Token.new {| tk_email := Some email'; tk_id := tokenid data;
                         tk_expiration := None |} in
          tokenIsValid <- Token.isValid token ;;
          if tokenIsValid then
            userData <- dataStore.read usersDir email' ;;
            match userData with
            | Some userData =>
                hash <- gets hmac ;;
                let userData :=
                  {| ud_email := ud_email userData;
                     ud_password :=
                       match Js.strOrNull password' with
                       | Some pw => Some (hash pw)
                       | None => ud_password userData
                       end;
                     ud_firstName :=
                       if firstName is Some _ then firstName else ud_firstName userData;
                     ud_lastName :=
                       if lastName is Some _ then lastName else ud_lastName userData;
                     ud_streetAddress :=
                       if streetAddress is Some _ then streetAddress
                       else ud_streetAddress userData;
                     ud_cart := if cart' is Some _ then cart' else ud_cart userData;
                     ud_orders := if orders' is Some _ then orders' else ud_orders userData |} in
                let user := new userData in
                if strictEq (email user) (Some email') then
                  let userData := toJSON user in
                  err <- dataStore.update usersDir email' userData ;;
                  Token.extend token ;;;
                  match err with
                  | None => ret (Some 200, UserJSON userData)
                  | Some _ => ret (Some 500, ErrorMsg "Could not update the specified user.")
                  end
                else
                  (Token.extend token ;;;
                   ret (Some 400, ErrorMsg "Could not update the specified user"))
            | None => ret (Some 400, ErrorMsg "Specified user does not exist.")
            end
          else ret tokenError
        else ret tokenError
      else ret (Some 400, ErrorMsg "Missing fields to update.")
  | None => ret (Some 400, ErrorMsg "Missing required field.")
  end.

(** *** [User.checkout(data, callback)] *)

(** Step 8, the callback handed to [order.complete]: on status 200 the
    order id is pushed on the user's orders, the cart is emptied and the
    user is stored. *)
Definition checkout_completed (data : Request) (user : t) (order : Order.t)
    (completion : Response) : M Response :=
  let '(statusCode, payment) := completion in
  if is200 statusCode then
      let orders' := (orders user ++ [Order.id order])%list in
      stored <- put {| tokenid := tokenid data;
                       query_email := None;
                       payload :=
                         {| ud_email := email user; ud_password := None;
                            ud_firstName := None; ud_lastName := None;
                            ud_streetAddress := None;
                            ud_cart := Some []; ud_orders := Some orders' |};
                       stripeToken := None |} ;;
      let '(statusCode', userData) := stored in
      if is200 statusCode' then ret (statusCode', payment)
      else ret (statusCode', userData)
  else ret (statusCode, payment).

(** Steps 5 to 7, the callback handed to [User.get].  [Order.post]
    filters the very object that is the user's cart, which is not read
    again before step 8 replaces it. *)
Definition checkout_user (data : Request) (found : Response) : M Response :=
  match found with
  | (statusCode, UserJSON userData) =>
    if is200 statusCode then
      let user := new userData in
      if Nat.ltb 0 (length (Js.keys (cart user))) then
        created <- Order.post {| od_id := None; od_email := email user;
                                 od_createdOn := None; od_completedOn := None;
                                 od_paymentInfo := None; od_total := None;
                                 od_items := Some (cart user) |} ;;
        match created with
        | (statusCode', OrderJSON orderData) =>
            if is200 statusCode' then
              order <- Order.new orderData ;;
              completion <-
                (λ w, let '(w', _, response) :=
                        Order.complete order (Some (Js.strOr (stripeToken data) "tok_visa")) w
                      in (w', response)) ;;
              checkout_completed data user order completion
            else ret created
        | _ => ret created
        end
      else ret (Some 403, ErrorMsg "Cannot create order. Cart is empty.")
    else ret found
  | _ => ret found
  end.

Definition checkout (data : Request) : M Response :=
  let p := payload data in
  match (if isValidEmail (ud_email p) then Js.trim <$> ud_email p else None) with
  | Some email' =>
      match (if Token.isValidTokenId (tokenid data) then Js.trim <$> tokenid data else None) with
      | Some tokenId =>
          let token :=
            Token.new {| tk_email := Some email'; tk_id := Some tokenId;
                         tk_expiration := None |} in
          tokenIsValid <- Token.isValid token ;;
          if tokenIsValid then
            found <- get {| tokenid := tokenid data; query_email := Some email';
                            payload := payload data; stripeToken := stripeToken data |} ;;
            Token.extend token ;;;
            checkout_user data found
          else ret tokenError
      | None => ret tokenError
      end
  | None => ret (Some 400, ErrorMsg "Missing required field")
  end.

(** *** [User.post(data, callback)], on [data.payload]

    A cart is taken over only when it is an [Array]; the dictionaries of
    the documents modelled here are not, and the new user gets [{}]. *)
Definition post (p : UserData) (tosAgreement : option bool) : M Response :=
  let email' := if isValidEmail (ud_email p) then Js.trim <$> ud_email p else None in
  let password' := if isValidPassword (ud_password p) then Js.trim <$> ud_password p else None in
  let tosAgreement := default false tosAgreement in
  let firstName := filled (ud_firstName p) in
  let lastName := filled (ud_lastName p) in
  let streetAddress := match ud_streetAddress p with Some s => Js.trim s | None => "" end in
  match firstName, lastName, email', password' with
  | Some firstName, Some lastName, Some email', Some password' =>
      if tosAgreement then
        existing <- dataStore.read usersDir email' ;;
        match existing with
        | None =>
            hashedPassword <- helpers.hash (Some password') ;;
            match Js.strOrNull hashedPassword with
            | Some hashedPassword =>
                let userData :=
                  toJSON (new {| ud_email := Some email'; ud_password := Some hashedPassword;
                                 ud_firstName := Some firstName; ud_lastName := Some lastName;
                                 ud_streetAddress := Some streetAddress;
                                 ud_cart := Some []; ud_orders := None |}) in
                err <- dataStore.create usersDir email' userData ;;
                match err with
                | None => ret (Some 200, UserJSON userData)
                | Some _ => ret (Some 500, ErrorMsg "Could not create the new user")
                end
            | None => ret (Some 500, ErrorMsg "Could not hash this user password.")
            end
        | Some _ => ret (Some 400, ErrorMsg "A user with this email already exists")
        end
      else ret (Some 400, ErrorMsg "Missing required fields")
  | _, _, _, _ => ret (Some 400, ErrorMsg "Missing required fields")
  end.

(** Step 7 of [User.delete]: one [dataStore.delete] for each order id of
    the user; the value is [deletionErrors]. *)
Fixpoint deleteOrders (userOrders : list (option string)) : M bool :=
  match userOrders with
  | [] => ret false
  | orderId :: rest =>
      err <- dataStore.delete ordersDir (Js.template orderId) ;;
      deletionErrors <- deleteOrders rest ;;
      ret (bool_decide (is_Some err) || deletionErrors)
  end.

(** *** [User.delete(data, callback)] *)
Definition delete (data : Request) : M Answer :=
  match (if isValidEmail (query_email data) then Js.trim <$> query_email data else None) with
  | Some email' =>
      if Token.isValidTokenId (tokenid data) then
        let token :=
          Token.new {| tk_email := Some email'; tk_id := tokenid data;
                       tk_expiration := None |} in
        tokenIsValid <- Token.isValid token ;;
        if tokenIsValid then
          userData <- dataStore.read usersDir email' ;;
          match userData with
          | Some userData =>
              let user := new userData in
              if strictEq (email user) (Some email') then
                loggedOut <- Token.delete (Token.id token) ;;
                if is200 loggedOut.1 then
                  err <- dataStore.delete usersDir email' ;;
                  match err with
                  | None =>
                      let userOrders := orders user in
                      if Nat.ltb 0 (length userOrders) then
                        deletionErrors <- deleteOrders userOrders ;;
                        if deletionErrors then
                          ret (Some 500, Plain (ErrorMsg "Errors encountered while deleting all of the user's orders. All orders may not have been deleted from the system successfully."))
                        else ret (Some 200, Boolean true)
                      else ret (Some 200, Plain (Text "OK"))
                  | Some _ => ret (Some 400, Plain (ErrorMsg "Could not delete the specified user"))
                  end
                else ret (loggedOut.1, Plain loggedOut.2)
              else ret (Some 400, Plain (ErrorMsg "Could not find the specified user."))
          | None => ret (Some 400, Plain (ErrorMsg "Could not find the specified user."))
          end
        else ret (Some 403, Plain (ErrorMsg "Missing required tokenId in header, or tokenId is invalid."))
      else ret (Some 403, Plain (ErrorMsg "Missing required token in header, or token is invalid."))
  | None => ret (Some 400, Plain (ErrorMsg "Missing required field"))
  end.

(** *** [User.login(data, callback)] *)
Definition login (email password : option string) : M Answer := Token.post email password.

(** *** [User.logout(data, callback)], on [data.payload.tokenId] *)
Definition logout (tokenId : option string) : M Response := Token.delete tokenId.

(** [user.email === data.payload.email] *)
Definition sameEmail (user : t) (payloadEmail : option string) : bool :=
  match payloadEmail with
  | Some _ => strictEq (email user) payloadEmail
  | None => false
  end.

(** The request that the cart handlers hand to [User.put]:
    [{ payload: { email: user.email, cart: user.cart }, headers: data.headers }] *)
Definition cartUpdate (data : Request) (user : t) (cart' : Js.Obj float) : Request :=
  {| tokenid := tokenid data;
     query_email := None;
     payload :=
       {| ud_email := email user; ud_password := None;
          ud_firstName := None; ud_lastName := None;
          ud_streetAddress := None;
          ud_cart := Some cart'; ud_orders := None |};
     stripeToken := None |}.

(** [User.get], after [data.queryParams.email = data.payload.email] *)
Definition getByPayload (data : Request) : M Response :=
  get {| tokenid := tokenid data; query_email := ud_email (payload data);
         payload := payload data; stripeToken := stripeToken data |}.

(** *** [User.addToCart(data, callback)], on [data.payload.itemId] and
    [data.payload.quantity] *)
Definition addToCart (data : Request) (itemId : option string) (quantity : option float)
  : M Response :=
  itemsData <- dataStore.list itemsDir ;;
  let itemId := if Item.isValidId itemId then default "" itemId else "" in
  let quantity := if Item.isValidPrice quantity then default 0%float quantity else 0%float in
  if bool_decide (itemId ∈ itemsData.*1) then
    found <- getByPayload data ;;
    match found with
    | (statusCode, UserJSON userData) =>
        if is200 statusCode then
          let user := new userData in
          if sameEmail user (ud_email (payload data)) then
            put (cartUpdate data user
                   (if PrimFloat.ltb 0 quantity then Js.set itemId quantity (cart user)
                    else Js.remove itemId (cart user)))
          else ret (Some 400, ErrorMsg "Could not update the specified user")
        else ret found
    | _ => ret found
    end
  else ret (Some 500, ErrorMsg "Unable to load the list of items").

(** *** [User.removeFromCart(data, callback)]: [data.payload.quantity = 0] *)
Definition removeFromCart (data : Request) (itemId : option string) : M Response :=
  addToCart data itemId (Some 0%float).

(** *** [User.emptyCart(data, callback)] *)
Definition emptyCart (data : Request) : M Response :=
  found <- getByPayload data ;;
  match found with
  | (statusCode, UserJSON userData) =>
      if is200 statusCode then
        let user := new userData in
        if sameEmail user (ud_email (payload data)) then put (cartUpdate data user [])
        else ret (Some 400, ErrorMsg "Could not update the specified user")
      else ret found
  | _ => ret found
  end.

(** The fields of [data.payload] that the [User] handlers read as those
    of a user. *)
Definition payloadOf (p : Payload) : UserData :=
  {| ud_email := pl_email p; ud_password := pl_password p;
     ud_firstName := pl_firstName p; ud_lastName := pl_lastName p;
     ud_streetAddress := pl_streetAddress p;
     ud_cart := pl_cart p; ud_orders := pl_orders p |}.

Definition noPayload : UserData :=
  {| ud_email := None; ud_password := None; ud_firstName := None; ud_lastName := None;
     ud_streetAddress := None; ud_cart := None; ud_orders := None |}.

Definition requestOf (data : Data) (p : Payload) : Request :=
  {| tokenid := d_tokenid data; query_email := d_email data;
     payload := payloadOf p; stripeToken := pl_stripeToken p |}.

(** [get] and [delete] read the headers and the query only. *)
Definition queryOf (data : Data) : Request :=
  {| tokenid := d_tokenid data; query_email := d_email data;
     payload := noPayload; stripeToken := None |}.

Definition postOnlyPaths : Datatypes.list string := ["user/login"].

Definition putOnlyPaths : Datatypes.list string :=
  ["user/logout"; "user/addToCart"; "user/removeFromCart"; "user/emptyCart"; "user/checkout"].

(** [User[path.trim().replace("user/", "").trim()](data, callback)], for
    a path of [postOnlyPaths] or [putOnlyPaths] *)
Definition action (path : string) (data : Data) (p : Payload) : M Answer :=
  if String.eqb path "user/login" then login (pl_email p) (pl_password p)
  else if String.eqb path "user/logout" then plain (logout (pl_tokenId p))
  else if String.eqb path "user/addToCart" then
    plain (addToCart (requestOf data p) (pl_itemId p) (pl_quantity p))
  else if String.eqb path "user/removeFromCart" then
    plain (removeFromCart (requestOf data p) (pl_itemId p))
  else if String.eqb path "user/emptyCart" then plain (emptyCart (requestOf data p))
  else plain (checkout (requestOf data p)).

(** [User.httpRequestHandler(data, callback)] *)
Definition httpRequestHandler (data : Data) : M Answer :=
  let method := methodOf data in
  let path := Js.trim (d_path data) in
  if String.eqb method "post" && bool_decide (path ∈ postOnlyPaths)
     || String.eqb method "put" && bool_decide (path ∈ putOnlyPaths)
  then
    match d_payload data with
    | Some p => action path data p
    | None => silent
    end
  else if String.eqb method "post" then
    match d_payload data with
    | Some p => plain (post (payloadOf p) (pl_tosAgreement p))
    | None => silent
    end
  else if String.eqb method "get" then plain (get (queryOf data))
  else if String.eqb method "put" then
    match d_payload data with
    | Some p => plain (put (requestOf data p))
    | None => silent
    end
  else if String.eqb method "delete" then delete (queryOf data)
  else methodNotAllowed.

End User.

(** ** handlers/index.js *)

Module handlers.

Definition ping : M Answer := ret (Some 200, Plain (Text "OK")).

Definition notFound : M Answer := ret (Some 404, Plain (Text "Nope")).

End handlers.

(** ** router.js *)

Module router.

(** The own properties of [routes]. *)
Definition routes : list (string * (Data → M Answer)) :=
  [ ("notFound", λ _, handlers.notFound);
    ("ping", λ _, handlers.ping);
    ("users", User.httpRequestHandler);
    ("user/login", User.httpRequestHandler);
    ("user/logout", User.httpRequestHandler);
    ("user/addToCart", User.httpRequestHandler);
    ("user/removeFromCart", User.httpRequestHandler);
    ("user/emptyCart", User.httpRequestHandler);
    ("user/checkout", User.httpRequestHandler);
    ("tokens", Token.httpRequestHandler);
    ("items", Item.httpRequestHandler);
    ("orders", Order.httpRequestHandler) ].

(** The names under which [routes], as every object, inherits a function
    of [Object.prototype]. *)
Definition inherited : list string :=
  [ "constructor"; "hasOwnProperty"; "isPrototypeOf"; "propertyIsEnumerable";
    "toLocaleString"; "toString"; "valueOf";
    "__defineGetter__"; "__defineSetter__"; "__lookupGetter__"; "__lookupSetter__" ].

End router.

(** ** server.js *)

Module server.

Fixpoint dropSlashes (s : string) : string :=
  match s with
  | String "/" rest => dropSlashes rest
  | _ => s
  end.

Fixpoint dropEndSlashes (s : string) : string :=
  match s with
  | EmptyString => EmptyString
  | String c rest =>
      match dropEndSlashes rest with
      | EmptyString => if Ascii.eqb c "/" then EmptyString else String c EmptyString
      | rest' => String c rest'
      end
  end.

(** [path.replace(/^\/+|\/+$/g, '')] *)
Definition trimmedPath (path : string) : string := dropEndSlashes (dropSlashes path).

(** [typeof router.routes[trimmedPath] === "function" ? router.routes[trimmedPath]
    : router.routes.notFound].  An inherited function is called in place
    of a handler: it does not invoke the callback, or throws. *)
Definition chosenHandler (trimmedPath : string) : Data → M Answer :=
  match Js.get trimmedPath router.routes with
  | Some handler => handler
  | None =>
      if bool_decide (trimmedPath ∈ router.inherited) then λ _, silent
      else λ _, handlers.notFound
  end.

(** What is sent back: the payload of the handler when [typeof payload]
    is ["object"], and [{}] otherwise. *)
Inductive Sent :=
| Json (payload : Reply)
| EmptyObject.

Definition isObject (payload : Reply) : bool :=
  match payload with
  | Plain Undefined | Plain (Text _) | Boolean _ => false
  | _ => true
  end.

(** [server.unifiedServer(req, res)], from the parsed request on: the
    status and the payload written to the response. *)
Definition unifiedServer (pathname method : string) (tokenid id email : option string)
    (payload : option Payload) : M (Z * Sent) :=
  let path := trimmedPath pathname in
  let data :=
    {| d_path := path; d_method := Js.toLowerCase method;
       d_tokenid := tokenid; d_id := id; d_email := email; d_payload := payload |} in
  answer <- chosenHandler path data ;;
  ret (default 200 answer.1, if isObject answer.2 then Json answer.2 else EmptyObject).

End server.

(** * Vocabulary of the properties *)

(** A string that is empty or starts with a character that [trim] keeps. *)
Definition noLeading (s : string) : Prop :=
  match s with
  | EmptyString => True
  | String c _ => Js.isWhiteSpace c = false
  end.

(** [m] never changes the component [f] of the world. *)
Definition preserves {A B} (f : World → B) (m : M A) : Prop :=
  ∀ w, f (m w).1 = f w.

(** What [new Order(params)] builds, for the creation time [now] that
    the constructor settles on: [params.createdOn] when it is a number,
    the reading of the clock otherwise. *)
Definition constructed (params : OrderData) (now : Z) : Order.t :=
  let this := Order.set_email (od_email params) (Order.set_id (od_id params) Order.blank) in
  let this := Order.set_createdOn (Some now) this in
  let this :=
    Order.set_completedOn
      (match od_completedOn params, Order.createdOn this with
       | Some c, Some c0 => if c0 <=? c then Some c else None
       | _, _ => None
       end) this in
  let this := Order.set_paymentInfo (od_paymentInfo params) this in
  let this :=
    Order.set_total
      (match od_total params with
       | Some x => if PrimFloat.leb 0 x then Some x else Some 0%float
       | None => Some 0%float
       end) this in
  Order.set_items (Some (default [] (od_items params))) this.

(** The price map that [complete] reads off the catalog hash-map. *)
Definition catalogPrice (catalog : gmap string ItemData) (itemId : string) : option float :=
  (Js.toNumber ∘ it_unitPrice) <$> (catalog !! itemId).

(** The total in the words of the specification: the sum, over the
    entries [(itemId, qty)] of the order, of [catalogPrice[itemId] * qty],
    the entries whose id the catalog does not hold being skipped. *)
Definition specTotal (price : string → option float) (orderItems : Js.Obj float) : float :=
  fold_left PrimFloat.add
    (omap (λ entry, (λ p, p * entry.2)%float <$> price entry.1) orderItems)
    0%float.

(** The request that [makePayment] sends for a total. *)
Definition chargeFor (total : float) (stripeToken : option string) : ChargeRequest :=
  {| amount := (total * 100)%float; currency := "USD";
     source := Js.strOr stripeToken "tok_visa" |}.

(** ** Sample data *)

Module Sample.

Definition item (id' name : string) (unitPrice : float) : ItemData :=
  {| it_id := Some id'; it_name := Some name; it_description := Some "";
     it_imageURL := Some ""; it_unitPrice := Some unitPrice |}.

(** A catalog of three pizzas. *)
Definition menu : gmap string ItemData :=
  {[ "pizza0000A" := item "pizza0000A" "Margherita" 10%float;
     "pizza0000B" := item "pizza0000B" "Marinara" 5%float;
     "pizza0000X" := item "pizza0000X" "Capricciosa" 7.5%float ]}.

Definition charged : Payment :=
  {| p_object := "charge"; p_paid := true; p_status := "succeeded" |}.

(** A world whose clock starts at 1000 and advances by one at each
    reading, whose payment gateway accepts every charge, and whose mail
    transport gives the same answer to every message. *)
Definition world (tokens' : gmap string TokenData) (users' : gmap string UserData)
    (items' : gmap string ItemData) (orders' : gmap string OrderData)
    (candidates' : list string) (mail : Ajax string) : World :=
  {| tokens := tokens'; users := users'; items := items'; orders := orders';
     IDs := ∅; candidates := candidates';
     clock := λ n, 1000 + Z.of_nat n; ticks := 0;
     hmac := λ s, s;
     stripe := λ _ _, AjaxOk charged; charges := [];
     mailgun := λ _ _, mail; mails := [] |}.

Definition joe : string := "joe@pizza.com".

Definition session : string := "tokentokentokentoken".

Definition token (expiration : Z) : gmap string TokenData :=
  {[ session := {| tk_email := Some joe; tk_id := Some session;
                   tk_expiration := Some expiration |} ]}.

Definition account (cart : Js.Obj float) : UserData :=
  {| ud_email := Some joe; ud_password := Some "0123456789abcdef";
     ud_firstName := Some "Joe"; ud_lastName := Some "Doe";
     ud_streetAddress := Some "1 Main St";
     ud_cart := Some cart; ud_orders := Some [] |}.

Definition user (cart : Js.Obj float) : gmap string UserData :=
  {[ joe := account cart ]}.

(** An order of two Margheritas and one Marinara, created at 1000. *)
Definition order : OrderData :=
  {| od_id := Some "k0000000orderorder01"; od_email := Some joe;
     od_createdOn := Some 1000; od_completedOn := None;
     od_paymentInfo := None; od_total := Some 0%float;
     od_items := Some [("pizza0000A", 2%float); ("pizza0000B", 1%float)] |}.

(** The same order once paid and completed at 2000. *)
Definition paidOrder : OrderData :=
  {| od_id := Some "k0000000orderorder01"; od_email := Some joe;
     od_createdOn := Some 1000; od_completedOn := Some 2000;
     od_paymentInfo := Some charged; od_total := Some 25%float;
     od_items := Some [("pizza0000A", 2%float); ("pizza0000B", 1%float)] |}.


(** The payload of a [PUT /orders] that carries nothing but a completion
    time earlier than the creation of [paidOrder]. *)
Definition forgedUpdate : OrderData :=
  {| od_id := Some "k0000000orderorder01"; od_email := None;
     od_createdOn := None; od_completedOn := Some 500;
     od_paymentInfo := None; od_total := None; od_items := None |}.

(** Two candidates of 21 characters that differ in their first character
    only: the same [Math.random()] digits after two readings of the clock
    whose base-36 numerals differ in the leading digit. *)
Definition twins : list string := ["jabcdefg0123456789xyz"; "mabcdefg0123456789xyz"].

(** The checkout request of [joe], with his session token. *)
Definition checkoutRequest (email : string) : Request :=
  {| tokenid := Some session; query_email := None;
     payload := {| ud_email := Some email; ud_password := None;
                   ud_firstName := None; ud_lastName := None;
                   ud_streetAddress := None; ud_cart := None; ud_orders := None |};
     stripeToken := None |}.

Definition ann : string := "ann@pizza.com".

Definition annAccount : UserData :=
  {| ud_email := Some ann; ud_password := Some "fedcba9876543210";
     ud_firstName := Some "Ann"; ud_lastName := Some "Lee";
     ud_streetAddress := Some "2 Main St";
     ud_cart := Some [("pizza0000B", 1%float)]; ud_orders := Some [] |}.

(** A keyed digest in the format of [helpers.hash]. *)
Definition digest (s : string) : string :=
  if String.eqb s "secret1"
  then "5e884898da28047151d0e56f8dc6292773603d0d6aabbdd62a11ef721d1542d8"
  else "0000000000000000000000000000000000000000000000000000000000000000".

(** The same world with that digest for [helpers.hash]. *)
Definition hashing (w : World) : World :=
  {| tokens := tokens w; users := users w; items := items w; orders := orders w;
     IDs := IDs w; candidates := candidates w; clock := clock w; ticks := ticks w;
     hmac := digest; stripe := stripe w; charges := charges w;
     mailgun := mailgun w; mails := mails w |}.

(** What [ann] sends to sign up. *)
Definition signup : UserData :=
  {| ud_email := Some " ann@pizza.com "; ud_password := Some "secret1";
     ud_firstName := Some "Ann"; ud_lastName := Some "Lee";
     ud_streetAddress := None;
     ud_cart := Some [("pizza0000A", 1%float)]; ud_orders := None |}.

(** A payload without any field. *)
Definition nothing : Payload :=
  {| pl_id := None; pl_email := None; pl_password := None; pl_tosAgreement := None;
     pl_firstName := None; pl_lastName := None; pl_streetAddress := None;
     pl_cart := None; pl_orders := None; pl_items := None; pl_completedOn := None;
     pl_paymentInfo := None; pl_total := None; pl_extend := None;
     pl_tokenId := None; pl_itemId := None; pl_quantity := None;
     pl_stripeToken := None |}.

End Sample.

(** ** Invariants *)

(** The completion time of an order, when set, is not earlier than its
    creation time. *)
Definition chronological (this : Order.t) : Prop :=
  match Order.completedOn this with
  | Some c => ∃ c0, Order.createdOn this = Some c0 ∧ c0 ≤ c
  | None => True
  end.

(** ** Failures *)

(** The responses by which [complete] reports that the payment failed:
    the gateway refused the charge, could not be reached, or there was
    nothing to charge. *)
Definition paymentFailure (response : Response) : Prop :=
  (∃ payment, response = (Some 400, PaymentFailed payment)) ∨
  response = (Some 400, AjaxError) ∨
  response = (Some 400, ErrorMsg "Invalid payment amount").



(** ** A mail transport that works *)

(** The mail transport accepts every invoice. *)
Definition mailAccepted (w : World) : Prop :=
  ∀ i request, ∃ reply, mailgun w i request = AjaxOk reply.

(** Under a mail transport that accepts every invoice, [m] keeps it so,
    leaves the users as they are, and hands on only values that satisfy
    [Q]. *)
Definition calm {A} (m : M A) (Q : A → Prop) : Prop :=
  ∀ w, mailAccepted w →
       mailAccepted (m w).1 ∧ users (m w).1 = users w ∧
       ∀ a, (m w).2 = Some a → Q a.

(** ** Sessions *)

(** A session that lasts for the next [readings] readings of the clock:
    the token filed under [id] carries that id and expires after each of
    them, and they lie within an hour of each other, so that a token
    extended at one of them expires after the others. *)
Definition session (readings : nat) (id : string) (w : World) : Prop :=
  (∃ doc, tokens w !! id = Some doc ∧ tk_id doc = Some id ∧
          ∀ n, (ticks w ≤ n < ticks w + readings)%nat →
               clock w n < default 0 (tk_expiration doc)) ∧
  (∀ i j, (ticks w ≤ i < ticks w + readings)%nat →
          (ticks w ≤ j < ticks w + readings)%nat →
          clock w j < clock w i + 1000 * 60 * 60).

(** ** User updates *)

(** The payload of [User.put] carries something to update. *)
Definition carriesUpdate (p : UserData) : bool :=
  bool_decide (is_Some (User.filled (ud_firstName p)))
  || bool_decide (is_Some (User.filled (ud_lastName p)))
  || bool_decide (is_Some (Js.strOrNull (if User.isValidPassword (ud_password p)
                                          then Js.trim <$> ud_password p else None)))
  || bool_decide (is_Some (User.filled (ud_streetAddress p)))
  || bool_decide (is_Some (ud_cart p)) || bool_decide (is_Some (ud_orders p)).

(** The user document that [User.put] hands to the constructor: the
    stored one, with the fields that the payload carries. *)
Definition updatedUser (hash : string → string) (p doc : UserData) : UserData :=
  {| ud_email := ud_email doc;
     ud_password :=
       match Js.strOrNull (if User.isValidPassword (ud_password p)
                           then Js.trim <$> ud_password p else None) with
       | Some pw => Some (hash pw)
       | None => ud_password doc
       end;
     ud_firstName :=
       if User.filled (ud_firstName p) is Some _ then User.filled (ud_firstName p)
       else ud_firstName doc;
     ud_lastName :=
       if User.filled (ud_lastName p) is Some _ then User.filled (ud_lastName p)
       else ud_lastName doc;
     ud_streetAddress :=
       if User.filled (ud_streetAddress p) is Some _ then User.filled (ud_streetAddress p)
       else ud_streetAddress doc;
     ud_cart := if ud_cart p is Some _ then ud_cart p else ud_cart doc;
     ud_orders := if ud_orders p is Some _ then ud_orders p else ud_orders doc |}.


(** ** Deleting a user *)




(** ** Digests *)

Definition hexDigit (c : ascii) : bool := RegExp.between 48 57 c || RegExp.between 97 102 c.

Fixpoint allHex (s : string) : bool :=
  match s with
  | EmptyString => true
  | String c rest => hexDigit c && allHex rest
  end.

(** A digest as [digest('hex')] prints it for SHA-256: 64 hexadecimal
    digits. *)
Definition isDigest (s : string) : bool := Nat.eqb (String.length s) 64 && allHex s.

(** ** Filing *)

(** Every user document is filed under its own email. *)
Definition filed (w : World) : Prop :=
  ∀ file doc, users w !! file = Some doc → ud_email doc = Some file.

(** [m] keeps the user documents filed under their email. *)
Definition tidy {A} (m : M A) : Prop := ∀ w, filed w → filed (m w).1.

(** [m] neither removes nor changes a user document. *)
Definition keepsUsers {A} (m : M A) : Prop := ∀ w, users w ⊆ users (m w).1.

(** ** Routes *)

(** The routes that [User], [Token] and [Order] serve. *)
Definition crud : list string :=
  [ "users"; "user/login"; "user/logout"; "user/addToCart"; "user/removeFromCart";
    "user/emptyCart"; "user/checkout"; "tokens"; "orders" ].

(** * Properties *)

Arguments Order.set_id : simpl never.
Arguments Order.set_email : simpl never.
Arguments Order.set_createdOn : simpl never.
Arguments Order.set_completedOn : simpl never.
Arguments Order.set_paymentInfo : simpl never.
Arguments Order.set_total : simpl never.
Arguments Order.set_items : simpl never.

(** ** Strings and numbers *)

Section JsFacts.

Lemma trimStart_noLeading s : noLeading (Js.trimStart s).
Proof.
  induction s as [|c r IH]; simpl; [exact I|].
  destruct (Js.isWhiteSpace c) eqn:E; [exact IH | exact E].
Qed.

Lemma trimStart_fixed s : noLeading s → Js.trimStart s = s.
Proof. destruct s as [|c r]; simpl; [reflexivity|]. intros ->. reflexivity. Qed.

Lemma trimEnd_noLeading s : noLeading s → noLeading (Js.trimEnd s).
Proof.
  destruct s as [|c r]; simpl; [exact id|]. intros E.
  destruct (Js.trimEnd r); rewrite ?E; exact E.
Qed.

Lemma trimEnd_idem s : Js.trimEnd (Js.trimEnd s) = Js.trimEnd s.
Proof.
  induction s as [|c r IH]; simpl; [reflexivity|].
  destruct (Js.trimEnd r) as [|d t] eqn:E.
  - destruct (Js.isWhiteSpace c) eqn:W; simpl; rewrite ?W; reflexivity.
  - change (Js.trimEnd (String c (String d t))) with
      (match Js.trimEnd (String d t) with
       | EmptyString => if Js.isWhiteSpace c then EmptyString else String c EmptyString
       | r' => String c r'
       end).
    rewrite IH. reflexivity.
Qed.

Lemma trim_idem s : Js.trim (Js.trim s) = Js.trim s.
Proof.
  unfold Js.trim.
  rewrite (trimStart_fixed (Js.trimEnd (Js.trimStart s))).
  - apply trimEnd_idem.
  - apply trimEnd_noLeading, trimStart_noLeading.
Qed.

(** [0 < x] entails [0 <= x] on binary64 numbers. *)
Lemma float_ltb_leb (x y : float) : PrimFloat.ltb x y = true → PrimFloat.leb x y = true.
Proof.
  rewrite ltb_spec, leb_spec. unfold SpecFloat.SFltb, SpecFloat.SFleb.
  destruct (SpecFloat.SFcompare _ _) as [[]|]; congruence.
Qed.

Lemma strictEq_refl a : strictEq a a = true.
Proof. apply bool_decide_eq_true_2. reflexivity. Qed.

Lemma strOrNull_nonempty s : String.length s ≠ 0%nat → Js.strOrNull (Some s) = Some s.
Proof. destruct s; [intros H; contradiction H|]; reflexivity. Qed.

End JsFacts.

(** ** Running a handler *)

Lemma bind_run {A C} (m : M A) (k : A → M C) w w' a :
  m w = (w', Some a) → bind m k w = k a w'.
Proof. unfold bind. intros ->. reflexivity. Qed.

Lemma bind_silent {A C} (m : M A) (k : A → M C) w w' :
  m w = (w', None) → bind m k w = (w', None).
Proof. unfold bind. intros ->. reflexivity. Qed.

(** ** The catalog *)

Lemma Item_hashmap_eq w :
  Item.hashmap w =
  if Nat.eqb (length (map_to_list (items w))) 0 then (w, None)
  else (w, Some ((λ doc, Item.toJSON (Item.new doc)) <$> items w)).
Proof.
  unfold Item.hashmap, bind, dataStore.list. simpl.
  destruct (Nat.eqb _ _); reflexivity.
Qed.


(** Over a catalog that holds an item, both readings call back. *)
Lemma Item_hashmap_nonempty w :
  items w ≠ ∅ →
  Item.hashmap w = (w, Some ((λ doc, Item.toJSON (Item.new doc)) <$> items w)).
Proof.
  intros Hne. rewrite Item_hashmap_eq.
  destruct (map_to_list (items w)) eqn:E; [|reflexivity].
  apply map_to_list_empty_iff in E. contradiction.
Qed.



(** ** What a handler leaves alone *)

Section Frame.
Context {B : Type} (f : World → B).

Lemma preserves_ret {A} (a : A) : preserves f (ret a).
Proof. intros w. reflexivity. Qed.

Lemma preserves_silent {A} : preserves f (@silent A).
Proof. intros w. reflexivity. Qed.

Lemma preserves_gets {A} (g : World → A) : preserves f (gets g).
Proof. intros w. reflexivity. Qed.

Lemma preserves_bind {A C} (m : M A) (k : A → M C) :
  preserves f m → (∀ a, preserves f (k a)) → preserves f (bind m k).
Proof.
  intros Hm Hk w. unfold bind. specialize (Hm w).
  destruct (m w) as [w' [a|]]; simpl in *; [|exact Hm].
  rewrite Hk. exact Hm.
Qed.

Lemma preserves_forget {A} (m : M A) : preserves f m → preserves f (forget m).
Proof. intros Hm w. apply Hm. Qed.

Lemma preserves_now : (∀ w, f (tick w) = f w) → preserves f Date_now.
Proof. intros H w. apply H. Qed.

Section Store.
Context {A : Type} (dir : dataStore.Dir A).
Hypothesis other : ∀ d w, f (dataStore.replace dir d w) = f w.

Lemma preserves_read file : preserves f (dataStore.read dir file).
Proof. intros w. reflexivity. Qed.

Lemma preserves_list : preserves f (dataStore.list dir).
Proof. intros w. reflexivity. Qed.

Lemma preserves_create file data : preserves f (dataStore.create dir file data).
Proof.
  intros w. unfold dataStore.create.
  destruct (dataStore.contents dir w !! file); simpl; [reflexivity | apply other].
Qed.

Lemma preserves_update file data : preserves f (dataStore.update dir file data).
Proof.
  intros w. unfold dataStore.update.
  destruct (dataStore.contents dir w !! file); simpl; [apply other | reflexivity].
Qed.

Lemma preserves_delete file : preserves f (dataStore.delete dir file).
Proof.
  intros w. unfold dataStore.delete.
  destruct (dataStore.contents dir w !! file); simpl; [apply other | reflexivity].
Qed.
End Store.

Lemma preserves_createRandomString n :
  (∀ ids cands w, f (set_registry ids cands w) = f w) →
  preserves f (helpers.createRandomString n).
Proof.
  intros H w. unfold helpers.createRandomString.
  destruct (helpers.draw _ _) as [[sId rest]|]; simpl; apply H.
Qed.

End Frame.

(** Splits a frame goal along the structure of the handler. *)
Ltac frame_step :=
  lazymatch goal with
  | |- preserves _ (bind _ _) => apply preserves_bind; [|intros]
  | |- preserves _ (ret _) => apply preserves_ret
  | |- preserves _ silent => apply preserves_silent
  | |- preserves _ (gets _) => apply preserves_gets
  | |- preserves _ (forget _) => apply preserves_forget
  | |- preserves _ Date_now => apply preserves_now; intros; reflexivity
  | |- preserves _ (dataStore.read _ _) => apply preserves_read
  | |- preserves _ (dataStore.list _) => apply preserves_list
  | |- preserves _ (dataStore.create _ _ _) => apply preserves_create; intros; reflexivity
  | |- preserves _ (dataStore.update _ _ _) => apply preserves_update; intros; reflexivity
  | |- preserves _ (dataStore.delete _ _) => apply preserves_delete; intros; reflexivity
  | |- preserves _ (helpers.createRandomString _) =>
      apply preserves_createRandomString; intros; reflexivity
  | |- preserves _ (match ?x with _ => _ end) => destruct x
  | |- preserves _ (let (_, _) := ?x in _) => destruct x
  end.

Ltac frame := repeat frame_step.

Section TokenFrame.
Context {B : Type} (f : World → B).
Hypothesis no_tokens : ∀ d w, f (set_tokens d w) = f w.
Hypothesis no_clock : ∀ w, f (tick w) = f w.

Lemma preserves_Token_delete queryId : preserves f (Token.delete queryId).
Proof.
  unfold Token.delete. frame.
  all: try (apply preserves_delete; intros; apply no_tokens).
Qed.

Lemma preserves_Token_put payloadId extend : preserves f (Token.put payloadId extend).
Proof.
  unfold Token.put. frame.
  all: try (apply preserves_now, no_clock).
  all: try (apply preserves_update; intros; apply no_tokens).
  all: try (apply preserves_delete; intros; apply no_tokens).
Qed.

Lemma preserves_Token_isValid this : preserves f (Token.isValid this).
Proof.
  unfold Token.isValid, Token.delete_. frame.
  all: try (apply preserves_now, no_clock).
  all: try apply preserves_Token_delete.
Qed.

Lemma preserves_Token_extend this : preserves f (Token.extend this).
Proof. unfold Token.extend. frame. apply preserves_Token_put. Qed.

End TokenFrame.

Section HandlerFrame.
Context {B : Type} (f : World → B).

Lemma preserves_Item_list : preserves f Item.list.
Proof. unfold Item.list. frame. Qed.

Lemma preserves_Item_hashmap : preserves f Item.hashmap.
Proof. unfold Item.hashmap. frame. Qed.

Lemma preserves_Order_new params : (∀ w, f (tick w) = f w) → preserves f (Order.new params).
Proof. intros H. unfold Order.new. frame. apply preserves_now, H. Qed.

Lemma preserves_Order_put payload :
  (∀ w, f (tick w) = f w) → (∀ d w, f (set_orders d w) = f w) →
  preserves f (Order.put payload).
Proof.
  intros Hc Ho. unfold Order.put. frame.
  all: try apply preserves_Item_list.
  all: try (apply preserves_Order_new, Hc).
  all: try (apply preserves_update; intros; apply Ho).
Qed.

Lemma preserves_Order_sendInvoice this :
  (∀ r w, f (log_mail r w) = f w) → preserves f (Order.sendInvoice this).
Proof.
  intros Hm. unfold Order.sendInvoice. frame.
  all: try apply preserves_Item_hashmap.
  intros w. apply Hm.
Qed.

Lemma preserves_Order_makePayment this stripeToken :
  (∀ r w, f (log_charge r w) = f w) → preserves f (Order.makePayment this stripeToken).
Proof.
  intros Hm. unfold Order.makePayment. frame.
  intros w. apply Hm.
Qed.

Lemma preserves_Order_settle this :
  (∀ w, f (tick w) = f w) → (∀ d w, f (set_orders d w) = f w) →
  (∀ r w, f (log_mail r w) = f w) →
  preserves f (Order.settle this).
Proof.
  intros Hc Ho Hm. unfold Order.settle. frame.
  - apply preserves_Order_put; assumption.
  - apply preserves_Order_sendInvoice; assumption.
Qed.

Lemma preserves_User_get data :
  (∀ w, f (tick w) = f w) → (∀ d w, f (set_tokens d w) = f w) →
  preserves f (User.get data).
Proof.
  intros Hc Ht. unfold User.get. frame.
  all: try (apply preserves_Token_isValid; assumption).
  all: try (apply preserves_Token_extend; assumption).
Qed.


End HandlerFrame.

Lemma preserves_Order_post {B} (f : World → B) payload :
  (∀ w, f (tick w) = f w) → (∀ d w, f (set_orders d w) = f w) →
  (∀ ids cands w, f (set_registry ids cands w) = f w) →
  preserves f (Order.post payload).
Proof.
  intros Hc Ho Hr. unfold Order.post, Order.createUniqueId. frame.
  all: try apply preserves_Item_list.
  all: try (apply preserves_createRandomString, Hr).
  all: try (apply preserves_Order_new, Hc).
  all: try (apply preserves_create; intros; apply Ho).
Qed.

Lemma complete_frame {B} (f : World → B) this stripeToken w :
  (∀ w, f (tick w) = f w) → (∀ d w, f (set_orders d w) = f w) →
  (∀ r w, f (log_mail r w) = f w) → (∀ r w, f (log_charge r w) = f w) →
  f (Order.complete this stripeToken w).1.1 = f w.
Proof.
  intros Hc Ho Hm Hg. unfold Order.complete.
  destruct (Order.alreadyCompleted this); [reflexivity|].
  rewrite Item_hashmap_eq. destruct (Nat.eqb _ _); [reflexivity|].
  destruct (Order.items this) as [orderItems|]; [|reflexivity].
  destruct (PrimFloat.ltb 0 _); [|reflexivity].
  pose proof (preserves_Order_makePayment f
                (Order.set_total
                   (Some (Order.totalOf ((λ doc, Item.toJSON (Item.new doc)) <$> items w)
                            orderItems)) this) stripeToken Hg w) as Hpay.
  destruct (Order.makePayment _ _ _) as [w2 [[err|payment]|]]; simpl in *; try exact Hpay.
  destruct (Order.succeeded payment); simpl; [|exact Hpay].
  pose proof (preserves_Order_settle f
                (Order.set_completedOn (Some (clock w2 (ticks w2)))
                   (Order.set_paymentInfo (Some payment)
                      (Order.set_total
                         (Some (Order.totalOf
                                  ((λ doc, Item.toJSON (Item.new doc)) <$> items w)
                                  orderItems)) this)))
                Hc Ho Hm (tick w2)) as Hsettle.
  destruct (Order.settle _ _) as [w3 response]. simpl in *.
  rewrite Hsettle, Hc. exact Hpay.
Qed.

(** ** The fields of an order *)

(** What the setters leave alone. *)
Ltac setter :=
  intros;
  unfold Order.set_id, Order.set_email, Order.set_createdOn, Order.set_completedOn,
    Order.set_paymentInfo, Order.set_total, Order.set_items,
    Order.id, Order.createdOn, Order.completedOn, Order.total, Order.items;
  repeat match goal with
         | |- context [match ?x with _ => _ end] => destruct x eqn:?
         end;
  simpl; congruence.

Lemma completedOn_set_id v this :
  Order.completedOn (Order.set_id v this) = Order.completedOn this.
Proof. setter. Qed.

Lemma completedOn_set_email v this :
  Order.completedOn (Order.set_email v this) = Order.completedOn this.
Proof. setter. Qed.

Lemma completedOn_set_createdOn v this :
  Order.completedOn (Order.set_createdOn v this) = Order.completedOn this.
Proof. setter. Qed.

Lemma completedOn_set_paymentInfo v this :
  Order.completedOn (Order.set_paymentInfo v this) = Order.completedOn this.
Proof. setter. Qed.

Lemma completedOn_set_total v this :
  Order.completedOn (Order.set_total v this) = Order.completedOn this.
Proof. setter. Qed.

Lemma completedOn_set_items v this :
  Order.completedOn (Order.set_items v this) = Order.completedOn this.
Proof. setter. Qed.

Lemma id_set_email v this : Order.id (Order.set_email v this) = Order.id this.
Proof. setter. Qed.

Lemma id_set_createdOn v this : Order.id (Order.set_createdOn v this) = Order.id this.
Proof. setter. Qed.

Lemma id_set_completedOn v this : Order.id (Order.set_completedOn v this) = Order.id this.
Proof. setter. Qed.

Lemma id_set_paymentInfo v this : Order.id (Order.set_paymentInfo v this) = Order.id this.
Proof. setter. Qed.

Lemma id_set_total v this : Order.id (Order.set_total v this) = Order.id this.
Proof. setter. Qed.

Lemma id_set_items v this : Order.id (Order.set_items v this) = Order.id this.
Proof. setter. Qed.

Lemma items_set_id v this : Order.items (Order.set_id v this) = Order.items this.
Proof. setter. Qed.

Lemma items_set_email v this : Order.items (Order.set_email v this) = Order.items this.
Proof. setter. Qed.

Lemma items_set_createdOn v this :
  Order.items (Order.set_createdOn v this) = Order.items this.
Proof. setter. Qed.

Lemma items_set_completedOn v this :
  Order.items (Order.set_completedOn v this) = Order.items this.
Proof. setter. Qed.

Lemma items_set_paymentInfo v this :
  Order.items (Order.set_paymentInfo v this) = Order.items this.
Proof. setter. Qed.

Lemma items_set_total v this : Order.items (Order.set_total v this) = Order.items this.
Proof. setter. Qed.

Lemma total_set_completedOn v this :
  Order.total (Order.set_completedOn v this) = Order.total this.
Proof. setter. Qed.

Lemma createdOn_set_total v this :
  Order.createdOn (Order.set_total v this) = Order.createdOn this.
Proof. setter. Qed.

Lemma createdOn_set_paymentInfo v this :
  Order.createdOn (Order.set_paymentInfo v this) = Order.createdOn this.
Proof. setter. Qed.

Lemma createdOn_set_completedOn v this :
  Order.createdOn (Order.set_completedOn v this) = Order.createdOn this.
Proof. setter. Qed.

Lemma createdOn_set_items v this :
  Order.createdOn (Order.set_items v this) = Order.createdOn this.
Proof. setter. Qed.

Lemma total_set_total v this :
  PrimFloat.leb 0 v = true → Order.total (Order.set_total (Some v) this) = Some v.
Proof. unfold Order.set_total. intros ->. reflexivity. Qed.

(** [new Order(params)] reads the clock only for a document without a
    creation time. *)
Lemma Order_new_eq params w :
  Order.new params w =
  match od_createdOn params with
  | Some c => (w, Some (constructed params c))
  | None => (tick w, Some (constructed params (clock w (ticks w))))
  end.
Proof. unfold Order.new, constructed. destruct (od_createdOn params); reflexivity. Qed.

Lemma createdOn_of_constructed params now :
  Order.createdOn (constructed params now) = Some now.
Proof.
  unfold constructed.
  rewrite createdOn_set_items, createdOn_set_total, createdOn_set_paymentInfo,
    createdOn_set_completedOn.
  reflexivity.
Qed.

(** The completion time that the constructor settles on. *)
Lemma completedOn_of_constructed params now :
  Order.completedOn (constructed params now) =
  match od_completedOn params with
  | Some c => if now <=? c then Some c else None
  | None => None
  end.
Proof.
  unfold constructed.
  rewrite completedOn_set_items, completedOn_set_total, completedOn_set_paymentInfo.
  set (this := Order.set_createdOn (Some now) _).
  assert (Hcreated : Order.createdOn this = Some now) by reflexivity.
  assert (Hnone : Order.completedOn this = None).
  { unfold this. rewrite completedOn_set_createdOn, completedOn_set_email, completedOn_set_id.
    reflexivity. }
  rewrite Hcreated.
  destruct (od_completedOn params) as [c|]; [|exact Hnone].
  destruct (now <=? c) eqn:E; [|exact Hnone].
  unfold Order.set_completedOn. unfold Order.createdOn in Hcreated. rewrite Hcreated, E.
  reflexivity.
Qed.

Lemma id_of_constructed params now raw :
  od_id params = Some raw → Order.isValidOrderId (Some raw) = true →
  Order.id (constructed params now) = Some (Js.trim raw).
Proof.
  intros Hid Hvalid.
  assert (Hlen : String.length (Js.trim raw) = 20%nat) by apply Nat.eqb_eq, Hvalid.
  unfold constructed.
  rewrite id_set_items, id_set_total, id_set_paymentInfo, id_set_completedOn,
    id_set_createdOn, id_set_email.
  unfold Order.set_id. rewrite Hid, Hvalid. unfold Order.id. cbn [Order._id fmap option_fmap option_map].
  apply strOrNull_nonempty. rewrite Hlen. discriminate.
Qed.

(** An order that the constructor builds from a document without a
    completion time passes the guard of [complete]. *)
Lemma constructed_not_completed params now :
  od_completedOn params = None → Order.alreadyCompleted (constructed params now) = None.
Proof.
  intros Hnone. unfold Order.alreadyCompleted.
  rewrite completedOn_of_constructed, Hnone. reflexivity.
Qed.

(** ** Unique identifiers *)

(** The loop of [createRandomString] ends on a candidate that is not in
    the registry and has 21 characters. *)
Lemma draw_fresh ids cands sId rest :
  helpers.draw ids cands = Some (sId, rest) → (sId ∉ ids) ∧ String.length sId = 21%nat.
Proof.
  induction cands as [|c cs IH]; simpl; [discriminate|].
  destruct (bool_decide (c ∈ ids)) eqn:Hin; simpl; [exact IH|].
  destruct (Nat.eqb (String.length c) 21) eqn:Hlen; simpl; [|exact IH].
  intros [= -> ->]. split.
  - apply bool_decide_eq_false in Hin. exact Hin.
  - apply Nat.eqb_eq, Hlen.
Qed.

(** The loop ends as soon as such a candidate is among those to come. *)
Lemma draw_terminates ids cands sId :
  sId ∈ cands → sId ∉ ids → String.length sId = 21%nat →
  is_Some (helpers.draw ids cands).
Proof.
  intros Hin Hfresh Hlen. induction cands as [|c cs IH]; [inversion Hin|].
  simpl. destruct (bool_decide (c ∈ ids)) eqn:Hc; simpl.
  - apply IH. apply elem_of_cons in Hin as [->|Hin]; [|exact Hin].
    apply bool_decide_eq_true in Hc. contradiction.
  - destruct (Nat.eqb (String.length c) 21) eqn:Hl; simpl; [eauto|].
    apply IH. apply elem_of_cons in Hin as [->|Hin]; [|exact Hin].
    rewrite Hlen in Hl. discriminate.
Qed.

(** X4.  What the registry guarantees: the 21-character candidate behind
    a returned identifier was never accepted before, and is recorded. *)
Lemma createRandomString_registers n w w' s :
  helpers.createRandomString n w = (w', Some s) →
  ∃ sId, (sId ∉ IDs w) ∧ IDs w' = {[ sId ]} ∪ IDs w ∧ String.length sId = 21%nat ∧
         ∃ k, s = Js.substr k sId.
Proof.
  unfold helpers.createRandomString.
  destruct (helpers.draw (IDs w) (candidates w)) as [[sId rest]|] eqn:Hdraw; [|discriminate].
  intros [= <- <-]. apply draw_fresh in Hdraw as [Hfresh Hlen].
  exists sId. repeat split; eauto.
Qed.

Lemma createRandomString_registers_witness :
  let w := Sample.world ∅ ∅ Sample.menu ∅ Sample.twins AjaxErr in
  ∃ sId, (sId ∉ IDs w) ∧ IDs (helpers.createRandomString 20 w).1 = {[ sId ]} ∪ IDs w ∧
         String.length sId = 21%nat ∧ ∃ k, "abcdefg0123456789xyz" = Js.substr k sId.
Proof.
  intros w.
  apply (createRandomString_registers 20 w (helpers.createRandomString 20 w).1
           "abcdefg0123456789xyz").
  vm_compute. reflexivity.
Defined.

(** X7.  The loop of [createRandomString] ends, and the identifier is handed
    over, as soon as a candidate of 21 characters that the registry does
    not hold is among the candidates to come. *)
Theorem createRandomString_answers (n : nat) (w : World) (sId : string) :
  sId ∈ candidates w → sId ∉ IDs w → String.length sId = 21%nat →
  is_Some (helpers.createRandomString n w).2.
Proof.
  intros Hin Hfresh Hlen. unfold helpers.createRandomString.
  destruct (draw_terminates (IDs w) (candidates w) sId Hin Hfresh Hlen) as [[s rest] ->].
  simpl. eauto.
Qed.

Lemma createRandomString_answers_witness :
  let w := Sample.world ∅ ∅ Sample.menu ∅ ("short" :: Sample.twins) AjaxErr in
  is_Some (helpers.createRandomString 20 w).2.
Proof.
  intros w. apply (createRandomString_answers 20 w "jabcdefg0123456789xyz").
  - apply list_elem_of_In. simpl. right. left. reflexivity.
  - vm_compute. set_solver.
  - reflexivity.
Defined.

(** C9.  The registry holds the 21-character candidates, while an order
    identifier is the last 20 characters of one: on two candidates that
    differ in their first character only, two calls of
    [Order.createUniqueId] in the same process return the same
    identifier. *)
Theorem createUniqueId_repeats_an_identifier :
  let w := Sample.world ∅ ∅ Sample.menu ∅ Sample.twins AjaxErr in
  (Order.createUniqueId w).2 = Some "abcdefg0123456789xyz" ∧
  (Order.createUniqueId (Order.createUniqueId w).1).2 = Some "abcdefg0123456789xyz".
Proof. vm_compute. split; reflexivity. Qed.

(** ** The items of an order *)

Lemma set_items_invalid (this : Order.t) (value : Js.Obj float) :
  forallb (λ key, Item.isValidId (Some key)) (Js.keys value) = false →
  Order.set_items (Some value) this = this.
Proof. unfold Order.set_items. intros ->. destruct this; reflexivity. Qed.

Lemma set_items_valid (this : Order.t) (value its : Js.Obj float) :
  Order.items (Order.set_items (Some value) this) = Some its →
  Order.items this = Some its ∨
  (its = value ∧ ∀ key, key ∈ Js.keys value → helpers.isValidItemId (Some key) = true).
Proof.
  unfold Order.set_items, Order.items. simpl.
  destruct (forallb _ _) eqn:E; [|left; assumption].
  intros [= <-]. right. split; [reflexivity|].
  intros key Hkey. rewrite forallb_forall in E.
  apply E, list_elem_of_In, Hkey.
Qed.

(** C10.  Assigning to [items] a mapping one of whose keys fails the
    10-character item-id check leaves the order as it was: the whole
    assignment is discarded, not the offending keys only.  Hence the keys
    of the items of an order that the constructor has built are all valid
    item ids. *)
Theorem items_assignment_is_atomic :
  (∀ (this : Order.t) (value : Js.Obj float) (key : string),
      key ∈ Js.keys value → helpers.isValidItemId (Some key) = false →
      Order.set_items (Some value) this = this) ∧
  (∀ (params : OrderData) (w w' : World) (this : Order.t) (its : Js.Obj float),
      Order.new params w = (w', Some this) → Order.items this = Some its →
      ∀ key, key ∈ Js.keys its → helpers.isValidItemId (Some key) = true).
Proof.
  split.
  - intros this value key Hin Hbad. apply set_items_invalid.
    apply not_true_is_false. intros Hall. rewrite forallb_forall in Hall.
    apply list_elem_of_In, Hall in Hin. unfold Item.isValidId in Hin. congruence.
  - intros params w w' this its Hnew Hits.
    assert (∃ now, this = constructed params now) as [now ->].
    { rewrite Order_new_eq in Hnew. destruct (od_createdOn params); inversion Hnew; eauto. }
    unfold constructed in Hits. apply set_items_valid in Hits as [Hits | [-> Hok]].
    + rewrite items_set_total, items_set_paymentInfo, items_set_completedOn,
        items_set_createdOn, items_set_email, items_set_id in Hits.
      discriminate Hits.
    + exact Hok.
Qed.

Lemma items_assignment_is_atomic_witness :
  Order.set_items (Some [("margherita", 1%float); ("x", 2%float)]) Order.blank = Order.blank.
Proof.
  apply (proj1 items_assignment_is_atomic _ _ "x").
  - apply list_elem_of_In. simpl. right. left. reflexivity.
  - reflexivity.
Defined.

(** ** Completion time *)

Lemma set_completedOn_earlier (this : Order.t) (c0 v : Z) :
  Order.createdOn this = Some c0 → v < c0 →
  Order.set_completedOn (Some v) this = this.
Proof.
  unfold Order.set_completedOn, Order.createdOn. intros -> Hlt.
  destruct (c0 <=? v) eqn:E; [lia | reflexivity].
Qed.

Lemma chronological_set_completedOn v this :
  chronological this → chronological (Order.set_completedOn v this).
Proof.
  unfold chronological, Order.set_completedOn, Order.completedOn, Order.createdOn.
  intros H. destruct v as [v|]; [|exact H].
  destruct (Order._createdOn this) as [c0|] eqn:Hc; [|rewrite Hc; exact H].
  destruct (c0 <=? v) eqn:E; [|rewrite Hc; exact H].
  simpl. exists c0. split; [reflexivity | lia].
Qed.

Lemma chronological_constructed params now : chronological (constructed params now).
Proof.
  unfold chronological.
  rewrite completedOn_of_constructed, createdOn_of_constructed.
  destruct (od_completedOn params) as [c|]; [|exact I].
  destruct (now <=? c) eqn:E; [|exact I].
  exists now. split; [reflexivity | lia].
Qed.

Lemma chronological_set_total v this :
  chronological this → chronological (Order.set_total v this).
Proof.
  unfold Order.set_total. destruct v as [v|]; [|exact id].
  destruct (PrimFloat.leb 0 v); exact id.
Qed.

Lemma chronological_set_paymentInfo v this :
  chronological this → chronological (Order.set_paymentInfo v this).
Proof. exact id. Qed.

Lemma chronological_complete this stripeToken w :
  chronological this → chronological (Order.complete this stripeToken w).1.2.
Proof.
  intros H. unfold Order.complete.
  destruct (Order.alreadyCompleted this); [exact H|].
  destruct (Item.hashmap w) as [w1 [catalog|]]; [|exact H].
  destruct (Order.items this) as [orderItems|]; [|exact H].
  destruct (PrimFloat.ltb 0 _); [|exact H].
  destruct (Order.makePayment _ _ _) as [w2 [[err|payment]|]]; simpl;
    try (apply chronological_set_total, H).
  destruct (Order.succeeded payment); simpl; [|apply chronological_set_total, H].
  destruct (Order.settle _ _) as [w3 response]. simpl.
  apply chronological_set_completedOn, chronological_set_paymentInfo,
    chronological_set_total, H.
Qed.

(** X3.  The completion time of an order is never earlier than its creation
    time: the constructor establishes it, the [completedOn] setter and
    [complete] keep it, and the setter ignores an earlier time. *)
Theorem completion_time_is_chronological :
  (∀ params now, chronological (constructed params now)) ∧
  (∀ this v, chronological this → chronological (Order.set_completedOn v this)) ∧
  (∀ this stripeToken w,
      chronological this → chronological (Order.complete this stripeToken w).1.2) ∧
  (∀ this c0 v,
      Order.createdOn this = Some c0 → v < c0 →
      Order.set_completedOn (Some v) this = this).
Proof.
  split; [exact chronological_constructed|].
  split; [intros this v; apply chronological_set_completedOn|].
  split; [exact chronological_complete|].
  exact set_completedOn_earlier.
Qed.

Lemma completion_time_is_chronological_witness :
  let this := constructed Sample.paidOrder 1000 in
  Order.set_completedOn (Some 500) this = this ∧
  chronological (Order.set_completedOn (Some 3000) this).
Proof.
  intros this.
  destruct completion_time_is_chronological as [Hnew [Hset [_ Hearlier]]]. split.
  - apply (Hearlier this 1000 500); [vm_compute; reflexivity | lia].
  - apply Hset, Hnew.
Defined.



(** C6.  An update that carries a completion time earlier than the
    creation time does not leave the stored completion time as it was:
    [Order.put] on a completed order answers 200 and stores the order
    without any completion time. *)
Theorem put_with_earlier_completedOn_erases_completion :
  let file := "k0000000orderorder01" in
  let w := Sample.world ∅ ∅ Sample.menu {[ file := Sample.paidOrder ]} [] AjaxErr in
  od_completedOn <$> (orders w !! file) = Some (Some 2000) ∧
  (∃ answer, (Order.put Sample.forgedUpdate w).2 = Some (Some 200, answer)) ∧
  od_completedOn <$> (orders (Order.put Sample.forgedUpdate w).1 !! file) = Some None.
Proof. vm_compute. split; [reflexivity|]. split; [eexists|]; reflexivity. Qed.

(** ** The total of an order and the amount charged *)

Lemma totalOf_from catalog orderItems (start : float) :
  fold_left
    (λ sum entry,
       match catalog !! entry.1 with
       | Some item => (sum + Js.toNumber (it_unitPrice item) * entry.2)%float
       | None => sum
       end) orderItems start =
  fold_left PrimFloat.add
    (omap (λ entry, (λ p, p * entry.2)%float <$> catalogPrice catalog entry.1) orderItems)
    start.
Proof.
  revert start. induction orderItems as [|[itemId qty] rest IH]; intros start; [reflexivity|].
  simpl. unfold catalogPrice at 1. simpl.
  destruct (catalog !! itemId) as [item|]; simpl; apply IH.
Qed.

Lemma totalOf_spec catalog orderItems :
  Order.totalOf catalog orderItems = specTotal (catalogPrice catalog) orderItems.
Proof. apply totalOf_from. Qed.

(** [complete], past its guard, on an order whose total is positive. *)
Lemma complete_charges this stripeToken w catalog orderItems :
  Order.alreadyCompleted this = None →
  Item.hashmap w = (w, Some catalog) →
  Order.items this = Some orderItems →
  let total := Order.totalOf catalog orderItems in
  PrimFloat.ltb 0 total = true →
  let paid := Order.set_total (Some total) this in
  let request := chargeFor total stripeToken in
  let w1 := log_charge request w in
  Order.complete this stripeToken w =
  match stripe w (length (charges w)) request with
  | AjaxOk payment =>
      if Order.succeeded payment then
        let done :=
          Order.set_completedOn (Some (clock w (ticks w)))
            (Order.set_paymentInfo (Some payment) paid) in
        ((Order.settle done (tick w1)).1, done, (Order.settle done (tick w1)).2)
      else (w1, paid, Some (Some 400, PaymentFailed payment))
  | AjaxErr => (w1, paid, Some (Some 400, AjaxError))
  end.
Proof.
  intros Hguard Hcat Hitems total Hpos paid request w1.
  unfold Order.complete. rewrite Hguard, Hcat, Hitems.
  fold total. rewrite Hpos. fold paid.
  unfold Order.makePayment. unfold paid at 1.
  rewrite total_set_total by (apply float_ltb_leb, Hpos).
  rewrite Hpos. subst request w1. unfold chargeFor.
  destruct (stripe w (length (charges w)) _) as [payment|]; [|reflexivity].
  destruct (Order.succeeded payment); [|reflexivity].
  simpl. destruct (Order.settle _ _) as [w2 r]. reflexivity.
Qed.

(** C2.  Past the guard, the total that [complete] computes is the sum
    over the entries of the order of catalog price times quantity, the
    ids that the catalog hash-map does not hold being skipped; when it is
    positive it becomes the total of the order, and the one request that
    the payment gateway receives carries exactly that total times 100. *)
Theorem total_is_sum_and_charge_is_total_times_100
    (this : Order.t) (stripeToken : option string) (w : World)
    (catalog : gmap string ItemData) (orderItems : Js.Obj float) :
  Order.alreadyCompleted this = None →
  Item.hashmap w = (w, Some catalog) →
  Order.items this = Some orderItems →
  let total := specTotal (catalogPrice catalog) orderItems in
  Order.totalOf catalog orderItems = total ∧
  (PrimFloat.ltb 0 total = true →
   ∀ w' this' response,
     Order.complete this stripeToken w = (w', this', response) →
     Order.total this' = Some total ∧
     charges w' =
       (charges w ++ [ {| amount := (total * 100)%float; currency := "USD";
                          source := Js.strOr stripeToken "tok_visa" |} ])%list).
Proof.
  intros Hguard Hcat Hitems total. split; [apply totalOf_spec|].
  intros Hpos w' this' response Hrun.
  unfold total in *. rewrite <- totalOf_spec in *.
  rewrite (complete_charges this stripeToken w catalog orderItems Hguard Hcat Hitems Hpos)
    in Hrun.
  pose proof (float_ltb_leb _ _ Hpos) as Hle.
  destruct (stripe w _ _) as [payment|].
  - destruct (Order.succeeded payment).
    + cbv zeta in Hrun. inversion Hrun; subst; clear Hrun. split.
      * rewrite total_set_completedOn. simpl. apply total_set_total, Hle.
      * rewrite (preserves_Order_settle charges) by (intros; reflexivity). reflexivity.
    + inversion Hrun; subst. split; [apply total_set_total, Hle | reflexivity].
  - inversion Hrun; subst. split; [apply total_set_total, Hle | reflexivity].
Qed.

Lemma total_is_sum_and_charge_is_total_times_100_witness :
  let w := Sample.world ∅ ∅ Sample.menu ∅ [] AjaxErr in
  let this := constructed Sample.order 1000 in
  Order.totalOf ((λ doc, Item.toJSON (Item.new doc)) <$> Sample.menu)
    [("pizza0000A", 2%float); ("pizza0000B", 1%float)] = 25%float ∧
  Order.total (Order.complete this None w).1.2 = Some 25%float ∧
  charges (Order.complete this None w).1.1 =
    [ {| amount := 2500%float; currency := "USD"; source := "tok_visa" |} ].
Proof.
  intros w this.
  destruct (total_is_sum_and_charge_is_total_times_100 this None w
              ((λ doc, Item.toJSON (Item.new doc)) <$> Sample.menu)
              [("pizza0000A", 2%float); ("pizza0000B", 1%float)])
    as [Htotal Hcharge]; [vm_compute; reflexivity ..|].
  split; [rewrite Htotal; vm_compute; reflexivity|].
  assert (Hrun : Order.complete this None w =
                 ((Order.complete this None w).1.1, (Order.complete this None w).1.2,
                  (Order.complete this None w).2))
    by (destruct (Order.complete this None w) as [[? ?] ?]; reflexivity).
  apply Hcharge in Hrun as [Ht Hc]; [|vm_compute; reflexivity].
  split; [rewrite Ht | rewrite Hc]; vm_compute; reflexivity.
Defined.

(** ** Zero-total rejection, over a catalog that holds an item *)

(** X1.  Over a catalog that holds an item, [complete] on an order that
    is not yet completed and whose total is not strictly positive answers
    400, "This order contains no items.", and leaves the world and the
    order as they were: the payment gateway is not called. *)
Lemma complete_rejects_nonpositive_total this stripeToken w catalog orderItems :
  Order.alreadyCompleted this = None →
  Item.hashmap w = (w, Some catalog) →
  Order.items this = Some orderItems →
  PrimFloat.ltb 0 (Order.totalOf catalog orderItems) = false →
  Order.complete this stripeToken w =
  (w, this, Some (Some 400, ErrorMsg "This order contains no items.")).
Proof.
  intros Hguard Hcat Hitems Hneg. unfold Order.complete.
  rewrite Hguard, Hcat, Hitems, Hneg. reflexivity.
Qed.

Lemma complete_rejects_nonpositive_total_witness :
  let w := Sample.world ∅ ∅ Sample.menu ∅ [] AjaxErr in
  let this :=
    constructed
      {| od_id := Some "k0000000orderorder01"; od_email := Some Sample.joe;
         od_createdOn := Some 1000; od_completedOn := None;
         od_paymentInfo := None; od_total := None;
         od_items := Some [("pizza0000Z", 3%float)] |} 1000 in
  Order.complete this None w =
  (w, this, Some (Some 400, ErrorMsg "This order contains no items.")).
Proof.
  intros w this.
  apply (complete_rejects_nonpositive_total this None w
           ((λ doc, Item.toJSON (Item.new doc)) <$> Sample.menu)
           [("pizza0000Z", 3%float)]); vm_compute; reflexivity.
Defined.

(** ** The idempotence guard *)

Lemma set_completedOn_later this now c0 :
  Order.createdOn this = Some c0 → c0 ≤ now →
  Order.completedOn (Order.set_completedOn (Some now) this) = Some now ∧
  Order.createdOn (Order.set_completedOn (Some now) this) = Some c0.
Proof.
  unfold Order.set_completedOn, Order.createdOn, Order.completedOn. intros Hc Hle.
  rewrite Hc. destruct (c0 <=? now) eqn:E; [|lia]. simpl. split; reflexivity.
Qed.

Lemma alreadyCompleted_after_completion this payment v now c0 :
  Order.createdOn this = Some c0 → c0 ≤ now → now ≠ 0 →
  Order.alreadyCompleted
    (Order.set_completedOn (Some now)
       (Order.set_paymentInfo (Some payment) (Order.set_total v this))) = Some now.
Proof.
  intros Hc Hle Hnz.
  assert (Hc' : Order.createdOn (Order.set_paymentInfo (Some payment) (Order.set_total v this))
                = Some c0).
  { change (Order.createdOn (Order.set_total v this) = Some c0).
    rewrite createdOn_set_total. exact Hc. }
  destruct (set_completedOn_later _ now c0 Hc' Hle) as [Hdone Hcreated].
  unfold Order.alreadyCompleted. rewrite Hdone, Hcreated.
  unfold Js.truthyZ. destruct (now =? 0) eqn:Z0; [lia|].
  destruct (c0 <=? now) eqn:E; [|lia]. reflexivity.
Qed.

(** C1, as the code has it.  On an order whose completion time is set,
    is not zero and is not earlier than its creation time, [complete]
    answers 200 at once with the record
    [{ Info: "Order already completed", completedOn }] and leaves the
    world and the order as they are: no request to the gateway, no new
    total, no mail.  And when a first [complete] has its charge accepted
    at a reading of the clock that is not zero and not earlier than the
    creation time, a second [complete] on the same order answers 200 with
    that record, carrying the time of the first completion, and the two
    calls together have sent the gateway one request. *)
Theorem complete_guards_a_completed_order :
  (∀ (this : Order.t) (stripeToken : option string) (w : World) (c c0 : Z),
      Order.completedOn this = Some c → c ≠ 0 →
      Order.createdOn this = Some c0 → c0 ≤ c →
      Order.complete this stripeToken w = (w, this, Some (Some 200, AlreadyCompleted c))) ∧
  (∀ (this : Order.t) (stripeToken again : option string) (w : World)
     (catalog : gmap string ItemData) (orderItems : Js.Obj float) (payment : Payment) (c0 : Z),
      Order.alreadyCompleted this = None →
      Item.hashmap w = (w, Some catalog) →
      Order.items this = Some orderItems →
      let total := Order.totalOf catalog orderItems in
      PrimFloat.ltb 0 total = true →
      stripe w (length (charges w)) (chargeFor total stripeToken) = AjaxOk payment →
      Order.succeeded payment = true →
      let now := clock w (ticks w) in
      Order.createdOn this = Some c0 → c0 ≤ now → now ≠ 0 →
      ∀ w1 this1 first,
        Order.complete this stripeToken w = (w1, this1, first) →
        Order.complete this1 again w1 = (w1, this1, Some (Some 200, AlreadyCompleted now)) ∧
        charges w1 = (charges w ++ [chargeFor total stripeToken])%list).
Proof.
  split.
  - intros this stripeToken w c c0 Hc Hnz Hc0 Hle.
    unfold Order.complete, Order.alreadyCompleted. rewrite Hc, Hc0.
    unfold Js.truthyZ. destruct (c =? 0) eqn:Z0; [lia|].
    destruct (c0 <=? c) eqn:E; [|lia]. reflexivity.
  - intros this stripeToken again w catalog orderItems payment c0
      Hguard Hcat Hitems total Hpos Hpay Hok now Hc0 Hle Hnz w1 this1 first Hrun.
    rewrite (complete_charges this stripeToken w catalog orderItems Hguard Hcat Hitems Hpos)
      in Hrun.
    fold total in Hrun. rewrite Hpay, Hok in Hrun. cbv zeta in Hrun.
    inversion Hrun; subst w1 this1 first; clear Hrun. split.
    + unfold Order.complete.
      rewrite (alreadyCompleted_after_completion this payment (Some total)
                 (clock w (ticks w)) c0 Hc0 Hle Hnz).
      reflexivity.
    + rewrite (preserves_Order_settle charges) by (intros; reflexivity). reflexivity.
Qed.

Lemma complete_guards_a_completed_order_witness :
  let w := Sample.world ∅ ∅ Sample.menu ∅ [] AjaxErr in
  let this := constructed Sample.paidOrder 1000 in
  Order.complete this None w = (w, this, Some (Some 200, AlreadyCompleted 2000)).
Proof.
  intros w this.
  apply (proj1 complete_guards_a_completed_order this None w 2000 1000);
    [vm_compute; reflexivity | lia | vm_compute; reflexivity | lia].
Defined.

(** The second call of [complete] does not return what the first one
    returned: the first hands over the receipt, the second the record
    [{ Info: "Order already completed", completedOn }]. *)
Lemma second_complete_does_not_return_the_receipt :
  let file := "k0000000orderorder01" in
  let w := Sample.world ∅ ∅ Sample.menu {[ file := Sample.order ]} [] AjaxErr in
  let this := constructed Sample.order 1000 in
  let first := Order.complete this None w in
  let second := Order.complete first.1.2 None first.1.1 in
  (∃ stored, first.2 = Some (Some 200, Receipt stored "Receipt mailed to joe@pizza.com")) ∧
  second.2 = Some (Some 200, AlreadyCompleted 1000) ∧
  second.2 ≠ first.2.
Proof.
  vm_compute. split; [eexists; reflexivity|]. split; [reflexivity|]. discriminate.
Qed.

(** A completion time of zero does not stop [complete]: the guard reads
    it as unset, and the order is charged. *)
Lemma complete_ignores_a_zero_completion_time :
  let w := Sample.world ∅ ∅ Sample.menu ∅ [] AjaxErr in
  let this :=
    constructed
      {| od_id := Some "k0000000orderorder01"; od_email := Some Sample.joe;
         od_createdOn := Some 0; od_completedOn := Some 0;
         od_paymentInfo := Some Sample.charged; od_total := Some 25%float;
         od_items := Some [("pizza0000A", 2%float); ("pizza0000B", 1%float)] |} 0 in
  Order.completedOn this = Some 0 ∧ Order.createdOn this = Some 0 ∧
  charges (Order.complete this None w).1.1 =
    [ {| amount := 2500%float; currency := "USD"; source := "tok_visa" |} ].
Proof. vm_compute. repeat split; reflexivity. Qed.

(** ** Cart filtering, over a catalog that holds an item *)





(** ** An empty catalog *)

(** Over an empty catalog neither reading of it calls back. *)
Lemma catalog_readings_of_an_empty_directory w :
  items w = ∅ → Item.hashmap w = (w, None) ∧ Item.list w = (w, None).
Proof.
  intros Hempty. unfold Item.hashmap, Item.list, bind, dataStore.list. simpl.
  rewrite Hempty, map_to_list_empty. split; reflexivity.
Qed.

(** X8.  Hence neither [complete], past its guard, nor [Order.post], past
    its check of the email, ever answers over an empty catalog. *)
Theorem no_answer_over_an_empty_catalog w :
  items w = ∅ →
  (∀ this stripeToken,
      Order.alreadyCompleted this = None →
      Order.complete this stripeToken w = (w, this, None)) ∧
  (∀ payload,
      Order.isValidEmail (od_email payload) = true →
      Order.post payload w = (w, None)).
Proof.
  intros Hempty. destruct (catalog_readings_of_an_empty_directory w Hempty) as [Hmap Hlist].
  split.
  - intros this stripeToken Hguard. unfold Order.complete. rewrite Hguard, Hmap. reflexivity.
  - intros payload Hemail. unfold Order.post. rewrite Hemail.
    destruct (od_email payload); [|discriminate Hemail]. simpl.
    apply bind_silent, Hlist.
Qed.

Lemma no_answer_over_an_empty_catalog_witness :
  let w := Sample.world ∅ ∅ ∅ ∅ Sample.twins AjaxErr in
  Order.complete (constructed Sample.order 1000) (Some "tok_amex") w
    = (w, constructed Sample.order 1000, None) ∧
  Order.post Sample.order w = (w, None).
Proof.
  intros w. destruct (no_answer_over_an_empty_catalog w eq_refl) as [Hcomplete Hpost].
  split; [apply Hcomplete | apply Hpost]; vm_compute; reflexivity.
Defined.

(** C3.  Over an empty catalog the items of an order sum to zero, yet
    [complete] does not fail with "This order contains no items.": the
    callback of [Item.hashmap] is never invoked, and neither is that of
    [complete]. *)
Theorem complete_over_empty_catalog_never_answers :
  let w := Sample.world ∅ ∅ ∅ ∅ [] AjaxErr in
  let this := constructed Sample.order 1000 in
  Order.alreadyCompleted this = None ∧
  Order.totalOf ∅ (default [] (Order.items this)) = 0%float ∧
  Order.complete this None w = (w, this, None).
Proof. vm_compute. repeat split; reflexivity. Qed.

(** C5.  Over an empty catalog no requested key survives the filter, yet
    [Order.post] does not fail with a 400: the callback of [Item.list] is
    never invoked, and neither is that of [Order.post]. *)
Theorem post_over_empty_catalog_never_answers :
  let w := Sample.world ∅ ∅ ∅ ∅ Sample.twins AjaxErr in
  Order.isValidEmail (od_email Sample.order) = true ∧
  Order.inCatalog [] (default [] (od_items Sample.order)) = [] ∧
  Order.post Sample.order w = (w, None).
Proof. vm_compute. repeat split; reflexivity. Qed.

(** ** Expired tokens *)

Lemma isValidTokenId_trim raw :
  Token.isValidTokenId (Some raw) = true →
  Token.isValidTokenId (Some (Js.trim raw)) = true ∧
  String.length (Js.trim raw) = 20%nat.
Proof.
  unfold Token.isValidTokenId. rewrite trim_idem. intros H.
  split; [exact H | apply Nat.eqb_eq, H].
Qed.






(** ** A user update that fails after the payment *)


(** What [complete] answers when the gateway does not accept the charge. *)
Lemma complete_payment_failure this stripeToken w catalog orderItems :
  Order.alreadyCompleted this = None →
  Item.hashmap w = (w, Some catalog) →
  Order.items this = Some orderItems →
  let total := Order.totalOf catalog orderItems in
  PrimFloat.ltb 0 total = true →
  match stripe w (length (charges w)) (chargeFor total stripeToken) with
  | AjaxOk payment => Order.succeeded payment = false
  | AjaxErr => True
  end →
  ∃ response, (Order.complete this stripeToken w).2 = Some response ∧ paymentFailure response.
Proof.
  intros Hguard Hcat Hitems total Hpos Hrefused.
  rewrite (complete_charges this stripeToken w catalog orderItems Hguard Hcat Hitems Hpos).
  fold total. destruct (stripe w _ _) as [payment|].
  - rewrite Hrefused. eexists. split; [reflexivity|]. left. eauto.
  - eexists. split; [reflexivity|]. right. left. reflexivity.
Qed.





(** ** Checkout end to end *)

(** C4.  A checkout with a valid token, an existing user with two
    Capricciosas at 7.50 in the cart, a charge that succeeds and an
    invoice that the mail transport accepts: the order is created,
    charged 1500 and stored as completed with total 15, but [complete]
    hands the [null] first argument of the mail callback on as its
    status, so step 8 is skipped: the user's orders and cart are left as
    they were, and the caller gets the status [null]. *)
Theorem checkout_with_mailed_invoice_leaves_the_user_untouched :
  let cart := [("pizza0000X", 2%float)] in
  let w := Sample.world (Sample.token 5000000) (Sample.user cart) Sample.menu ∅
             ["kq1x2y3zabcdefghijklm"] (AjaxOk "Queued. Thank you.") in
  let outcome := User.checkout (Sample.checkoutRequest Sample.joe) w in
  let file := "q1x2y3zabcdefghijklm" in
  charges outcome.1 = [ {| amount := 1500%float; currency := "USD"; source := "tok_visa" |} ] ∧
  od_total <$> (orders outcome.1 !! file) = Some (Some 15%float) ∧
  od_createdOn <$> (orders outcome.1 !! file) = Some (Some 1006) ∧
  od_completedOn <$> (orders outcome.1 !! file) = Some (Some 1007) ∧
  outcome.2 = Some (None, Text "Queued. Thank you.") ∧
  ud_orders <$> (users outcome.1 !! Sample.joe) = Some (Some []) ∧
  ud_cart <$> (users outcome.1 !! Sample.joe) = Some (Some cart).
Proof. vm_compute. repeat split; reflexivity. Qed.

(** X6.  The same checkout when the mail transport refuses the invoice:
    the user's orders gain the id of the order and the cart is emptied. *)
Lemma checkout_with_refused_invoice_updates_the_user :
  let cart := [("pizza0000X", 2%float)] in
  let w := Sample.world (Sample.token 5000000) (Sample.user cart) Sample.menu ∅
             ["kq1x2y3zabcdefghijklm"] AjaxErr in
  let outcome := User.checkout (Sample.checkoutRequest Sample.joe) w in
  let file := "q1x2y3zabcdefghijklm" in
  charges outcome.1 = [ {| amount := 1500%float; currency := "USD"; source := "tok_visa" |} ] ∧
  od_completedOn <$> (orders outcome.1 !! file) = Some (Some 1007) ∧
  (∃ receipt, outcome.2 = Some (Some 200, receipt)) ∧
  ud_orders <$> (users outcome.1 !! Sample.joe) = Some (Some [Some file]) ∧
  ud_cart <$> (users outcome.1 !! Sample.joe) = Some (Some []).
Proof. vm_compute. repeat split; try reflexivity. eexists. reflexivity. Qed.

(** Whenever the invoice is accepted, the status that [settle] hands to
    the callback of [complete] is [null], whatever the store answered. *)
Lemma settle_status_of_a_mailed_invoice this w w' response :
  Order.settle this w = (w', Some response) →
  (∃ invoice, response = (None, Text invoice)) ∨
  (∃ stored w1, Order.put (Order.toJSON this) w = (w1, Some stored) ∧
                response.1 = stored.1 ∧
                ∃ w2, Order.sendInvoice this w1 = (w2, Some AjaxErr)).
Proof.
  unfold Order.settle, bind.
  destruct (Order.put (Order.toJSON this) w) as [w1 [stored|]]; [|discriminate].
  destruct (Order.sendInvoice this w1) as [w2 [[invoice|]|]] eqn:Hmail; [| |discriminate].
  - intros [= <- <-]. left. exists invoice. reflexivity.
  - intros [= <- <-]. right. exists stored, w1.
    split; [reflexivity|]. split; [reflexivity|]. exists w2. exact Hmail.
Qed.

Lemma calm_ret {A} (a : A) (Q : A → Prop) : Q a → calm (ret a) Q.
Proof. intros HQ w Hw. repeat split; [exact Hw|]. intros a' [= <-]. exact HQ. Qed.

Lemma calm_bind {A C} (m : M A) (k : A → M C) (Q : A → Prop) (R : C → Prop) :
  calm m Q → (∀ a, Q a → calm (k a) R) → calm (bind m k) R.
Proof.
  intros Hm Hk w Hw. destruct (Hm w Hw) as [Hw1 [Hu HQ]]. unfold bind.
  destruct (m w) as [w1 [a|]]; simpl in *.
  - destruct (Hk a (HQ a eq_refl) w1 Hw1) as [Hw2 [Hu2 HR]].
    repeat split; [exact Hw2 | congruence | exact HR].
  - repeat split; [exact Hw1 | exact Hu | discriminate].
Qed.

Lemma calm_weaken {A} (m : M A) (Q R : A → Prop) :
  calm m Q → (∀ a, Q a → R a) → calm m R.
Proof.
  intros Hm HQR w Hw. destruct (Hm w Hw) as [Hw1 [Hu HQ]].
  repeat split; [exact Hw1 | exact Hu | intros a Ha; apply HQR, HQ, Ha].
Qed.

(** What touches neither the users nor the mail transport is calm. *)
Lemma calm_of_preserves {A} (m : M A) :
  preserves (λ w, (users w, mailgun w)) m → calm m (λ _, True).
Proof.
  intros Hm w Hw. specialize (Hm w). simpl in Hm. injection Hm as Hu Hg.
  repeat split; [|exact Hu].
  unfold mailAccepted. rewrite Hg. exact Hw.
Qed.

(** The document that [Order.post] answers has no completion time. *)
Lemma calm_Order_post payload :
  calm (Order.post payload)
       (λ created, ∀ orderData, created.2 = OrderJSON orderData →
                                od_completedOn orderData = None).
Proof.
  intros w Hw.
  destruct (calm_of_preserves (Order.post payload)
              ltac:(apply preserves_Order_post; intros; reflexivity) w Hw)
    as [Hw1 [Hu _]].
  repeat split; [exact Hw1 | exact Hu |].
  intros created Hrun orderData Hbody. revert Hrun.
  unfold Order.post, bind, ret, Order.createUniqueId.
  destruct (if Order.isValidEmail _ then _ else _); [|intros [= <-]; discriminate Hbody].
  destruct (Item.list w) as [w1' [catalog|]]; [|discriminate].
  destruct (Nat.ltb 0 _); [|intros [= <-]; discriminate Hbody].
  destruct (helpers.createRandomString 20 w1') as [w2 [uid|]]; [|discriminate].
  rewrite Order_new_eq. simpl.
  destruct (dataStore.create _ _ _ _) as [w3 [[err|]|]];
    [intros [= <-]; discriminate Hbody | | discriminate].
  intros [= <-]. simpl in Hbody. injection Hbody as <-.
  unfold Order.toJSON. cbn [od_completedOn].
  rewrite completedOn_of_constructed. reflexivity.
Qed.

(** Under a mail transport that accepts every invoice, [settle] answers
    with the status [null]. *)
Lemma settle_status_when_mailed this w response :
  mailAccepted w → (Order.settle this w).2 = Some response → response.1 = None.
Proof.
  intros Hw. unfold Order.settle, bind.
  pose proof (preserves_Order_put mailgun (Order.toJSON this)
                ltac:(intros; reflexivity) ltac:(intros; reflexivity) w) as Hsame.
  destruct (Order.put (Order.toJSON this) w) as [w1 [stored|]]; [|discriminate].
  simpl in Hsame. unfold Order.sendInvoice, bind.
  rewrite Item_hashmap_eq. destruct (Nat.eqb _ _); [discriminate|].
  destruct (Order.items this) as [orderItems|]; [|discriminate].
  destruct (forallb _ _); [|discriminate].
  rewrite Hsame.
  destruct (Hw (length (mails w1))
              {| mail_to := Order.email this; mail_order := Order.id this;
                 mail_total := Order.total this |}) as [reply ->].
  intros [= <-]. reflexivity.
Qed.

(** Hence [complete], past its guard, never answers 200. *)
Lemma complete_status_when_mailed this stripeToken w response :
  Order.alreadyCompleted this = None → mailAccepted w →
  (Order.complete this stripeToken w).2 = Some response → is200 response.1 = false.
Proof.
  intros Hguard Hw. unfold Order.complete. rewrite Hguard, Item_hashmap_eq.
  destruct (Nat.eqb _ _); [discriminate|].
  destruct (Order.items this) as [orderItems|]; [|discriminate].
  destruct (PrimFloat.ltb 0 _); [|intros [= <-]; reflexivity].
  set (paid := Order.set_total _ this).
  pose proof (preserves_Order_makePayment mailgun paid stripeToken
                ltac:(intros; reflexivity) w) as Hsame.
  destruct (Order.makePayment paid stripeToken w) as [w2 [[err|payment]|]];
    [intros [= <-]; reflexivity | | discriminate].
  destruct (Order.succeeded payment); [|intros [= <-]; reflexivity].
  simpl in Hsame.
  set (done := Order.set_completedOn _ _).
  pose proof (settle_status_when_mailed done (tick w2) response) as Hnull.
  destruct (Order.settle done (tick w2)) as [w3 r]. simpl in *.
  intros ->. rewrite Hnull; [reflexivity | | reflexivity].
  unfold mailAccepted. simpl. rewrite Hsame. exact Hw.
Qed.

Lemma calm_complete this stripeToken :
  Order.alreadyCompleted this = None →
  calm (λ w, let '(w', _, response) := Order.complete this stripeToken w in (w', response))
       (λ completion, is200 completion.1 = false).
Proof.
  intros Hguard w Hw.
  pose proof (complete_frame (λ w, (users w, mailgun w)) this stripeToken w
                ltac:(intros; reflexivity) ltac:(intros; reflexivity)
                ltac:(intros; reflexivity) ltac:(intros; reflexivity)) as Hframe.
  pose proof (complete_status_when_mailed this stripeToken w) as Hstatus.
  destruct (Order.complete this stripeToken w) as [[w' this'] response]. simpl in *.
  injection Hframe as Hu Hg. repeat split; [|exact Hu|].
  - unfold mailAccepted. rewrite Hg. exact Hw.
  - intros completion ->. apply Hstatus; [exact Hguard | exact Hw | reflexivity].
Qed.

Lemma calm_checkout_user data found : calm (User.checkout_user data found) (λ _, True).
Proof.
  unfold User.checkout_user.
  destruct found as [statusCode []]; try (apply calm_ret; exact I).
  destruct (is200 statusCode); [|apply calm_ret; exact I].
  destruct (Nat.ltb 0 _); [|apply calm_ret; exact I].
  eapply calm_bind; [apply calm_Order_post|].
  intros [statusCode' []] Hfresh; try (apply calm_ret; exact I).
  destruct (is200 statusCode'); [|apply calm_ret; exact I].
  specialize (Hfresh o eq_refl).
  eapply calm_bind with (Q := λ order, Order.alreadyCompleted order = None).
  { intros w Hw.
    destruct (calm_of_preserves (Order.new o)
                ltac:(apply preserves_Order_new; intros; reflexivity) w Hw)
      as [Hw1 [Hu1 _]].
    repeat split; [exact Hw1 | exact Hu1 |].
    intros order. rewrite Order_new_eq.
    destruct (od_createdOn o); intros [= <-]; apply constructed_not_completed, Hfresh. }
  intros order Hguard.
  eapply calm_bind; [apply calm_complete, Hguard|].
  intros [status body] Hnot200. simpl in Hnot200.
  unfold User.checkout_completed. rewrite Hnot200. apply calm_ret. exact I.
Qed.

Lemma calm_checkout data : calm (User.checkout data) (λ _, True).
Proof.
  unfold User.checkout.
  destruct (if User.isValidEmail _ then _ else _) as [email'|]; [|apply calm_ret; exact I].
  destruct (if Token.isValidTokenId _ then _ else _) as [tokenId|]; [|apply calm_ret; exact I].
  eapply calm_bind.
  { apply calm_of_preserves, preserves_Token_isValid; intros; reflexivity. }
  intros [] _; [|apply calm_ret; exact I].
  eapply calm_bind.
  { apply calm_of_preserves, preserves_User_get; intros; reflexivity. }
  intros found _.
  eapply calm_bind.
  { apply calm_of_preserves, preserves_Token_extend; intros; reflexivity. }
  intros _ _. apply calm_checkout_user.
Qed.

(** X5.  While the mail transport accepts every invoice, no checkout
    changes any user document: the status that [complete] hands on after a
    successful charge is the [null] of the mail callback, never 200, so
    the step that pushes the order on the user's orders and empties the
    cart is never reached. *)
Theorem checkout_leaves_the_users_when_invoices_are_mailed (data : Request) (w : World) :
  mailAccepted w → users (User.checkout data w).1 = users w.
Proof. intros Hw. apply (calm_checkout data w Hw). Qed.

Lemma checkout_leaves_the_users_when_invoices_are_mailed_witness :
  let w := Sample.world (Sample.token 5000000) (Sample.user [("pizza0000X", 2%float)])
             Sample.menu ∅ ["kq1x2y3zabcdefghijklm"] (AjaxOk "Queued. Thank you.") in
  users (User.checkout (Sample.checkoutRequest Sample.joe) w).1 = users w.
Proof.
  intros w. apply checkout_leaves_the_users_when_invoices_are_mailed.
  intros i request. exists "Queued. Thank you.". reflexivity.
Defined.

(** * The other handlers, the router and the server *)

(** ** White space *)

(** Validated and trimmed strings are not empty, and a digest has no white
    space to trim. *)

Lemma valid_email_nonempty raw :
  helpers.isValidEmail (Some raw) = true → String.length (Js.trim raw) ≠ 0%nat.
Proof.
  unfold helpers.isValidEmail. destruct (Js.trim raw); [discriminate | discriminate].
Qed.

Lemma valid_email_trim raw :
  helpers.isValidEmail (Some raw) = true → helpers.isValidEmail (Some (Js.trim raw)) = true.
Proof. unfold helpers.isValidEmail. rewrite trim_idem. exact id. Qed.

Lemma valid_password_trim raw :
  helpers.isValidPassword (Some raw) = true → (0 <? String.length (Js.trim raw))%nat = true.
Proof.
  unfold helpers.isValidPassword. intros H. apply Nat.leb_le in H. apply Nat.ltb_lt. lia.
Qed.

Lemma hexDigit_not_space c : hexDigit c = true → Js.isWhiteSpace c = false.
Proof.
  unfold hexDigit, RegExp.between, Js.isWhiteSpace.
  set (n := nat_of_ascii c). intros H.
  apply orb_true_iff in H as [H|H]; apply andb_true_iff in H as [Hlo Hhi];
    apply Nat.leb_le in Hlo, Hhi;
    repeat (apply orb_false_iff; split); apply Nat.eqb_neq; lia.
Qed.

Lemma allHex_trimEnd s : allHex s = true → Js.trimEnd s = s.
Proof.
  induction s as [|c r IH]; simpl; [reflexivity|].
  intros H. apply andb_true_iff in H as [Hc Hr]. rewrite (IH Hr).
  destruct r; [rewrite (hexDigit_not_space c Hc)|]; reflexivity.
Qed.

Lemma allHex_trim s : allHex s = true → Js.trim s = s.
Proof.
  intros H. unfold Js.trim.
  assert (Hstart : Js.trimStart s = s).
  { destruct s as [|c r]; [reflexivity|]. simpl in *.
    apply andb_true_iff in H as [Hc _]. rewrite (hexDigit_not_space c Hc). reflexivity. }
  rewrite Hstart. apply allHex_trimEnd, H.
Qed.

Lemma digest_password s :
  isDigest s = true →
  User.password (User.new {| ud_email := None; ud_password := Some s; ud_firstName := None;
                             ud_lastName := None; ud_streetAddress := None;
                             ud_cart := None; ud_orders := None |}) = Some s.
Proof.
  intros H. apply andb_true_iff in H as [Hlen Hhex]. apply Nat.eqb_eq in Hlen.
  unfold User.password, User.new. cbn [User._password ud_password].
  unfold User.isValidPassword, helpers.isValidPassword.
  rewrite (allHex_trim s Hhex), Hlen. cbn [Nat.leb fmap option_fmap option_map].
  rewrite (allHex_trim s Hhex). apply strOrNull_nonempty. rewrite Hlen. discriminate.
Qed.

Lemma filled_nonempty value s : User.filled value = Some s → User.text (Some s) = Some s.
Proof.
  unfold User.filled, User.text. destruct value as [raw|]; [|discriminate].
  destruct (Nat.ltb 0 _); [|discriminate]. intros [= <-]. rewrite trim_idem. reflexivity.
Qed.

(** ** Dictionaries *)

(** What [Js.get] reads after [Js.set] and [Js.remove], whatever the
    enumeration order of the keys. *)

Section ObjFacts.
Context {V : Type}.
Implicit Types (o : Js.Obj V) (key k : string) (v : V).











End ObjFacts.


Lemma listed_files {A} (m : gmap string A) (file : string) :
  file ∈ (map_to_list m).*1 ↔ is_Some (m !! file).
Proof.
  rewrite list_elem_of_fmap. split.
  - intros [[k x] [-> Hin]]. apply elem_of_map_to_list in Hin. simpl. eauto.
  - intros [x Hx]. exists (file, x). split; [reflexivity|]. apply elem_of_map_to_list, Hx.
Qed.

(** ** Sessions *)

(** How the handlers run under a live session, and what [Token.put] does to
    a stored token. *)

Lemma later_numOrNull x now : Token.later (Js.numOrNull x) now = (default 0 x >? now).
Proof.
  unfold Token.later, Js.numOrNull, Js.truthyZ. destruct x as [x|]; [|reflexivity].
  destruct (x =? 0) eqn:E; simpl; [|reflexivity].
  apply Z.eqb_eq in E. subst. reflexivity.
Qed.

Lemma Token_id_of_new email raw expiration :
  Token.isValidTokenId (Some raw) = true →
  Token.id (Token.new {| tk_email := email; tk_id := Some raw; tk_expiration := expiration |})
  = Some (Js.trim raw).
Proof.
  intros Hvalid. destruct (isValidTokenId_trim raw Hvalid) as [_ Hlen].
  unfold Token.new, Token.set_id. cbn [tk_id]. rewrite Hvalid.
  unfold Token.id, Token.set_expiration. cbn [Token._id fmap option_fmap option_map].
  apply strOrNull_nonempty. rewrite Hlen. discriminate.
Qed.

Lemma Token_isValid_live this id doc w :
  Token.id this = Some id →
  tokens w !! id = Some doc → tk_id doc = Some id →
  clock w (ticks w) < default 0 (tk_expiration doc) →
  Token.isValid this w = (tick w, Some true).
Proof.
  intros Hid Hdoc Hdocid Hlive.
  unfold Token.isValid, bind, dataStore.read. simpl.
  rewrite Hid. simpl. rewrite Hdoc, Hdocid.
  set (this' := {| Token._email := Token._email this; Token._id := Token._id this;
                   Token._expiration := tk_expiration doc |}).
  assert (Hid' : Token.id this' = Some id) by exact Hid.
  rewrite !Hid'. rewrite strictEq_refl.
  unfold Token.expiration, this'. cbn [Token._expiration].
  rewrite later_numOrNull.
  destruct (default 0 (tk_expiration doc) >? clock w (ticks w)) eqn:E; [reflexivity | lia].
Qed.

Lemma Token_put_live id doc w :
  Token.isValidTokenId (Some id) = true → Js.trim id = id →
  tokens w !! id = Some doc → tk_id doc = Some id →
  clock w (ticks w) < default 0 (tk_expiration doc) →
  Token.put (Some id) true w =
  (set_tokens
     (<[id := Token.toJSON
               (Token.set_expiration (Some (clock w (S (ticks w)) + 1000 * 60 * 60))
                  (Token.new doc))]> (tokens w))
     (tick (tick w)),
   Some (Some 200, Undefined)).
Proof.
  intros Hvalid Htrim Hdoc Hdocid Hlive.
  unfold Token.put. rewrite Hvalid. cbn [fmap option_fmap option_map]. rewrite Htrim.
  unfold bind at 1. unfold dataStore.read at 1. cbn [dataStore.contents tokensDir].
  rewrite Hdoc.
  assert (Hnew : Token.id (Token.new doc) = Some id).
  { destruct doc as [e i x]. simpl in Hdocid. subst i.
    rewrite Token_id_of_new by exact Hvalid. rewrite Htrim. reflexivity. }
  rewrite Hnew, strictEq_refl.
  unfold bind at 1. unfold Date_now at 1.
  assert (Hexp : Token.expiration (Token.new doc) = Js.numOrNull (tk_expiration doc)).
  { reflexivity. }
  rewrite Hexp, later_numOrNull.
  destruct (default 0 (tk_expiration doc) >? clock w (ticks w)) eqn:E; [|lia].
  unfold bind, Date_now, dataStore.update. cbn [dataStore.contents dataStore.replace tokensDir].
  simpl. rewrite Hdoc. reflexivity.
Qed.

Lemma default_numOrNull x : default 0 (Js.numOrNull x) = default 0 x.
Proof.
  unfold Js.numOrNull, Js.truthyZ. destruct x as [x|]; [|reflexivity].
  destruct (x =? 0) eqn:E; simpl; [|reflexivity]. apply Z.eqb_eq in E. congruence.
Qed.

Lemma session_isValid h id this w :
  Token.id this = Some id → session (S h) id w →
  Token.isValid this w = (tick w, Some true) ∧ session h id (tick w).
Proof.
  intros Hid [[doc [Hdoc [Hdocid Hlive]]] Hsteady]. split.
  - apply (Token_isValid_live this id doc); try assumption. apply Hlive. lia.
  - split.
    + exists doc. repeat split; try assumption. intros n Hn. apply Hlive. simpl in Hn. lia.
    + intros i j Hi Hj. simpl in *. apply Hsteady; lia.
Qed.

Lemma session_extend h id this w :
  Token.isValidTokenId (Some id) = true → Js.trim id = id →
  Token.id this = Some id → session (2 + h) id w →
  session h id (Token.extend this w).1.
Proof.
  intros Hvalid Htrim Hid [[doc [Hdoc [Hdocid Hlive]]] Hsteady].
  unfold Token.extend, forget. rewrite Hid.
  rewrite (Token_put_live id doc w Hvalid Htrim Hdoc Hdocid) by (apply Hlive; lia).
  cbn [fst]. split.
  - eexists. split; [apply lookup_insert_eq|]. split.
    + unfold Token.toJSON. cbn [tk_id].
      destruct doc as [e i x]. simpl in Hdocid. subst i.
      change (Token.id (Token.new {| tk_email := e; tk_id := Some id; tk_expiration := x |})
              = Some id).
      rewrite Token_id_of_new by exact Hvalid. rewrite Htrim. reflexivity.
    + intros n Hn. unfold Token.toJSON. cbn [tk_expiration].
      unfold Token.expiration, Token.set_expiration. cbn [Token._expiration].
      rewrite default_numOrNull. simpl in *. apply Hsteady; lia.
  - intros i j Hi Hj. simpl in *. apply Hsteady; lia.
Qed.

Lemma Token_email_of_new raw id expiration :
  helpers.isValidEmail (Some raw) = true →
  Token.email (Token.new {| tk_email := Some raw; tk_id := id; tk_expiration := expiration |})
  = Some (Js.trim raw).
Proof.
  intros Hvalid. unfold Token.new, Token.set_email, Token.isValidUserId. cbn [tk_email].
  rewrite Hvalid. unfold Token.email.
  assert (Hkeep : ∀ v t, Token._email (Token.set_expiration expiration (Token.set_id v t))
                         = Token._email t).
  { intros v t. unfold Token.set_id. destruct (Token.isValidTokenId v); reflexivity. }
  rewrite Hkeep. cbn [Token._email fmap option_fmap option_map].
  apply strOrNull_nonempty, valid_email_nonempty, Hvalid.
Qed.

Lemma Token_id_of_doc doc id :
  tk_id doc = Some id → Token.isValidTokenId (Some id) = true → Js.trim id = id →
  Token.id (Token.new doc) = Some id.
Proof.
  intros Hdocid Hvalid Htrim. destruct doc as [e i x]. simpl in Hdocid. subst i.
  rewrite Token_id_of_new by exact Hvalid. rewrite Htrim. reflexivity.
Qed.

(** Deleting a token that is filed under its id. *)
Lemma Token_delete_run raw doc w :
  Token.isValidTokenId (Some raw) = true →
  tokens w !! Js.trim raw = Some doc → tk_id doc = Some (Js.trim raw) →
  Token.delete (Some raw) w =
  (set_tokens (delete (Js.trim raw) (tokens w)) w, Some (Some 200, Undefined)).
Proof.
  intros Hvalid Hdoc Hdocid.
  destruct (isValidTokenId_trim raw Hvalid) as [Hvalid' Hlen].
  unfold Token.delete. rewrite Hvalid. cbn [fmap option_fmap option_map].
  unfold bind at 1. unfold dataStore.read at 1. cbn [dataStore.contents tokensDir].
  rewrite Hdoc. cbn [default from_option id].
  rewrite (Token_id_of_doc doc _ Hdocid Hvalid' (trim_idem _)), strictEq_refl.
  rewrite bool_decide_eq_true_2 by eauto. cbn [andb].
  unfold bind, dataStore.delete. cbn [dataStore.contents dataStore.replace tokensDir].
  rewrite Hdoc. reflexivity.
Qed.

(** The token of an instance without an id is [null]: nothing is found under it. *)
Lemma Token_isValid_missing this id w :
  Token.id this = Some id → tokens w !! id = None → Token.isValid this w = (w, Some false).
Proof.
  intros Hid Hnone. unfold Token.isValid, bind, dataStore.read. simpl.
  rewrite Hid. simpl. rewrite Hnone. reflexivity.
Qed.

(** [Token.put] on a token that is filed under its id and is out of date. *)
Lemma Token_put_expired id doc w :
  Token.isValidTokenId (Some id) = true → Js.trim id = id →
  tokens w !! id = Some doc → tk_id doc = Some id →
  default 0 (tk_expiration doc) ≤ clock w (ticks w) →
  Token.put (Some id) true w =
  (set_tokens (delete id (tokens w)) (tick w),
   Some (Some 400, errorMsg "The token cannot be extended (it is expired and deleted).")).
Proof.
  intros Hvalid Htrim Hdoc Hdocid Hpast.
  unfold Token.put. rewrite Hvalid. cbn [fmap option_fmap option_map]. rewrite Htrim.
  unfold bind at 1. unfold dataStore.read at 1. cbn [dataStore.contents tokensDir].
  rewrite Hdoc.
  rewrite (Token_id_of_doc doc id Hdocid Hvalid Htrim), strictEq_refl.
  unfold bind at 1. unfold Date_now at 1.
  assert (Hexp : Token.expiration (Token.new doc) = Js.numOrNull (tk_expiration doc))
    by reflexivity.
  rewrite Hexp, later_numOrNull.
  destruct (default 0 (tk_expiration doc) >? clock w (ticks w)) eqn:E; [lia|].
  unfold bind, dataStore.delete. cbn [dataStore.contents dataStore.replace tokensDir].
  simpl. rewrite Hdoc. reflexivity.
Qed.

(** [Token.put] on a document that does not carry the id it is filed
    under: neither branch is taken, and the callback is not invoked. *)
Lemma Token_put_misfiled id doc w :
  Token.isValidTokenId (Some id) = true → Js.trim id = id →
  tokens w !! id = Some doc → Token.id (Token.new doc) ≠ Some id →
  Token.put (Some id) true w = (w, None).
Proof.
  intros Hvalid Htrim Hdoc Hother.
  unfold Token.put. rewrite Hvalid. cbn [fmap option_fmap option_map]. rewrite Htrim.
  unfold bind at 1. unfold dataStore.read at 1. cbn [dataStore.contents tokensDir].
  rewrite Hdoc. unfold strictEq. rewrite bool_decide_eq_false_2 by exact Hother. reflexivity.
Qed.

(** Discharges [session n id w] on a concrete world. *)
Ltac sample_session :=
  split;
  [ eexists; split; [vm_compute; reflexivity|]; split; [reflexivity|];
    intros n Hn; simpl in *; lia
  | intros i j Hi Hj; simpl in *; lia ].

(** X10.  [Token.put] on the id of a stored token, with [extend: true]:
    a token that carries its id and has not expired at the reading of the
    clock is answered 200 and expires an hour after the next reading; an
    expired one is answered 400 and deleted; and when the document does
    not carry the id it is filed under, the callback is never invoked. *)
Theorem Token_put_extends_or_deletes (id : string) (doc : TokenData) (w : World) :
  Token.isValidTokenId (Some id) = true → Js.trim id = id →
  tokens w !! id = Some doc →
  let expiration := default 0 (tk_expiration doc) in
  let now := clock w (ticks w) in
  (tk_id doc = Some id → now < expiration →
   ∃ w' extended,
     Token.put (Some id) true w = (w', Some (Some 200, Undefined)) ∧
     tokens w' = <[id := extended]> (tokens w) ∧
     tk_id extended = Some id ∧
     default 0 (tk_expiration extended) = clock w (S (ticks w)) + 1000 * 60 * 60) ∧
  (tk_id doc = Some id → expiration ≤ now →
   ∃ w', Token.put (Some id) true w =
         (w', Some (Some 400, errorMsg "The token cannot be extended (it is expired and deleted).")) ∧
         tokens w' = delete id (tokens w)) ∧
  (Token.id (Token.new doc) ≠ Some id → Token.put (Some id) true w = (w, None)).
Proof.
  intros Hvalid Htrim Hdoc expiration now. split; [|split].
  - intros Hdocid Hlive. eexists _, _.
    split; [apply (Token_put_live id doc w Hvalid Htrim Hdoc Hdocid Hlive)|].
    split; [reflexivity|]. split.
    + unfold Token.toJSON. cbn [tk_id].
      apply (Token_id_of_doc doc id Hdocid Hvalid Htrim).
    + unfold Token.toJSON. cbn [tk_expiration]. apply default_numOrNull.
  - intros Hdocid Hpast. eexists.
    split; [apply (Token_put_expired id doc w Hvalid Htrim Hdoc Hdocid Hpast) | reflexivity].
  - apply Token_put_misfiled; assumption.
Qed.

Lemma Token_put_extends_or_deletes_witness :
  let live := Sample.world (Sample.token 5000000) ∅ Sample.menu ∅ [] AjaxErr in
  let expired := Sample.world (Sample.token 500) ∅ Sample.menu ∅ [] AjaxErr in
  let misfiled :=
    Sample.world {[ Sample.session := {| tk_email := Some Sample.joe; tk_id := Some "short";
                                         tk_expiration := Some 5000000 |} ]}
      ∅ Sample.menu ∅ [] AjaxErr in
  (∃ w' extended,
     Token.put (Some Sample.session) true live = (w', Some (Some 200, Undefined)) ∧
     tokens w' = <[Sample.session := extended]> (tokens live) ∧
     tk_id extended = Some Sample.session ∧
     default 0 (tk_expiration extended) = 3601001) ∧
  (∃ w', Token.put (Some Sample.session) true expired =
         (w', Some (Some 400, errorMsg "The token cannot be extended (it is expired and deleted).")) ∧
         tokens w' = delete Sample.session (tokens expired)) ∧
  Token.put (Some Sample.session) true misfiled = (misfiled, None).
Proof.
  intros live expired misfiled. split; [|split].
  - apply (Token_put_extends_or_deletes Sample.session
             {| tk_email := Some Sample.joe; tk_id := Some Sample.session;
                tk_expiration := Some 5000000 |} live);
      try (vm_compute; reflexivity).
  - apply (Token_put_extends_or_deletes Sample.session
             {| tk_email := Some Sample.joe; tk_id := Some Sample.session;
                tk_expiration := Some 500 |} expired);
      try (vm_compute; reflexivity).
    vm_compute. discriminate.
  - apply (Token_put_extends_or_deletes Sample.session
             {| tk_email := Some Sample.joe; tk_id := Some "short";
                tk_expiration := Some 5000000 |} misfiled);
      try (vm_compute; reflexivity).
    vm_compute. discriminate.
Defined.

(** ** Reading and updating a user *)

Lemma User_get_session h data rawEmail rawToken doc w :
  query_email data = Some rawEmail → helpers.isValidEmail (Some rawEmail) = true →
  tokenid data = Some rawToken → Token.isValidTokenId (Some rawToken) = true →
  session (3 + h) (Js.trim rawToken) w →
  users w !! Js.trim rawEmail = Some doc →
  ∃ w', User.get data w =
        (w', Some (Some 200, UserJSON (User.withoutPassword (User.toJSON (User.new doc))))) ∧
        session h (Js.trim rawToken) w'.
Proof.
  intros Hemail Hwell Htoken Hvalid Hsession Hdoc.
  destruct (isValidTokenId_trim rawToken Hvalid) as [Hvalid' Hlen].
  unfold User.get. rewrite Hemail, Htoken. unfold User.isValidEmail. rewrite Hwell, Hvalid.
  cbn [fmap option_fmap option_map].
  set (token := Token.new _).
  assert (Hid : Token.id token = Some (Js.trim rawToken)).
  { unfold token. rewrite Token_id_of_new by exact Hvalid'. apply (f_equal Some), trim_idem. }
  destruct (session_isValid (2 + h) _ token w Hid Hsession) as [Hrun Hsession1].
  rewrite (bind_run _ _ _ _ _ Hrun).
  unfold bind at 1. unfold dataStore.read at 1. cbn [dataStore.contents usersDir].
  change (users (tick w)) with (users w). rewrite Hdoc.
  pose proof (session_extend h _ token (tick w) Hvalid' (trim_idem _) Hid Hsession1) as Hsession2.
  unfold bind.
  destruct (Token.extend token (tick w)) as [w2 [[]|]] eqn:Hext; [|discriminate Hext].
  eexists. split; [reflexivity | exact Hsession2].
Qed.

Lemma User_email_new d raw :
  ud_email d = Some raw → helpers.isValidEmail (Some raw) = true →
  User.email (User.new d) = Some (Js.trim raw).
Proof.
  intros Hd Hvalid. unfold User.email, User.new. cbn [User._email].
  rewrite Hd. unfold Token.isValidUserId. rewrite Hvalid.
  cbn [fmap option_fmap option_map]. apply strOrNull_nonempty, valid_email_nonempty, Hvalid.
Qed.

Lemma User_put_session h data rawEmail rawToken doc w :
  ud_email (payload data) = Some rawEmail → helpers.isValidEmail (Some rawEmail) = true →
  carriesUpdate (payload data) = true →
  tokenid data = Some rawToken → Token.isValidTokenId (Some rawToken) = true →
  session (3 + h) (Js.trim rawToken) w →
  users w !! Js.trim rawEmail = Some doc → ud_email doc = Some (Js.trim rawEmail) →
  let stored := User.toJSON (User.new (updatedUser (hmac w) (payload data) doc)) in
  ∃ w', User.put data w = (w', Some (Some 200, UserJSON stored)) ∧
        users w' = <[Js.trim rawEmail := stored]> (users w) ∧
        session h (Js.trim rawToken) w'.
Proof.
  intros Hemail Hwell Hcarries Htoken Hvalid Hsession Hdoc Hfiled stored.
  destruct (isValidTokenId_trim rawToken Hvalid) as [Hvalid' Hlen].
  unfold User.put. rewrite Hemail. unfold User.isValidEmail at 1. rewrite Hwell.
  cbn [fmap option_fmap option_map].
  unfold carriesUpdate in Hcarries. rewrite Hcarries. rewrite Htoken, Hvalid.
  set (token := Token.new _).
  assert (Hid : Token.id token = Some (Js.trim rawToken)).
  { unfold token. apply Token_id_of_new, Hvalid. }
  destruct (session_isValid (2 + h) _ token w Hid Hsession) as [Hrun Hsession1].
  rewrite (bind_run _ _ _ _ _ Hrun).
  unfold bind at 1. unfold dataStore.read at 1. cbn [dataStore.contents usersDir].
  change (users (tick w)) with (users w). rewrite Hdoc.
  unfold bind at 1. unfold gets at 1. change (hmac (tick w)) with (hmac w).
  fold (updatedUser (hmac w) (payload data) doc).
  assert (Hsame : User.email (User.new (updatedUser (hmac w) (payload data) doc))
                  = Some (Js.trim rawEmail)).
  { rewrite (User_email_new _ (Js.trim rawEmail)); [rewrite trim_idem; reflexivity | exact Hfiled |].
    apply valid_email_trim, Hwell. }
  rewrite Hsame, strictEq_refl. fold stored.
  unfold bind at 1. unfold dataStore.update at 1. cbn [dataStore.contents dataStore.replace usersDir].
  change (users (tick w)) with (users w). rewrite Hdoc.
  set (w1 := set_users _ _).
  assert (Hsession1' : session (2 + h) (Js.trim rawToken) w1) by exact Hsession1.
  pose proof (session_extend h _ token w1 Hvalid' (trim_idem _) Hid Hsession1') as Hsession2.
  pose proof (preserves_Token_extend users ltac:(reflexivity) ltac:(reflexivity) token w1) as Hu.
  unfold bind.
  destruct (Token.extend token w1) as [w2 [[]|]] eqn:Hext; [|discriminate Hext].
  eexists. split; [reflexivity|]. split; [exact Hu | exact Hsession2].
Qed.

Lemma User_get_without_token data rawEmail rawToken w :
  query_email data = Some rawEmail → helpers.isValidEmail (Some rawEmail) = true →
  tokenid data = Some rawToken → Token.isValidTokenId (Some rawToken) = true →
  tokens w !! Js.trim rawToken = None →
  User.get data w = (w, Some User.tokenError).
Proof.
  intros Hemail Hwell Htoken Hvalid Hnone.
  destruct (isValidTokenId_trim rawToken Hvalid) as [Hvalid' Hlen].
  unfold User.get. rewrite Hemail, Htoken. unfold User.isValidEmail. rewrite Hwell, Hvalid.
  cbn [fmap option_fmap option_map].
  rewrite (bind_run _ _ w w false); [reflexivity|].
  apply (Token_isValid_missing _ (Js.trim rawToken)); [|exact Hnone].
  rewrite Token_id_of_new by exact Hvalid'. rewrite trim_idem. reflexivity.
Qed.

(** X11.  [User.get] asks for a live token, not for the token of the user
    that it reads: with a well-formed email in the query and any live
    session, it answers 200 with the document of the user filed under the
    trimmed email, without the password, and leaves the users as they
    were.  (In the example the token of one user reads the account of
    another.) *)
Theorem User_get_answers_any_live_token
    (data : Request) (rawEmail rawToken : string) (doc : UserData) (w : World) :
  query_email data = Some rawEmail → helpers.isValidEmail (Some rawEmail) = true →
  tokenid data = Some rawToken → Token.isValidTokenId (Some rawToken) = true →
  session 3 (Js.trim rawToken) w →
  users w !! Js.trim rawEmail = Some doc →
  ∃ w' body,
    User.get data w = (w', Some (Some 200, UserJSON body)) ∧
    body = User.withoutPassword (User.toJSON (User.new doc)) ∧
    ud_password body = None ∧
    users w' = users w.
Proof.
  intros Hemail Hwell Htoken Hvalid Hsession Hdoc.
  destruct (User_get_session 0 data rawEmail rawToken doc w Hemail Hwell Htoken Hvalid Hsession Hdoc)
    as [w' [Hrun _]].
  exists w', (User.withoutPassword (User.toJSON (User.new doc))).
  split; [exact Hrun|]. split; [reflexivity|]. split; [reflexivity|].
  change w' with (w', Some (Some 200, UserJSON (User.withoutPassword (User.toJSON (User.new doc))))).1.
  rewrite <- Hrun. apply preserves_User_get; reflexivity.
Qed.

Lemma User_get_answers_any_live_token_witness :
  let w := Sample.world (Sample.token 5000000) {[ Sample.ann := Sample.annAccount ]} Sample.menu ∅ [] AjaxErr in
  let data := {| tokenid := Some Sample.session; query_email := Some Sample.ann;
                 payload := User.noPayload; stripeToken := None |} in
  tk_email <$> (tokens w !! Sample.session) = Some (Some Sample.joe) ∧
  ∃ w' body,
    User.get data w = (w', Some (Some 200, UserJSON body)) ∧
    body = User.withoutPassword (User.toJSON (User.new Sample.annAccount)) ∧
    ud_password body = None ∧
    users w' = users w.
Proof.
  intros w data. split; [vm_compute; reflexivity|].
  apply (User_get_answers_any_live_token data Sample.ann Sample.session Sample.annAccount w);
    try (vm_compute; reflexivity).
  sample_session.
Defined.

(** X12.  [User.put] with a well-formed email, something to update and a
    live session, on a user that is filed under that email, answers 200
    with the document that it stores under the same email: the email is
    the stored one, and each of the other fields is the one sent, trimmed,
    when the payload carries it, and the stored one otherwise; a password
    is stored as its digest. *)
Theorem User_put_updates_the_fields_sent
    (data : Request) (rawEmail rawToken : string) (doc : UserData) (w : World) :
  let p := payload data in
  ud_email p = Some rawEmail → helpers.isValidEmail (Some rawEmail) = true →
  carriesUpdate p = true →
  tokenid data = Some rawToken → Token.isValidTokenId (Some rawToken) = true →
  session 3 (Js.trim rawToken) w →
  users w !! Js.trim rawEmail = Some doc → ud_email doc = Some (Js.trim rawEmail) →
  ∃ w' stored,
    User.put data w = (w', Some (Some 200, UserJSON stored)) ∧
    users w' = <[Js.trim rawEmail := stored]> (users w) ∧
    ud_email stored = Some (Js.trim rawEmail) ∧
    ud_cart stored = Some (default (default [] (ud_cart doc)) (ud_cart p)) ∧
    ud_orders stored = Some (default (default [] (ud_orders doc)) (ud_orders p)) ∧
    ud_firstName stored =
      (if User.filled (ud_firstName p) is Some name then Some name
       else User.text (ud_firstName doc)) ∧
    ud_lastName stored =
      (if User.filled (ud_lastName p) is Some name then Some name
       else User.text (ud_lastName doc)) ∧
    ud_streetAddress stored =
      (if User.filled (ud_streetAddress p) is Some address then Some address
       else User.text (ud_streetAddress doc)) ∧
    (User.isValidPassword (ud_password p) = false →
     ud_password stored = ud_password (User.toJSON (User.new doc))) ∧
    (∀ password, ud_password p = Some password →
                 User.isValidPassword (Some password) = true →
                 isDigest (hmac w (Js.trim password)) = true →
                 ud_password stored = Some (hmac w (Js.trim password))).
Proof.
  intros p Hemail Hwell Hcarries Htoken Hvalid Hsession Hdoc Hfiled.
  destruct (User_put_session 0 data rawEmail rawToken doc w
              Hemail Hwell Hcarries Htoken Hvalid Hsession Hdoc Hfiled)
    as [w' [Hrun [Husers _]]].
  eexists w', _. split; [exact Hrun|]. split; [exact Husers|].
  fold p. unfold User.toJSON.
  cbn [ud_email ud_password ud_firstName ud_lastName ud_streetAddress ud_cart ud_orders].
  split.
  { rewrite (User_email_new _ (Js.trim rawEmail)); [rewrite trim_idem; reflexivity | exact Hfiled |].
    apply valid_email_trim, Hwell. }
  split.
  { unfold User.cart, User.new, updatedUser. cbn [User._cart ud_cart].
    destruct (ud_cart p); reflexivity. }
  split.
  { unfold User.orders, User.new, updatedUser. cbn [User._orders ud_orders].
    destruct (ud_orders p); reflexivity. }
  split.
  { unfold User.new, updatedUser. cbn [User._firstName ud_firstName].
    destruct (User.filled (ud_firstName p)) as [name|] eqn:E; [|reflexivity].
    apply (filled_nonempty _ _ E). }
  split.
  { unfold User.new, updatedUser. cbn [User._lastName ud_lastName].
    destruct (User.filled (ud_lastName p)) as [name|] eqn:E; [|reflexivity].
    apply (filled_nonempty _ _ E). }
  split.
  { unfold User.new, updatedUser. cbn [User._streetAddress ud_streetAddress].
    destruct (User.filled (ud_streetAddress p)) as [name|] eqn:E; [|reflexivity].
    apply (filled_nonempty _ _ E). }
  split.
  { intros Hnone. unfold User.password, User.new, updatedUser. cbn [User._password ud_password].
    rewrite Hnone. reflexivity. }
  intros password Hpassword Hstrong Hdigest.
  unfold User.password, User.new, updatedUser. cbn [User._password ud_password].
  rewrite Hpassword, Hstrong. cbn [fmap option_fmap option_map].
  rewrite strOrNull_nonempty.
  - apply (digest_password _ Hdigest).
  - unfold User.isValidPassword, helpers.isValidPassword in Hstrong.
    apply Nat.leb_le in Hstrong. lia.
Qed.

Lemma User_put_updates_the_fields_sent_witness :
  let w := Sample.hashing
             (Sample.world (Sample.token 5000000) (Sample.user [("pizza0000X", 2%float)])
                Sample.menu ∅ [] AjaxErr) in
  let data :=
    {| tokenid := Some Sample.session; query_email := None;
       payload := {| ud_email := Some " joe@pizza.com"; ud_password := Some "secret1";
                     ud_firstName := Some " Joseph "; ud_lastName := Some "  ";
                     ud_streetAddress := None; ud_cart := None;
                     ud_orders := Some [Some "k0000000orderorder01"] |};
       stripeToken := None |} in
  ∃ w' stored,
    User.put data w = (w', Some (Some 200, UserJSON stored)) ∧
    users w' = <[Sample.joe := stored]> (users w) ∧
    stored =
      {| ud_email := Some Sample.joe; ud_password := Some (Sample.digest "secret1");
         ud_firstName := Some "Joseph"; ud_lastName := Some "Doe";
         ud_streetAddress := Some "1 Main St";
         ud_cart := Some [("pizza0000X", 2%float)];
         ud_orders := Some [Some "k0000000orderorder01"] |}.
Proof.
  intros w data.
  destruct (User_put_updates_the_fields_sent data " joe@pizza.com" Sample.session
              (Sample.account [("pizza0000X", 2%float)]) w)
    as [w' [stored [Hrun [Husers _]]]]; try (vm_compute; reflexivity).
  { split;
      [ eexists; split; [vm_compute; reflexivity|]; split; [reflexivity|];
        intros n Hn; simpl in *; lia
      | intros i j Hi Hj; simpl in *; lia ]. }
  exists w', stored. split; [exact Hrun|]. split; [exact Husers|].
  assert (Hanswer : (User.put data w).2 = Some (Some 200, UserJSON stored))
    by (rewrite Hrun; reflexivity).
  vm_compute in Hanswer. injection Hanswer as <-. reflexivity.
Defined.

(** ** The cart *)



(** An item id that names no file of the catalog: nothing is read but
    the listing of the catalog. *)
Lemma addToCart_unlisted data itemId quantity w :
  match itemId with
  | Some key => helpers.isValidItemId itemId = true → items w !! key = None
  | None => True
  end →
  items w !! "" = None →
  User.addToCart data itemId quantity w =
  (w, Some (Some 500, ErrorMsg "Unable to load the list of items")).
Proof.
  intros Hitem Hblank. unfold User.addToCart.
  unfold bind at 1. unfold dataStore.list at 1. cbn [dataStore.contents itemsDir].
  rewrite bool_decide_eq_false_2; [reflexivity|].
  rewrite listed_files. unfold Item.isValidId.
  destruct itemId as [key|]; [destruct (helpers.isValidItemId (Some key)) eqn:E|]; simpl.
  - rewrite (Hitem eq_refl). intros [? H]; discriminate H.
  - rewrite Hblank. intros [? H]; discriminate H.
  - rewrite Hblank. intros [? H]; discriminate H.
Qed.







(** X16.  [User.addToCart] looks the item id up in the listing of the
    catalog before anything else: for an id that names no file of the
    catalog, and so for every id when the catalog is empty, the answer is
    500, "Unable to load the list of items", whatever the token and the
    user, and the world is left as it was.  The same holds for
    [User.removeFromCart]: an item that has left the catalog cannot be
    taken out of a cart. *)
Theorem cart_needs_a_catalog_item
    (data : Request) (itemId : string) (quantity : option float) (w : World) :
  items w !! itemId = None → items w !! "" = None →
  User.addToCart data (Some itemId) quantity w
    = (w, Some (Some 500, ErrorMsg "Unable to load the list of items")) ∧
  User.removeFromCart data (Some itemId) w
    = (w, Some (Some 500, ErrorMsg "Unable to load the list of items")).
Proof.
  intros Hitem Hblank.
  split; apply addToCart_unlisted; try exact Hblank; intros _; exact Hitem.
Qed.

Lemma cart_needs_a_catalog_item_witness :
  let w := Sample.world (Sample.token 5000000) (Sample.user [("pizza0000Q", 2%float)])
             Sample.menu ∅ [] AjaxErr in
  let data := Sample.checkoutRequest Sample.joe in
  User.addToCart data (Some "pizza0000Q") (Some 1%float) w
    = (w, Some (Some 500, ErrorMsg "Unable to load the list of items")) ∧
  User.removeFromCart data (Some "pizza0000Q") w
    = (w, Some (Some 500, ErrorMsg "Unable to load the list of items")).
Proof.
  intros w data.
  apply (cart_needs_a_catalog_item data "pizza0000Q" (Some 1%float) w); vm_compute; reflexivity.
Defined.

(** X17.  The cart handlers compare the email of the user that they have
    read, which is trimmed, with the email of the payload as it was sent:
    an email with surrounding white space, which [User.get] and
    [User.put] accept, is answered 400, "Could not update the specified
    user", and the users are left as they were. *)
Theorem cart_handlers_reject_a_padded_email
    (data : Request) (rawEmail rawToken itemId : string) (quantity : option float)
    (doc : UserData) (w : World) :
  ud_email (payload data) = Some rawEmail →
  helpers.isValidEmail (Some rawEmail) = true → Js.trim rawEmail ≠ rawEmail →
  tokenid data = Some rawToken → Token.isValidTokenId (Some rawToken) = true →
  session 3 (Js.trim rawToken) w →
  users w !! Js.trim rawEmail = Some doc → ud_email doc = Some (Js.trim rawEmail) →
  helpers.isValidItemId (Some itemId) = true → is_Some (items w !! itemId) →
  ∃ w',
    User.addToCart data (Some itemId) quantity w
      = (w', Some (Some 400, ErrorMsg "Could not update the specified user")) ∧
    User.emptyCart data w
      = (w', Some (Some 400, ErrorMsg "Could not update the specified user")) ∧
    users w' = users w.
Proof.
  intros Hemail Hwell Hpadded Htoken Hvalid Hsession Hdoc Hfiled Hitem Hlisted.
  destruct (User_get_session 0 {| tokenid := tokenid data; query_email := ud_email (payload data);
                                  payload := payload data; stripeToken := stripeToken data |}
              rawEmail rawToken doc w Hemail Hwell Htoken Hvalid Hsession Hdoc)
    as [w1 [Hget _]].
  assert (Hu1 : users w1 = users w).
  { change w1 with (w1, Some (Some 200, UserJSON (User.withoutPassword (User.toJSON (User.new doc))))).1.
    rewrite <- Hget. apply preserves_User_get; reflexivity. }
  set (user := User.new (User.withoutPassword (User.toJSON (User.new doc)))).
  assert (Huser : User.email user = Some (Js.trim rawEmail)).
  { unfold user. rewrite (User_email_new _ (Js.trim rawEmail));
      [rewrite trim_idem; reflexivity | | apply valid_email_trim, Hwell].
    simpl. rewrite (User_email_new doc (Js.trim rawEmail) Hfiled (valid_email_trim _ Hwell)).
    rewrite trim_idem. reflexivity. }
  assert (Hnot : User.sameEmail user (ud_email (payload data)) = false).
  { unfold User.sameEmail. rewrite Hemail, Huser. apply bool_decide_eq_false_2. congruence. }
  exists w1. split; [|split; [|exact Hu1]].
  - unfold User.addToCart.
    unfold bind at 1. unfold dataStore.list at 1. cbn [dataStore.contents itemsDir].
    unfold Item.isValidId. rewrite Hitem. cbn [default from_option id].
    rewrite bool_decide_eq_true_2 by (apply listed_files, Hlisted).
    unfold User.getByPayload. rewrite (bind_run _ _ _ _ _ Hget). cbn [is200 Z.eqb Pos.eqb].
    fold user. rewrite Hnot. reflexivity.
  - unfold User.emptyCart, User.getByPayload.
    rewrite (bind_run _ _ _ _ _ Hget). cbn [is200 Z.eqb Pos.eqb].
    fold user. rewrite Hnot. reflexivity.
Qed.

Lemma cart_handlers_reject_a_padded_email_witness :
  let w := Sample.world (Sample.token 5000000) (Sample.user [("pizza0000X", 2%float)])
             Sample.menu ∅ [] AjaxErr in
  let data := Sample.checkoutRequest "joe@pizza.com " in
  ∃ w',
    User.addToCart data (Some "pizza0000A") (Some 1%float) w
      = (w', Some (Some 400, ErrorMsg "Could not update the specified user")) ∧
    User.emptyCart data w
      = (w', Some (Some 400, ErrorMsg "Could not update the specified user")) ∧
    users w' = users w.
Proof.
  intros w data.
  apply (cart_handlers_reject_a_padded_email data "joe@pizza.com " Sample.session "pizza0000A"
           (Some 1%float) (Sample.account [("pizza0000X", 2%float)]) w);
    try (vm_compute; reflexivity).
  - vm_compute. discriminate.
  - sample_session.
  - vm_compute. eauto.
Defined.

(** ** Signing up, logging in and out *)

(** A login with the right password. *)
Lemma Token_post_run rawEmail rawPassword doc tokenId w w1 :
  helpers.isValidEmail (Some rawEmail) = true →
  helpers.isValidPassword (Some rawPassword) = true →
  users w !! Js.trim rawEmail = Some doc →
  ud_password doc = Some (hmac w (Js.trim rawPassword)) →
  Token.createUniqueId w = (w1, Some tokenId) →
  Token.isValidTokenId (Some tokenId) = true → Js.trim tokenId = tokenId →
  tokens w !! tokenId = None →
  let token :=
    {| tk_email := Some (Js.trim rawEmail); tk_id := Some tokenId;
       tk_expiration := Js.numOrNull (Some (clock w (ticks w) + 1000 * 60 * 60)) |} in
  Token.post (Some rawEmail) (Some rawPassword) w =
  (set_tokens (<[tokenId := token]> (tokens w)) (tick w1), Some (Some 200, TokenJSON token)).
Proof.
  intros Hemail Hpassword Hdoc Hhash Hid Hvalid Htrim Hfresh token.
  assert (Hw1 : tokens w1 = tokens w ∧ clock w1 = clock w ∧ ticks w1 = ticks w).
  { change w1 with (w1, Some tokenId).1. rewrite <- Hid. unfold Token.createUniqueId.
    repeat split; apply preserves_createRandomString; reflexivity. }
  destruct Hw1 as [Ht1 [Hc1 Hk1]].
  unfold Token.post. unfold Token.isValidUserId, Token.isValidPassword.
  rewrite Hemail, Hpassword. cbn [fmap option_fmap option_map].
  unfold bind at 1. unfold dataStore.read at 1. cbn [dataStore.contents usersDir].
  rewrite Hdoc.
  unfold bind at 1. unfold helpers.hash at 1. unfold gets at 1.
  rewrite (valid_password_trim _ Hpassword).
  rewrite bool_decide_eq_true_2 by eauto. rewrite Hhash, strictEq_refl. cbn [andb].
  rewrite (bind_run _ _ _ _ _ Hid).
  unfold bind at 1. unfold Date_now at 1.
  assert (Htoken : Token.toJSON
                     (Token.new {| tk_email := Some (Js.trim rawEmail); tk_id := Some tokenId;
                                   tk_expiration := Some (clock w1 (ticks w1) + 1000 * 60 * 60) |})
                   = token).
  { unfold Token.toJSON, token. f_equal.
    - rewrite Token_email_of_new by (apply valid_email_trim, Hemail).
      rewrite trim_idem. reflexivity.
    - rewrite Token_id_of_new by exact Hvalid. rewrite Htrim. reflexivity.
    - rewrite Hc1, Hk1. reflexivity. }
  rewrite Htoken.
  unfold bind, dataStore.create. cbn [dataStore.contents dataStore.replace tokensDir].
  change (tokens (tick w1)) with (tokens w1). rewrite Ht1, Hfresh. reflexivity.
Qed.

(** What [Token.post] does when the password is not the stored one, or
    the user is unknown. *)
Lemma Token_post_refused email password w :
  (∀ rawEmail rawPassword doc,
      email = Some rawEmail → password = Some rawPassword →
      users w !! Js.trim rawEmail = Some doc →
      ud_password doc ≠ Some (hmac w (Js.trim rawPassword))) →
  ∃ status message,
    Token.post email password w = (w, Some (Some status, Plain (errorMsg message))) ∧
    status ≠ 200.
Proof.
  intros Hwrong. unfold Token.post.
  destruct (if Token.isValidUserId email then _ else _) as [email'|] eqn:He;
    [|eexists _, _; split; [reflexivity | discriminate]].
  destruct (if Token.isValidPassword password then _ else _) as [password'|] eqn:Hp;
    [|eexists _, _; split; [reflexivity | discriminate]].
  destruct email as [rawEmail|]; [|destruct (Token.isValidUserId None); discriminate He].
  destruct password as [rawPassword|]; [|destruct (Token.isValidPassword None); discriminate Hp].
  destruct (Token.isValidUserId (Some rawEmail)); [|discriminate He].
  destruct (Token.isValidPassword (Some rawPassword)) eqn:Hvalid; [|discriminate Hp].
  injection He as <-. injection Hp as <-.
  unfold bind at 1. unfold dataStore.read at 1. cbn [dataStore.contents usersDir].
  destruct (users w !! Js.trim rawEmail) as [doc|] eqn:Hdoc;
    [|eexists _, _; split; [reflexivity | discriminate]].
  unfold bind at 1. unfold helpers.hash at 1. unfold gets at 1.
  rewrite (valid_password_trim _ Hvalid).
  rewrite bool_decide_eq_true_2 by eauto. cbn [andb].
  unfold strictEq. rewrite bool_decide_eq_false_2.
  - eexists _, _; split; [reflexivity | discriminate].
  - intros Heq. apply (Hwrong rawEmail rawPassword doc eq_refl eq_refl Hdoc). symmetry. exact Heq.
Qed.

(** Signing up with an email that is not taken. *)
Lemma User_post_run p tosAgreement rawEmail rawPassword firstName lastName w :
  ud_email p = Some rawEmail → helpers.isValidEmail (Some rawEmail) = true →
  ud_password p = Some rawPassword → helpers.isValidPassword (Some rawPassword) = true →
  User.filled (ud_firstName p) = Some firstName →
  User.filled (ud_lastName p) = Some lastName →
  tosAgreement = Some true →
  users w !! Js.trim rawEmail = None →
  isDigest (hmac w (Js.trim rawPassword)) = true →
  let stored :=
    {| ud_email := Some (Js.trim rawEmail);
       ud_password := Some (hmac w (Js.trim rawPassword));
       ud_firstName := Some firstName; ud_lastName := Some lastName;
       ud_streetAddress := User.text (ud_streetAddress p);
       ud_cart := Some []; ud_orders := Some [] |} in
  User.post p tosAgreement w =
  (set_users (<[Js.trim rawEmail := stored]> (users w)) w, Some (Some 200, UserJSON stored)).
Proof.
  intros Hemail Hwell Hpassword Hstrong Hfirst Hlast -> Hfree Hdigest stored.
  unfold User.post. rewrite Hemail, Hpassword, Hfirst, Hlast.
  unfold User.isValidEmail, User.isValidPassword. rewrite Hwell, Hstrong.
  cbn [fmap option_fmap option_map default from_option id].
  unfold bind at 1. unfold dataStore.read at 1. cbn [dataStore.contents usersDir].
  rewrite Hfree.
  unfold bind at 1. unfold helpers.hash at 1. unfold gets at 1.
  rewrite (valid_password_trim _ Hstrong).
  assert (Hlen : String.length (hmac w (Js.trim rawPassword)) = 64%nat).
  { apply andb_true_iff in Hdigest as [Hlen _]. apply Nat.eqb_eq, Hlen. }
  rewrite strOrNull_nonempty by (rewrite Hlen; discriminate).
  set (built := User.toJSON _).
  assert (Hbuilt : built = stored).
  { unfold built, stored, User.toJSON. f_equal.
    - rewrite (User_email_new _ (Js.trim rawEmail)); [rewrite trim_idem; reflexivity | reflexivity |].
      apply valid_email_trim, Hwell.
    - apply (digest_password _ Hdigest).
    - cbn [User._firstName User.new ud_firstName]. apply (filled_nonempty _ _ Hfirst).
    - cbn [User._lastName User.new ud_lastName]. apply (filled_nonempty _ _ Hlast).
    - cbn [User._streetAddress User.new ud_streetAddress]. unfold User.text.
      destruct (ud_streetAddress p); [rewrite trim_idem|]; reflexivity. }
  rewrite Hbuilt.
  unfold bind, dataStore.create. cbn [dataStore.contents dataStore.replace usersDir].
  rewrite Hfree. reflexivity.
Qed.

Lemma keepsUsers_ret {A} (a : A) : keepsUsers (ret a).
Proof. intros w. reflexivity. Qed.

Lemma keepsUsers_bind {A C} (m : M A) (k : A → M C) :
  keepsUsers m → (∀ a, keepsUsers (k a)) → keepsUsers (bind m k).
Proof.
  intros Hm Hk w. unfold bind. specialize (Hm w).
  destruct (m w) as [w1 [a|]]; [|exact Hm].
  etransitivity; [exact Hm | apply Hk].
Qed.

Lemma keepsUsers_of_preserves {A} (m : M A) : preserves users m → keepsUsers m.
Proof. intros Hm w. rewrite Hm. reflexivity. Qed.

Lemma keepsUsers_create file doc : keepsUsers (dataStore.create usersDir file doc).
Proof.
  intros w. unfold dataStore.create. cbn [dataStore.contents dataStore.replace usersDir].
  destruct (users w !! file) eqn:Hfile; [reflexivity|].
  cbn [fst users set_users]. apply insert_subseteq, Hfile.
Qed.

Lemma keepsUsers_User_post p tosAgreement : keepsUsers (User.post p tosAgreement).
Proof.
  unfold User.post.
  repeat match goal with
         | |- keepsUsers (ret _) => apply keepsUsers_ret
         | |- keepsUsers (bind (dataStore.read _ _) _) =>
             apply keepsUsers_bind; [apply keepsUsers_of_preserves, preserves_read | intros]
         | |- keepsUsers (bind (helpers.hash _) _) =>
             apply keepsUsers_bind; [apply keepsUsers_of_preserves, preserves_gets | intros]
         | |- keepsUsers (bind (dataStore.create _ _ _) _) =>
             apply keepsUsers_bind; [apply keepsUsers_create | intros]
         | |- keepsUsers (match ?x with _ => _ end) => destruct x
         end.
Qed.

(** The identifier that the generator hands over depends on the registry
    and on the candidates only. *)
Lemma createUniqueId_next sId rest w :
  helpers.draw (IDs w) (candidates w) = Some (sId, rest) →
  Token.createUniqueId w = (set_registry ({[ sId ]} ∪ IDs w) rest w, Some (Js.substr 1 sId)).
Proof.
  intros Hdraw. unfold Token.createUniqueId, helpers.createRandomString. rewrite Hdraw.
  reflexivity.
Qed.

(** X18.  [User.post] never removes or changes a stored user.  With the
    required fields, the terms of service agreed to and an email that is
    not taken, it answers 200 with the document that it files under the
    trimmed email: the password is stored as its digest, the names
    trimmed, the orders empty, and the cart empty whatever dictionary was
    sent as a cart. *)
Theorem signup_files_a_new_user :
  (∀ p tosAgreement w, users w ⊆ users (User.post p tosAgreement w).1) ∧
  (∀ (p : UserData) (rawEmail rawPassword firstName lastName : string) (w : World),
      ud_email p = Some rawEmail → helpers.isValidEmail (Some rawEmail) = true →
      ud_password p = Some rawPassword → helpers.isValidPassword (Some rawPassword) = true →
      User.filled (ud_firstName p) = Some firstName →
      User.filled (ud_lastName p) = Some lastName →
      users w !! Js.trim rawEmail = None →
      isDigest (hmac w (Js.trim rawPassword)) = true →
      let stored :=
        {| ud_email := Some (Js.trim rawEmail);
           ud_password := Some (hmac w (Js.trim rawPassword));
           ud_firstName := Some firstName; ud_lastName := Some lastName;
           ud_streetAddress := User.text (ud_streetAddress p);
           ud_cart := Some []; ud_orders := Some [] |} in
      User.post p (Some true) w =
      (set_users (<[Js.trim rawEmail := stored]> (users w)) w,
       Some (Some 200, UserJSON stored))).
Proof.
  split; [exact keepsUsers_User_post|].
  intros p rawEmail rawPassword firstName lastName w
    Hemail Hwell Hpassword Hstrong Hfirst Hlast Hfree Hdigest.
  exact (User_post_run p (Some true) rawEmail rawPassword firstName lastName w
           Hemail Hwell Hpassword Hstrong Hfirst Hlast eq_refl Hfree Hdigest).
Qed.

Lemma signup_files_a_new_user_witness :
  let w := Sample.hashing
             (Sample.world ∅ (Sample.user []) Sample.menu ∅ ["kq1x2y3zabcdefghijklm"] AjaxErr) in
  let stored :=
    {| ud_email := Some Sample.ann; ud_password := Some (Sample.digest "secret1");
       ud_firstName := Some "Ann"; ud_lastName := Some "Lee";
       ud_streetAddress := Some ""; ud_cart := Some []; ud_orders := Some [] |} in
  User.post Sample.signup (Some true) w =
  (set_users (<[Sample.ann := stored]> (users w)) w, Some (Some 200, UserJSON stored)).
Proof.
  intros w stored.
  apply (proj2 signup_files_a_new_user Sample.signup " ann@pizza.com " "secret1" "Ann" "Lee" w);
    vm_compute; reflexivity.
Defined.

(** X19.  A login with the password whose digest is stored: once the
    generator has handed over an identifier that is a well-formed token
    id and names no token yet, [User.login] answers 200 with the token
    that it files under that id; the token carries the trimmed email and
    expires an hour after the reading of the clock, so that it opens a
    session for the readings that lie within the hour of each other. *)
Theorem login_opens_a_session
    (rawEmail rawPassword tokenId : string) (doc : UserData) (w w1 : World) (readings : nat) :
  helpers.isValidEmail (Some rawEmail) = true →
  helpers.isValidPassword (Some rawPassword) = true →
  users w !! Js.trim rawEmail = Some doc →
  ud_password doc = Some (hmac w (Js.trim rawPassword)) →
  Token.createUniqueId w = (w1, Some tokenId) →
  Token.isValidTokenId (Some tokenId) = true → Js.trim tokenId = tokenId →
  tokens w !! tokenId = None →
  (∀ i j, (ticks w ≤ i ≤ ticks w + readings)%nat → (ticks w ≤ j ≤ ticks w + readings)%nat →
          clock w j < clock w i + 1000 * 60 * 60) →
  ∃ w' token,
    User.login (Some rawEmail) (Some rawPassword) w = (w', Some (Some 200, TokenJSON token)) ∧
    tokens w' = <[tokenId := token]> (tokens w) ∧
    tk_email token = Some (Js.trim rawEmail) ∧
    tk_id token = Some tokenId ∧
    default 0 (tk_expiration token) = clock w (ticks w) + 1000 * 60 * 60 ∧
    session readings tokenId w'.
Proof.
  intros Hemail Hpassword Hdoc Hhash Hid Hvalid Htrim Hfresh Hsteady.
  pose proof (Token_post_run rawEmail rawPassword doc tokenId w w1
                Hemail Hpassword Hdoc Hhash Hid Hvalid Htrim Hfresh) as Hrun.
  cbv zeta in Hrun.
  assert (Hw1 : clock w1 = clock w ∧ ticks w1 = ticks w).
  { change w1 with (w1, Some tokenId).1. rewrite <- Hid. unfold Token.createUniqueId.
    split; apply preserves_createRandomString; reflexivity. }
  destruct Hw1 as [Hc1 Hk1].
  eexists _, _. split; [exact Hrun|]. split; [reflexivity|]. split; [reflexivity|].
  split; [reflexivity|]. split; [apply default_numOrNull|].
  split.
  - eexists. split; [apply lookup_insert_eq|]. split; [reflexivity|].
    intros n Hn. cbn [tk_expiration]. rewrite default_numOrNull.
    cbn [clock ticks set_tokens tick default from_option id] in *. rewrite Hc1, Hk1 in *.
    apply Hsteady; lia.
  - intros i j Hi Hj. cbn [clock ticks set_tokens tick] in *. rewrite Hc1, Hk1 in *.
    apply Hsteady; lia.
Qed.

Lemma login_opens_a_session_witness :
  let w := Sample.world ∅ {[ Sample.ann := Sample.annAccount ]} Sample.menu ∅
             ["kq1x2y3zabcdefghijklm"] AjaxErr in
  ∃ w' token,
    User.login (Some " ann@pizza.com") (Some "fedcba9876543210 ") w
      = (w', Some (Some 200, TokenJSON token)) ∧
    tokens w' = <[ "q1x2y3zabcdefghijklm" := token ]> (tokens w) ∧
    tk_email token = Some Sample.ann ∧
    tk_id token = Some "q1x2y3zabcdefghijklm" ∧
    default 0 (tk_expiration token) = 3601000 ∧
    session 6 "q1x2y3zabcdefghijklm" w'.
Proof.
  intros w.
  apply (login_opens_a_session " ann@pizza.com" "fedcba9876543210 " "q1x2y3zabcdefghijklm"
           Sample.annAccount w (Token.createUniqueId w).1 6);
    try (vm_compute; reflexivity).
  intros i j Hi Hj. simpl in *. lia.
Defined.

(** X20.  [Token.post] files a token, or answers 200, only when the
    digest of the password sent is the stored password of the user filed
    under the email sent. *)
Theorem login_checks_the_password (email password : option string) (w : World) :
  (∃ body, (Token.post email password w).2 = Some (Some 200, body)) ∨
  tokens (Token.post email password w).1 ≠ tokens w →
  ∃ rawEmail rawPassword doc,
    email = Some rawEmail ∧ password = Some rawPassword ∧
    users w !! Js.trim rawEmail = Some doc ∧
    ud_password doc = Some (hmac w (Js.trim rawPassword)).
Proof.
  intros Hdone.
  assert (Hkey : (∀ rawEmail rawPassword doc,
                     email = Some rawEmail → password = Some rawPassword →
                     users w !! Js.trim rawEmail = Some doc →
                     ud_password doc ≠ Some (hmac w (Js.trim rawPassword))) → False).
  { intros Hwrong.
    destruct (Token_post_refused email password w Hwrong) as [status [message [Hrun Hstatus]]].
    rewrite Hrun in Hdone. destruct Hdone as [[body Hbody] | Hchanged].
    - injection Hbody as Hs _. congruence.
    - apply Hchanged. reflexivity. }
  destruct email as [rawEmail|]; [|exfalso; apply Hkey; intros; congruence].
  destruct password as [rawPassword|]; [|exfalso; apply Hkey; intros; congruence].
  destruct (users w !! Js.trim rawEmail) as [doc|] eqn:Hdoc;
    [|exfalso; apply Hkey; intros; congruence].
  destruct (decide (ud_password doc = Some (hmac w (Js.trim rawPassword)))) as [Hsame|Hwrong];
    [eauto 10|].
  exfalso. apply Hkey. intros ? ? ? [= <-] [= <-] Hdoc'. congruence.
Qed.

Lemma login_checks_the_password_witness :
  let w := Sample.world ∅ {[ Sample.ann := Sample.annAccount ]} Sample.menu ∅
             ["kq1x2y3zabcdefghijklm"] AjaxErr in
  ∃ rawEmail rawPassword doc,
    Some Sample.ann = Some rawEmail ∧ Some "fedcba9876543210" = Some rawPassword ∧
    users w !! Js.trim rawEmail = Some doc ∧
    ud_password doc = Some (hmac w (Js.trim rawPassword)).
Proof.
  intros w. apply (login_checks_the_password (Some Sample.ann) (Some "fedcba9876543210") w).
  left. eexists. vm_compute. reflexivity.
Defined.

(** X21.  Signing up and then logging in with the same email and
    password: the digest that [User.post] has stored is the one that
    [Token.post] computes, so the login is answered 200 with a token for
    the trimmed email, under the identifier that the generator hands
    over. *)
Theorem signup_then_login
    (p : UserData) (rawEmail rawPassword firstName lastName sId : string)
    (rest : list string) (w : World) :
  ud_email p = Some rawEmail → helpers.isValidEmail (Some rawEmail) = true →
  ud_password p = Some rawPassword → helpers.isValidPassword (Some rawPassword) = true →
  User.filled (ud_firstName p) = Some firstName →
  User.filled (ud_lastName p) = Some lastName →
  users w !! Js.trim rawEmail = None →
  isDigest (hmac w (Js.trim rawPassword)) = true →
  helpers.draw (IDs w) (candidates w) = Some (sId, rest) →
  let tokenId := Js.substr 1 sId in
  Token.isValidTokenId (Some tokenId) = true → Js.trim tokenId = tokenId →
  tokens w !! tokenId = None →
  ∃ w1 w2 user token,
    User.post p (Some true) w = (w1, Some (Some 200, UserJSON user)) ∧
    User.login (ud_email p) (ud_password p) w1 = (w2, Some (Some 200, TokenJSON token)) ∧
    tk_email token = ud_email user ∧ tk_id token = Some tokenId ∧
    tokens w2 !! tokenId = Some token.
Proof.
  intros Hemail Hwell Hpassword Hstrong Hfirst Hlast Hfree Hdigest Hdraw tokenId
    Hvalid Htrim Hfresh.
  pose proof (User_post_run p (Some true) rawEmail rawPassword firstName lastName w
                Hemail Hwell Hpassword Hstrong Hfirst Hlast eq_refl Hfree Hdigest) as Hpost.
  cbv zeta in Hpost.
  set (stored := {| ud_email := Some (Js.trim rawEmail) |}) in Hpost.
  set (w1 := set_users _ w) in Hpost.
  pose proof (Token_post_run rawEmail rawPassword stored tokenId w1
                (set_registry ({[ sId ]} ∪ IDs w1) rest w1)
                Hwell Hstrong ltac:(apply lookup_insert_eq) eq_refl
                (createUniqueId_next sId rest w1 Hdraw) Hvalid Htrim Hfresh) as Hlogin.
  cbv zeta in Hlogin.
  eexists w1, _, stored, _. split; [exact Hpost|].
  split; [rewrite Hemail, Hpassword; exact Hlogin|].
  split; [reflexivity|]. split; [reflexivity|].
  cbn [tokens set_tokens]. apply lookup_insert_eq.
Qed.

Lemma signup_then_login_witness :
  let w := Sample.hashing
             (Sample.world ∅ (Sample.user []) Sample.menu ∅ ["kq1x2y3zabcdefghijklm"] AjaxErr) in
  ∃ w1 w2 user token,
    User.post Sample.signup (Some true) w = (w1, Some (Some 200, UserJSON user)) ∧
    User.login (ud_email Sample.signup) (ud_password Sample.signup) w1
      = (w2, Some (Some 200, TokenJSON token)) ∧
    tk_email token = ud_email user ∧ tk_id token = Some "q1x2y3zabcdefghijklm" ∧
    tokens w2 !! "q1x2y3zabcdefghijklm" = Some token.
Proof.
  intros w.
  apply (signup_then_login Sample.signup " ann@pizza.com " "secret1" "Ann" "Lee"
           "kq1x2y3zabcdefghijklm" [] w); vm_compute; reflexivity.
Defined.

(** X22.  [User.logout] with the id of a token that is filed under it
    answers 200 and deletes that token and no other; from then on
    [User.get] with that token is answered 403 and changes nothing. *)
Theorem logout_ends_the_session (rawToken : string) (doc : TokenData) (w : World) :
  Token.isValidTokenId (Some rawToken) = true →
  tokens w !! Js.trim rawToken = Some doc → tk_id doc = Some (Js.trim rawToken) →
  ∃ w', User.logout (Some rawToken) w = (w', Some (Some 200, Undefined)) ∧
        tokens w' = delete (Js.trim rawToken) (tokens w) ∧
        users w' = users w ∧
        ∀ data rawEmail,
          tokenid data = Some rawToken →
          query_email data = Some rawEmail → helpers.isValidEmail (Some rawEmail) = true →
          User.get data w' = (w', Some User.tokenError).
Proof.
  intros Hvalid Hdoc Hdocid.
  eexists. split; [apply (Token_delete_run rawToken doc w Hvalid Hdoc Hdocid)|].
  split; [reflexivity|]. split; [reflexivity|].
  intros data rawEmail Htoken Hemail Hwell.
  apply (User_get_without_token data rawEmail rawToken _ Hemail Hwell Htoken Hvalid).
  cbn [tokens set_tokens]. apply lookup_delete_eq.
Qed.

Lemma logout_ends_the_session_witness :
  let w := Sample.world (Sample.token 5000000) (Sample.user []) Sample.menu ∅ [] AjaxErr in
  ∃ w', User.logout (Some " tokentokentokentoken ") w = (w', Some (Some 200, Undefined)) ∧
        tokens w' = delete Sample.session (tokens w) ∧
        users w' = users w ∧
        ∀ data rawEmail,
          tokenid data = Some " tokentokentokentoken " →
          query_email data = Some rawEmail → helpers.isValidEmail (Some rawEmail) = true →
          User.get data w' = (w', Some User.tokenError).
Proof.
  intros w.
  apply (logout_ends_the_session " tokentokentokentoken "
           {| tk_email := Some Sample.joe; tk_id := Some Sample.session;
              tk_expiration := Some 5000000 |} w); vm_compute; reflexivity.
Defined.

(** ** Deleting a user *)









(** ** Stored documents *)

(** An identifier or an email as a getter hands it out is kept by the setter. *)
Lemma kept_by_setter (valid : option string → bool) (raw : option string) :
  (∀ s, valid (Some s) = valid (Some (Js.trim s))) → valid None = false →
  let held := Js.strOrNull (if valid raw then Js.trim <$> raw else None) in
  Js.strOrNull (if valid held then Js.trim <$> held else None) = held.
Proof.
  intros Htrim Hnone held. unfold held.
  destruct raw as [s|]; [|rewrite Hnone; simpl; rewrite Hnone; reflexivity].
  destruct (valid (Some s)) eqn:E; [|simpl; rewrite Hnone; reflexivity].
  cbn [fmap option_fmap option_map].
  destruct (Js.trim s) as [|c r] eqn:Hs; [simpl; rewrite Hnone; reflexivity|].
  cbn [Js.strOrNull]. rewrite <- Hs, <- Htrim, E.
  cbn [fmap option_fmap option_map]. rewrite trim_idem, Hs. reflexivity.
Qed.

Lemma isValidEmail_trim s : helpers.isValidEmail (Some s) = helpers.isValidEmail (Some (Js.trim s)).
Proof. unfold helpers.isValidEmail. rewrite trim_idem. reflexivity. Qed.

Lemma isValidPassword_trim s :
  helpers.isValidPassword (Some s) = helpers.isValidPassword (Some (Js.trim s)).
Proof. unfold helpers.isValidPassword. rewrite trim_idem. reflexivity. Qed.

Lemma isValidOrderId_trim s :
  helpers.isValidOrderId (Some s) = helpers.isValidOrderId (Some (Js.trim s)).
Proof. unfold helpers.isValidOrderId. rewrite trim_idem. reflexivity. Qed.

Lemma isValidItemId_trim s :
  helpers.isValidItemId (Some s) = helpers.isValidItemId (Some (Js.trim s)).
Proof. unfold helpers.isValidItemId. rewrite trim_idem. reflexivity. Qed.

Lemma isValidTokenId_trim' s :
  Token.isValidTokenId (Some s) = Token.isValidTokenId (Some (Js.trim s)).
Proof. unfold Token.isValidTokenId. rewrite trim_idem. reflexivity. Qed.

Lemma numOrNull_idem x : Js.numOrNull (Js.numOrNull x) = Js.numOrNull x.
Proof.
  unfold Js.numOrNull. destruct x as [x|]; [|reflexivity].
  destruct (Js.truthyZ x) eqn:E; [rewrite E|]; reflexivity.
Qed.

(** The fields of a new token, read through the getters. *)
Lemma Token_new_fields d :
  Token.toJSON (Token.new d) =
  {| tk_email := Js.strOrNull (if Token.isValidUserId (tk_email d)
                               then Js.trim <$> tk_email d else None);
     tk_id := Js.strOrNull (if Token.isValidTokenId (tk_id d)
                            then Js.trim <$> tk_id d else None);
     tk_expiration := Js.numOrNull (tk_expiration d) |}.
Proof.
  unfold Token.toJSON, Token.email, Token.id, Token.expiration, Token.new,
    Token.set_expiration, Token.set_id, Token.set_email.
  destruct (Token.isValidUserId (tk_email d)), (Token.isValidTokenId (tk_id d)); reflexivity.
Qed.

Lemma Token_stored_fixed d :
  Token.toJSON (Token.new (Token.toJSON (Token.new d))) = Token.toJSON (Token.new d).
Proof.
  rewrite (Token_new_fields d), Token_new_fields. cbn [tk_email tk_id tk_expiration]. f_equal.
  - apply (kept_by_setter Token.isValidUserId (tk_email d) isValidEmail_trim eq_refl).
  - apply (kept_by_setter Token.isValidTokenId (tk_id d) isValidTokenId_trim' eq_refl).
  - apply numOrNull_idem.
Qed.

Lemma text_idem value : User.text (User.text value) = User.text value.
Proof. unfold User.text. destruct value; [rewrite trim_idem|]; reflexivity. Qed.

Lemma User_stored_fixed d :
  User.toJSON (User.new (User.toJSON (User.new d))) = User.toJSON (User.new d).
Proof.
  unfold User.toJSON, User.email, User.password, User.cart, User.orders, User.new.
  cbn [User._email User._password User._firstName User._lastName User._streetAddress
         User._cart User._orders ud_email ud_password ud_firstName ud_lastName
         ud_streetAddress ud_cart ud_orders].
  f_equal.
  - apply (kept_by_setter Token.isValidUserId (ud_email d) isValidEmail_trim eq_refl).
  - apply (kept_by_setter User.isValidPassword (ud_password d) isValidPassword_trim eq_refl).
  - apply text_idem.
  - apply text_idem.
  - apply text_idem.
Qed.

Lemma Item_text_idem value : Item.text (Item.text value) = Item.text value.
Proof. unfold Item.text. destruct value; [rewrite trim_idem|]; reflexivity. Qed.

(** A positive number is truthy. *)
Lemma positive_truthy x : PrimFloat.ltb 0%float x = true → Js.truthyF x = true.
Proof.
  unfold Js.truthyF, PrimFloat.is_nan.
  rewrite FloatAxioms.ltb_spec, !FloatAxioms.eqb_spec.
  unfold SpecFloat.SFltb, SpecFloat.SFeqb.
  change (Prim2SF 0%float) with (SpecFloat.S754_zero false).
  destruct (Prim2SF x) as [[]|[]| |[] m e]; simpl; try congruence.
  intros _. rewrite Z.compare_refl, Pos.compare_cont_refl. reflexivity.
Qed.

Lemma Item_unitPrice_new d :
  Item.unitPrice (Item.new d) =
  if Item.isValidPrice (it_unitPrice d) then default 0%float (it_unitPrice d) else 0%float.
Proof.
  unfold Item.unitPrice, Item.new. cbn [Item._unitPrice].
  destruct (Item.isValidPrice (it_unitPrice d)) eqn:Hvalid; [|reflexivity].
  destruct (it_unitPrice d) as [x|]; [|discriminate Hvalid].
  simpl in *. rewrite (positive_truthy x Hvalid). reflexivity.
Qed.

Lemma Item_stored_fixed d :
  Item.toJSON (Item.new (Item.toJSON (Item.new d))) = Item.toJSON (Item.new d).
Proof.
  unfold Item.toJSON at 1 3. f_equal.
  - unfold Item.id, Item.toJSON, Item.new. cbn [Item._id it_id].
    apply (kept_by_setter Item.isValidId (it_id d) isValidItemId_trim eq_refl).
  - apply Item_text_idem.
  - apply Item_text_idem.
  - apply Item_text_idem.
  - f_equal. rewrite Item_unitPrice_new. unfold Item.toJSON. cbn [it_unitPrice default from_option id].
    destruct (Item.isValidPrice (Some (Item.unitPrice (Item.new d)))) eqn:E; [reflexivity|].
    rewrite Item_unitPrice_new in *.
    destruct (Item.isValidPrice (it_unitPrice d)) eqn:Hvalid; [|reflexivity].
    destruct (it_unitPrice d) as [x|]; [|discriminate Hvalid].
    simpl in *. congruence.
Qed.

(** The fields of a new order, read through the getters. *)
Lemma Order_constructed_fields d now :
  Order.toJSON (constructed d now) =
  {| od_id := Js.strOrNull (if Order.isValidOrderId (od_id d) then Js.trim <$> od_id d else None);
     od_email := Js.strOrNull (if Order.isValidEmail (od_email d)
                               then Js.trim <$> od_email d else None);
     od_createdOn := Some now;
     od_completedOn :=
       match od_completedOn d with
       | Some c => if now <=? c then Some c else None
       | None => None
       end;
     od_paymentInfo := od_paymentInfo d;
     od_total :=
       Some (match od_total d with
             | Some x => if PrimFloat.leb 0 x then x else 0%float
             | None => 0%float
             end);
     od_items :=
       Some (if forallb (λ key, Item.isValidId (Some key)) (Js.keys (default [] (od_items d)))
             then default [] (od_items d) else []) |}.
Proof.
  unfold Order.toJSON. f_equal.
  - unfold constructed. rewrite id_set_items, id_set_total, id_set_paymentInfo,
      id_set_completedOn, id_set_createdOn, id_set_email.
    unfold Order.id, Order.set_id. destruct (Order.isValidOrderId (od_id d)); reflexivity.
  - unfold constructed, Order.email, Order.set_items, Order.set_total, Order.set_paymentInfo,
      Order.set_completedOn, Order.set_createdOn, Order.set_email, Order.set_id.
    repeat match goal with
           | |- context [match ?x with _ => _ end] => destruct x eqn:?
           end; reflexivity.
  - apply createdOn_of_constructed.
  - apply completedOn_of_constructed.
  - unfold constructed, Order.paymentInfo, Order.set_items, Order.set_total, Order.set_paymentInfo.
    repeat match goal with
           | |- context [match ?x with _ => _ end] => destruct x eqn:?
           end; reflexivity.
  - unfold constructed, Order.total, Order.set_items. cbn [Order._total].
    destruct (od_total d) as [x|]; [destruct (PrimFloat.leb 0 x) eqn:E|].
    + unfold Order.set_total. rewrite E. reflexivity.
    + reflexivity.
    + reflexivity.
  - unfold constructed, Order.items, Order.set_items. cbn [Order._items].
    destruct (forallb _ _); [reflexivity|].
    match goal with
    | |- context [Order._items ?this] => change (Order._items this) with (Order.items this)
    end.
    rewrite items_set_total, items_set_paymentInfo, items_set_completedOn,
      items_set_createdOn, items_set_email, items_set_id.
    reflexivity.
Qed.

Lemma float_leb_zero : PrimFloat.leb 0%float 0%float = true.
Proof. reflexivity. Qed.

Lemma Order_stored_fixed d now :
  Order.toJSON (constructed (Order.toJSON (constructed d now)) now)
  = Order.toJSON (constructed d now).
Proof.
  rewrite (Order_constructed_fields d now), Order_constructed_fields.
  cbn [od_id od_email od_createdOn od_completedOn od_paymentInfo od_total od_items
         default from_option id].
  f_equal.
  - apply (kept_by_setter Order.isValidOrderId (od_id d) isValidOrderId_trim eq_refl).
  - apply (kept_by_setter Order.isValidEmail (od_email d) isValidEmail_trim eq_refl).
  - destruct (od_completedOn d) as [c|]; [|reflexivity].
    destruct (now <=? c) eqn:E; [rewrite E|]; reflexivity.
  - f_equal. destruct (od_total d) as [x|]; [|reflexivity].
    destruct (PrimFloat.leb 0 x) eqn:E; [rewrite E|]; reflexivity.
  - f_equal. destruct (forallb _ (Js.keys (default [] (od_items d)))) eqn:E; [|reflexivity].
    cbn [default from_option id] in E. rewrite E. reflexivity.
Qed.

(** X24.  What the handlers store is what they read back: a document
    that a constructor has built and [toJSON] has written out is
    unchanged by another pass through the constructor and [toJSON], for
    tokens, items, users and orders alike; and building an order from
    such a document does not read the clock. *)
Theorem stored_documents_are_fixed_points :
  (∀ d, Token.toJSON (Token.new (Token.toJSON (Token.new d))) = Token.toJSON (Token.new d)) ∧
  (∀ d, Item.toJSON (Item.new (Item.toJSON (Item.new d))) = Item.toJSON (Item.new d)) ∧
  (∀ d, User.toJSON (User.new (User.toJSON (User.new d))) = User.toJSON (User.new d)) ∧
  (∀ d w w1 order,
      Order.new d w = (w1, Some order) →
      ∃ again, Order.new (Order.toJSON order) w1 = (w1, Some again) ∧
               Order.toJSON again = Order.toJSON order).
Proof.
  split; [exact Token_stored_fixed|]. split; [exact Item_stored_fixed|].
  split; [exact User_stored_fixed|].
  intros d w w1 order Hnew.
  assert (∃ now, order = constructed d now) as [now ->].
  { rewrite Order_new_eq in Hnew. destruct (od_createdOn d); inversion Hnew; eauto. }
  exists (constructed (Order.toJSON (constructed d now)) now). split.
  - rewrite Order_new_eq, Order_constructed_fields. reflexivity.
  - apply Order_stored_fixed.
Qed.

(** ** Users filed under their email *)

Lemma tidy_ret {A} (a : A) : tidy (ret a).
Proof. intros w Hw. exact Hw. Qed.

Lemma tidy_bind {A C} (m : M A) (k : A → M C) : tidy m → (∀ a, tidy (k a)) → tidy (bind m k).
Proof.
  intros Hm Hk w Hw. unfold bind. specialize (Hm w Hw).
  destruct (m w) as [w1 [a|]]; [apply Hk, Hm | exact Hm].
Qed.

Lemma tidy_of_preserves {A} (m : M A) : preserves users m → tidy m.
Proof. intros Hm w Hw file doc. rewrite Hm. apply Hw. Qed.

Lemma tidy_update file doc : ud_email doc = Some file → tidy (dataStore.update usersDir file doc).
Proof.
  intros Hdoc w Hw. unfold dataStore.update. cbn [dataStore.contents dataStore.replace usersDir].
  destruct (users w !! file); [|exact Hw].
  intros k d. cbn [fst users set_users]. rewrite lookup_insert.
  destruct (decide (file = k)) as [<-|Hne]; [intros [= <-]; exact Hdoc | apply Hw].
Qed.

Lemma tidy_create file doc : ud_email doc = Some file → tidy (dataStore.create usersDir file doc).
Proof.
  intros Hdoc w Hw. unfold dataStore.create. cbn [dataStore.contents dataStore.replace usersDir].
  destruct (users w !! file); [exact Hw|].
  intros k d. cbn [fst users set_users]. rewrite lookup_insert.
  destruct (decide (file = k)) as [<-|Hne]; [intros [= <-]; exact Hdoc | apply Hw].
Qed.

Lemma tidy_delete file : tidy (dataStore.delete usersDir file).
Proof.
  intros w Hw. unfold dataStore.delete. cbn [dataStore.contents dataStore.replace usersDir].
  destruct (users w !! file); [|exact Hw].
  intros k d. cbn [fst users set_users]. intros H. apply lookup_delete_Some in H as [_ H].
  apply Hw, H.
Qed.

Lemma tidy_User_get data : tidy (User.get data).
Proof. apply tidy_of_preserves, preserves_User_get; reflexivity. Qed.

Lemma tidy_User_put data : tidy (User.put data).
Proof.
  unfold User.put.
  destruct (if User.isValidEmail _ then _ else _) as [email'|]; [|apply tidy_ret].
  destruct (_ || _); [|apply tidy_ret].
  destruct (Token.isValidTokenId _); [|apply tidy_ret].
  apply tidy_bind; [apply tidy_of_preserves, preserves_Token_isValid; reflexivity|].
  intros []; [|apply tidy_ret].
  apply tidy_bind; [apply tidy_of_preserves, preserves_read|].
  intros [userData|]; [|apply tidy_ret].
  apply tidy_bind; [apply tidy_of_preserves, preserves_gets|]. intros hash.
  set (user := User.new _).
  destruct (strictEq (User.email user) (Some email')) eqn:Hsame.
  - apply bool_decide_eq_true in Hsame.
    apply tidy_bind; [apply tidy_update, Hsame|]. intros err.
    apply tidy_bind; [apply tidy_of_preserves, preserves_Token_extend; reflexivity|].
    intros _. destruct err; apply tidy_ret.
  - apply tidy_bind; [apply tidy_of_preserves, preserves_Token_extend; reflexivity|].
    intros _. apply tidy_ret.
Qed.

Lemma tidy_User_post p tosAgreement : tidy (User.post p tosAgreement).
Proof.
  unfold User.post.
  destruct (User.filled (ud_firstName p)) as [firstName|]; [|apply tidy_ret].
  destruct (User.filled (ud_lastName p)) as [lastName|]; [|apply tidy_ret].
  destruct (ud_email p) as [rawEmail|];
    [|destruct (User.isValidEmail None); apply tidy_ret].
  destruct (User.isValidEmail (Some rawEmail)) eqn:Hwell; [|apply tidy_ret].
  cbn [fmap option_fmap option_map].
  destruct (if User.isValidPassword _ then _ else _) as [password'|]; [|apply tidy_ret].
  destruct (default false tosAgreement); [|apply tidy_ret].
  apply tidy_bind; [apply tidy_of_preserves, preserves_read|].
  intros [existing|]; [apply tidy_ret|].
  apply tidy_bind; [apply tidy_of_preserves, preserves_gets|]. intros hashedPassword.
  destruct (Js.strOrNull hashedPassword) as [digest|]; [|apply tidy_ret].
  apply tidy_bind; [|intros []; apply tidy_ret].
  apply tidy_create. unfold User.toJSON. cbn [ud_email].
  rewrite (User_email_new _ (Js.trim rawEmail)); [rewrite trim_idem; reflexivity | reflexivity |].
  apply valid_email_trim, Hwell.
Qed.

Lemma preserves_deleteOrders {B} (f : World → B) ids :
  (∀ d w, f (set_orders d w) = f w) → preserves f (User.deleteOrders ids).
Proof.
  intros Ho. induction ids as [|orderId rest IH]; simpl; [apply preserves_ret|].
  apply preserves_bind; [apply preserves_delete; intros; apply Ho|]. intros err.
  apply preserves_bind; [exact IH|]. intros errs. apply preserves_ret.
Qed.

Lemma tidy_User_delete data : tidy (User.delete data).
Proof.
  unfold User.delete.
  destruct (if User.isValidEmail _ then _ else _) as [email'|]; [|apply tidy_ret].
  destruct (Token.isValidTokenId _); [|apply tidy_ret].
  apply tidy_bind; [apply tidy_of_preserves, preserves_Token_isValid; reflexivity|].
  intros []; [|apply tidy_ret].
  apply tidy_bind; [apply tidy_of_preserves, preserves_read|].
  intros [userData|]; [|apply tidy_ret].
  destruct (strictEq _ _); [|apply tidy_ret].
  apply tidy_bind; [apply tidy_of_preserves, preserves_Token_delete; reflexivity|].
  intros loggedOut. destruct (is200 loggedOut.1); [|apply tidy_ret].
  apply tidy_bind; [apply tidy_delete|].
  intros [err|]; [apply tidy_ret|].
  destruct (Nat.ltb 0 _); [|apply tidy_ret].
  apply tidy_bind; [apply tidy_of_preserves, preserves_deleteOrders; reflexivity|].
  intros []; apply tidy_ret.
Qed.

Lemma tidy_cart data found cart' :
  tidy (match found with
        | (statusCode, UserJSON userData) =>
            if is200 statusCode then
              if User.sameEmail (User.new userData) (ud_email (payload data))
              then User.put (User.cartUpdate data (User.new userData) (cart' (User.new userData)))
              else ret (Some 400, ErrorMsg "Could not update the specified user")
            else ret found
        | _ => ret found
        end).
Proof.
  destruct found as [statusCode []]; try apply tidy_ret.
  destruct (is200 statusCode); [|apply tidy_ret].
  destruct (User.sameEmail _ _); [apply tidy_User_put | apply tidy_ret].
Qed.

Lemma tidy_User_addToCart data itemId quantity : tidy (User.addToCart data itemId quantity).
Proof.
  unfold User.addToCart.
  apply tidy_bind; [apply tidy_of_preserves, preserves_list|]. intros itemsData.
  destruct (bool_decide _); [|apply tidy_ret].
  apply tidy_bind; [apply tidy_User_get|]. intros found.
  apply (tidy_cart data found
           (λ user, if PrimFloat.ltb 0 _ then Js.set _ _ (User.cart user)
                    else Js.remove _ (User.cart user))).
Qed.

Lemma tidy_User_emptyCart data : tidy (User.emptyCart data).
Proof.
  unfold User.emptyCart.
  apply tidy_bind; [apply tidy_User_get|]. intros found.
  apply (tidy_cart data found (λ _, [])).
Qed.

Lemma tidy_checkout_user data found : tidy (User.checkout_user data found).
Proof.
  unfold User.checkout_user.
  destruct found as [statusCode []]; try apply tidy_ret.
  destruct (is200 statusCode); [|apply tidy_ret].
  destruct (Nat.ltb 0 _); [|apply tidy_ret].
  apply tidy_bind; [apply tidy_of_preserves, preserves_Order_post; reflexivity|].
  intros [statusCode' []]; try apply tidy_ret.
  destruct (is200 statusCode'); [|apply tidy_ret].
  apply tidy_bind; [apply tidy_of_preserves, preserves_Order_new; reflexivity|]. intros order.
  apply tidy_bind.
  { apply tidy_of_preserves. intros w.
    pose proof (complete_frame users order (Some (Js.strOr (stripeToken data) "tok_visa")) w
                  ltac:(reflexivity) ltac:(reflexivity) ltac:(reflexivity) ltac:(reflexivity))
      as Hframe.
    destruct (Order.complete order _ w) as [[w' this'] response]. exact Hframe. }
  intros [status body]. unfold User.checkout_completed.
  destruct (is200 status); [|apply tidy_ret].
  apply tidy_bind; [apply tidy_User_put|].
  intros [statusCode'' userData]. destruct (is200 statusCode''); apply tidy_ret.
Qed.

Lemma tidy_User_checkout data : tidy (User.checkout data).
Proof.
  unfold User.checkout.
  destruct (if User.isValidEmail _ then _ else _) as [email'|]; [|apply tidy_ret].
  destruct (if Token.isValidTokenId _ then _ else _) as [tokenId|]; [|apply tidy_ret].
  apply tidy_bind; [apply tidy_of_preserves, preserves_Token_isValid; reflexivity|].
  intros []; [|apply tidy_ret].
  apply tidy_bind; [apply tidy_User_get|]. intros found.
  apply tidy_bind; [apply tidy_of_preserves, preserves_Token_extend; reflexivity|].
  intros _. apply tidy_checkout_user.
Qed.

(** X25.  Every handler of [User] keeps the user documents filed under
    their own email: when each stored user document carries the email it
    is filed under, it is so after the handler has run. *)
Theorem users_stay_filed_under_their_email (w : World) :
  filed w →
  (∀ p tosAgreement, filed (User.post p tosAgreement w).1) ∧
  (∀ data, filed (User.get data w).1) ∧
  (∀ data, filed (User.put data w).1) ∧
  (∀ data, filed (User.delete data w).1) ∧
  (∀ data itemId quantity, filed (User.addToCart data itemId quantity w).1) ∧
  (∀ data itemId, filed (User.removeFromCart data itemId w).1) ∧
  (∀ data, filed (User.emptyCart data w).1) ∧
  (∀ data, filed (User.checkout data w).1).
Proof.
  intros Hw. repeat split; intros.
  - apply tidy_User_post, Hw.
  - apply tidy_User_get, Hw.
  - apply tidy_User_put, Hw.
  - apply tidy_User_delete, Hw.
  - apply tidy_User_addToCart, Hw.
  - apply tidy_User_addToCart, Hw.
  - apply tidy_User_emptyCart, Hw.
  - apply tidy_User_checkout, Hw.
Qed.

Lemma users_stay_filed_under_their_email_witness :
  let w := Sample.world (Sample.token 5000000) (Sample.user [("pizza0000X", 2%float)])
             Sample.menu ∅ ["kq1x2y3zabcdefghijklm"] AjaxErr in
  filed (User.checkout (Sample.checkoutRequest Sample.joe) w).1.
Proof.
  intros w. apply (users_stay_filed_under_their_email w).
  intros file doc Hdoc. unfold w in Hdoc. cbn [users Sample.world] in Hdoc.
  unfold Sample.user in Hdoc. apply lookup_singleton_Some in Hdoc as [<- <-]. reflexivity.
Defined.

(** ** Reading and deleting orders *)




Lemma Order_get_missing raw w :
  helpers.isValidOrderId (Some raw) = true → orders w !! Js.trim raw = None →
  Order.get (Some raw) w =
  (w, Some (Some 404, Plain (ErrorMsg "Cannot find an order with the given ID"))).
Proof.
  intros Hvalid Hdoc. unfold Order.get, Order.isValidOrderId. rewrite Hvalid.
  cbn [fmap option_fmap option_map].
  unfold bind at 1. unfold dataStore.read at 1. cbn [dataStore.contents ordersDir].
  rewrite Hdoc. reflexivity.
Qed.


(** Deleting an order that is filed under its id. *)
Lemma Order_delete_run raw doc c w :
  helpers.isValidOrderId (Some raw) = true →
  orders w !! Js.trim raw = Some doc → od_id doc = Some (Js.trim raw) →
  od_createdOn doc = Some c →
  Order.delete (Some raw) w =
  (set_orders (delete (Js.trim raw) (orders w)) w,
   Some (Some 200, OrderJSON (Order.toJSON (constructed doc c)))).
Proof.
  intros Hvalid Hdoc Hid Hcreated. unfold Order.delete, Order.isValidOrderId. rewrite Hvalid.
  cbn [fmap option_fmap option_map].
  unfold bind at 1. unfold dataStore.read at 1. cbn [dataStore.contents ordersDir].
  rewrite Hdoc. unfold bind at 1. rewrite Order_new_eq, Hcreated.
  rewrite (id_of_constructed doc c (Js.trim raw) Hid)
    by (unfold Order.isValidOrderId; rewrite <- isValidOrderId_trim; exact Hvalid).
  rewrite trim_idem, strictEq_refl.
  unfold bind, dataStore.delete. cbn [dataStore.contents dataStore.replace ordersDir].
  rewrite Hdoc. reflexivity.
Qed.

(** Over an empty directory [Order.list] issues no read, and never calls back. *)
Lemma Order_list_empty w : orders w = ∅ → Order.list w = (w, None).
Proof.
  intros Hempty. unfold Order.list, bind, dataStore.list. cbn [dataStore.contents ordersDir].
  rewrite Hempty, map_to_list_empty. reflexivity.
Qed.



(** X27.  [Order.delete] on an order that is filed under its id answers
    200 with the order and deletes its file and no other; [Order.get]
    under that id is then answered 404. *)
Theorem Order_delete_removes_the_order (raw : string) (doc : OrderData) (c : Z) (w : World) :
  helpers.isValidOrderId (Some raw) = true →
  orders w !! Js.trim raw = Some doc → od_id doc = Some (Js.trim raw) →
  od_createdOn doc = Some c →
  ∃ w' order,
    Order.delete (Some raw) w = (w', Some (Some 200, OrderJSON order)) ∧
    od_id order = Some (Js.trim raw) ∧
    orders w' = delete (Js.trim raw) (orders w) ∧
    Order.get (Some raw) w' =
      (w', Some (Some 404, Plain (ErrorMsg "Cannot find an order with the given ID"))).
Proof.
  intros Hvalid Hdoc Hid Hcreated.
  eexists _, _. split; [apply (Order_delete_run raw doc c w Hvalid Hdoc Hid Hcreated)|].
  split.
  - unfold Order.toJSON. cbn [od_id].
    rewrite (id_of_constructed doc c (Js.trim raw) Hid)
      by (unfold Order.isValidOrderId; rewrite <- isValidOrderId_trim; exact Hvalid).
    rewrite trim_idem. reflexivity.
  - split; [reflexivity|]. apply Order_get_missing; [exact Hvalid|].
    cbn [orders set_orders]. apply lookup_delete_eq.
Qed.

Lemma Order_delete_removes_the_order_witness :
  let file := "k0000000orderorder01" in
  let w := Sample.world ∅ ∅ Sample.menu {[ file := Sample.paidOrder ]} [] AjaxErr in
  ∃ w' order,
    Order.delete (Some " k0000000orderorder01") w = (w', Some (Some 200, OrderJSON order)) ∧
    od_id order = Some file ∧
    orders w' = delete file (orders w) ∧
    Order.get (Some " k0000000orderorder01") w' =
      (w', Some (Some 404, Plain (ErrorMsg "Cannot find an order with the given ID"))).
Proof.
  intros file w.
  apply (Order_delete_removes_the_order " k0000000orderorder01" Sample.paidOrder 1000 w);
    vm_compute; reflexivity.
Defined.

(** X28.  The listings have the defect of [Item.list]: over an empty
    directory no read is issued and the callback is never invoked.  So a
    [GET] of the orders without a well-formed id is never answered while
    no order is stored, and neither is a [GET] of the items without a
    well-formed id while the catalog is empty. *)
Theorem listings_of_an_empty_directory_never_answer (w : World) (queryId : option string) :
  (orders w = ∅ → helpers.isValidOrderId queryId = false → Order.get queryId w = (w, None)) ∧
  (items w = ∅ → helpers.isValidItemId queryId = false → Item.get queryId w = (w, None)).
Proof.
  split.
  - intros Hempty Hid. unfold Order.get, Order.isValidOrderId. rewrite Hid.
    apply bind_silent, Order_list_empty, Hempty.
  - intros Hempty Hid. unfold Item.get, Item.isValidId. rewrite Hid.
    apply bind_silent.
    apply (proj2 (catalog_readings_of_an_empty_directory w Hempty)).
Qed.

Lemma listings_of_an_empty_directory_never_answer_witness :
  let w := Sample.world ∅ ∅ ∅ ∅ [] AjaxErr in
  Order.get None w = (w, None) ∧ Item.get (Some "pizza") w = (w, None).
Proof.
  intros w. destruct (listings_of_an_empty_directory_never_answer w None) as [Horders _].
  destruct (listings_of_an_empty_directory_never_answer w (Some "pizza")) as [_ Hitems].
  split; [apply Horders | apply Hitems]; reflexivity.
Defined.

(** ** The server and the router *)

Lemma dropEndSlashes_slash s : server.dropEndSlashes (s ++ "/") = server.dropEndSlashes s.
Proof.
  induction s as [|c r IH]; [reflexivity|].
  simpl. rewrite IH. reflexivity.
Qed.

Lemma dropSlashes_slash s :
  server.dropEndSlashes (server.dropSlashes (s ++ "/"))
  = server.dropEndSlashes (server.dropSlashes s ++ "/").
Proof.
  induction s as [|c r IH]; [reflexivity|].
  simpl. destruct c as [[] [] [] [] [] [] [] []]; try reflexivity. exact IH.
Qed.

(** Slashes at either end of a path do not count. *)
Lemma trimmedPath_slashes s :
  server.trimmedPath (String "/" s) = server.trimmedPath s ∧
  server.trimmedPath (s ++ "/") = server.trimmedPath s.
Proof.
  unfold server.trimmedPath. split; [reflexivity|].
  rewrite dropSlashes_slash. apply dropEndSlashes_slash.
Qed.

Lemma not_accepted m :
  m ∉ acceptedMethods →
  String.eqb m "post" = false ∧ String.eqb m "get" = false ∧
  String.eqb m "put" = false ∧ String.eqb m "delete" = false.
Proof.
  intros Hnot. repeat split; apply String.eqb_neq; intros ->; apply Hnot;
    unfold acceptedMethods; set_solver.
Qed.

(** X29.  The server drops the slashes around the path, so that one more
    slash in front or behind changes nothing.  A path that is neither a
    route nor the name of a function that every object inherits is
    answered 404 with an empty object; on the routes of the users, the
    tokens and the orders a method other than [post], [get], [put] and
    [delete] is answered 405, and so is every method other than [get] on
    the items.  None of these changes the world. *)
Theorem unserved_requests_are_answered_404_or_405
    (pathname method : string) (tokenid id email : option string)
    (payload : option Payload) (w : World) :
  let served := server.unifiedServer pathname method tokenid id email payload w in
  let path := server.trimmedPath pathname in
  let m := Js.toLowerCase (Js.trim (Js.toLowerCase method)) in
  server.unifiedServer (String "/" pathname) method tokenid id email payload w = served ∧
  server.unifiedServer (pathname ++ "/") method tokenid id email payload w = served ∧
  (Js.get path router.routes = None → path ∉ router.inherited →
   served = (w, Some (404, server.EmptyObject))) ∧
  (path ∈ crud → m ∉ acceptedMethods → served = (w, Some (405, server.EmptyObject))) ∧
  (path = "items" → m ≠ "get" → served = (w, Some (405, server.EmptyObject))).
Proof.
  intros served path m. subst served.
  destruct (trimmedPath_slashes pathname) as [Hfront Hback].
  split; [unfold server.unifiedServer; rewrite Hfront; reflexivity|].
  split; [unfold server.unifiedServer; rewrite Hback; reflexivity|].
  unfold server.unifiedServer. fold path. split; [|split].
  - intros Hroute Hown. unfold server.chosenHandler. rewrite Hroute.
    rewrite bool_decide_eq_false_2 by exact Hown. reflexivity.
  - intros Hpath Hmethod. destruct (not_accepted m Hmethod) as [Hpost [Hget [Hput Hdelete]]].
    unfold crud in Hpath.
    repeat (apply elem_of_cons in Hpath as [->|Hpath]); [..|inversion Hpath];
      unfold server.chosenHandler; cbn [Js.get router.routes String.eqb Ascii.eqb Bool.eqb];
      unfold User.httpRequestHandler, Token.httpRequestHandler, Order.httpRequestHandler,
        methodOf; cbn [d_method d_path]; fold m;
      rewrite ?Hpost, ?Hget, ?Hput, ?Hdelete; reflexivity.
  - intros -> Hmethod. unfold server.chosenHandler.
    cbn [Js.get router.routes String.eqb Ascii.eqb Bool.eqb].
    unfold Item.httpRequestHandler, methodOf. cbn [d_method]. fold m.
    apply String.eqb_neq in Hmethod. rewrite Hmethod. reflexivity.
Qed.

Lemma unserved_requests_are_answered_404_or_405_witness :
  let w := Sample.world ∅ ∅ Sample.menu ∅ [] AjaxErr in
  server.unifiedServer "/menu" "GET" None None None (Some Sample.nothing) w
    = (w, Some (404, server.EmptyObject)) ∧
  server.unifiedServer "/orders/" "PATCH" None None None (Some Sample.nothing) w
    = (w, Some (405, server.EmptyObject)) ∧
  server.unifiedServer "/items" "POST" None None None (Some Sample.nothing) w
    = (w, Some (405, server.EmptyObject)).
Proof.
  intros w. split; [|split].
  - destruct (unserved_requests_are_answered_404_or_405 "/menu" "GET" None None None
                (Some Sample.nothing) w) as [_ [_ [H404 _]]].
    apply H404; [reflexivity|].
    intros H. apply list_elem_of_In in H. vm_compute in H. intuition discriminate.
  - destruct (unserved_requests_are_answered_404_or_405 "/orders/" "PATCH" None None None
                (Some Sample.nothing) w) as [_ [_ [_ [H405 _]]]].
    apply H405.
    + apply list_elem_of_In. vm_compute. tauto.
    + intros H. apply list_elem_of_In in H. vm_compute in H. intuition discriminate.
  - destruct (unserved_requests_are_answered_404_or_405 "/items" "POST" None None None
                (Some Sample.nothing) w) as [_ [_ [_ [_ H405]]]].
    apply H405; [reflexivity|]. vm_compute. discriminate.
Defined.

(** X30.  The requests that the server leaves without an answer, whatever
    the world.  The router is a plain object, so the name of a function
    that every object inherits ([toString], [valueOf], ...) passes the
    [typeof ... === "function"] test of the server: that function is
    called as a handler and never invokes the callback.  And a [post] or
    a [put] on a route of the users, the tokens or the orders whose body
    is the JSON [null] raises when the handler reads a field of the
    payload. *)
Theorem requests_that_are_never_answered
    (pathname method : string) (tokenid id email : option string)
    (payload : option Payload) (w : World) :
  let served := server.unifiedServer pathname method tokenid id email payload w in
  let path := server.trimmedPath pathname in
  let m := Js.toLowerCase (Js.trim (Js.toLowerCase method)) in
  (path ∈ router.inherited → served = (w, None)) ∧
  (path ∈ crud → m = "post" ∨ m = "put" → payload = None → served = (w, None)).
Proof.
  intros served path m. subst served. unfold server.unifiedServer. fold path. split.
  - intros Hin. unfold router.inherited in Hin.
    repeat (apply elem_of_cons in Hin as [->|Hin]); [..|inversion Hin]; reflexivity.
  - intros Hpath Hmethod ->. unfold crud in Hpath.
    repeat (apply elem_of_cons in Hpath as [->|Hpath]); [..|inversion Hpath];
      unfold server.chosenHandler; cbn [Js.get router.routes String.eqb Ascii.eqb Bool.eqb];
      unfold User.httpRequestHandler, Token.httpRequestHandler, Order.httpRequestHandler,
        methodOf; cbn [d_method d_path d_payload]; fold m;
      destruct Hmethod as [-> | ->]; reflexivity.
Qed.

Lemma requests_that_are_never_answered_witness :
  let w := Sample.world ∅ ∅ Sample.menu ∅ [] AjaxErr in
  server.unifiedServer "/toString" "GET" None None None (Some Sample.nothing) w = (w, None) ∧
  server.unifiedServer "/users" "POST" None None None None w = (w, None).
Proof.
  intros w. split.
  - destruct (requests_that_are_never_answered "/toString" "GET" None None None
                (Some Sample.nothing) w) as [Hinherited _].
    apply Hinherited. apply list_elem_of_In. vm_compute. tauto.
  - destruct (requests_that_are_never_answered "/users" "POST" None None None None w)
      as [_ Hnull].
    apply Hnull; [apply list_elem_of_In; vm_compute; tauto | left; reflexivity | reflexivity].
Defined.
